(** * CHIP-8 interpreter core of [src/chips.c]

    A shallow embedding of the fetch / decode / execute cycle and of the
    pacing loop.  Fixed-width C integers are integers of [Z] with their
    wrap-around written out, the three arrays of [CHIP8Context] are lists
    read and written by index, and every C operation whose behaviour is
    undefined (an index outside its array, a shift by a negative amount)
    is an explicit [Undefined] outcome. *)

From Stdlib Require Import ZArith Lia Bool.
From stdpp Require Import base tactics option list strings.

Local Open Scope Z_scope.

(** ** Constants of the source *)

Definition RAM_SIZE : Z := 4096.
Definition ROM_MAX_SIZE : Z := 3584.
Definition ROM_GAME_ADDRESS_START : Z := 0x200.
Definition STEP_RATE_IN_MILLISECONDS : Z := 100.
Definition PIXEL_SIZE : Z := 20.
Definition CHIP8_DISPLAY_WIDTH : Z := 64.
Definition CHIP8_DISPLAY_HEIGHT : Z := 32.
Definition CHIP8_DISPLAY_MATRIX_SIZE : Z :=
  CHIP8_DISPLAY_WIDTH * CHIP8_DISPLAY_HEIGHT.

(** Number of elements of [display_cells]: [CHIP8_DISPLAY_MATRIX_SIZE / 64U]. *)
Definition DISPLAY_CELLS_LEN : Z := CHIP8_DISPLAY_MATRIX_SIZE / 64.

(** ** Fixed-width unsigned integers *)

Definition uint8 (z : Z) : Z := z mod 2 ^ 8.
Definition uint16 (z : Z) : Z := z mod 2 ^ 16.
Definition uint64 (z : Z) : Z := z mod 2 ^ 64.

Definition is_uint8 (z : Z) : bool := (0 <=? z) && (z <? 2 ^ 8).
Definition is_uint16 (z : Z) : bool := (0 <=? z) && (z <? 2 ^ 16).
Definition is_uint64 (z : Z) : bool := (0 <=? z) && (z <? 2 ^ 64).

(** ** The nibble macros *)

Definition GET_FIRST_NIBBLE (instruction : Z) : Z :=
  Z.shiftr (Z.land instruction 0xF000) 12.
Definition GET_SECOND_NIBBLE (instruction : Z) : Z :=
  Z.shiftr (Z.land instruction 0xF00) 8.
Definition GET_THIRD_NIBBLE (instruction : Z) : Z :=
  Z.shiftr (Z.land instruction 0xF0) 4.
Definition GET_FOURTH_NIBBLE (instruction : Z) : Z :=
  Z.land instruction 0xF.
Definition GET_THIRD_AND_FORTH_NIBBLES (instruction : Z) : Z :=
  Z.land instruction 0xFF.
Definition GET_SECOND_THIRD_AND_FOURTH_NIBBLES (instruction : Z) : Z :=
  Z.land instruction 0xFFF.

(** ** Machine state *)

Record CHIP8Context : Type := mkCHIP8Context {
  RAM : list Z;             (* uint8_t RAM[RAM_SIZE] *)
  PC : Z;                   (* uint16_t *)
  I : Z;                    (* uint16_t *)
  delay_timer : Z;          (* uint8_t *)
  sound_timer : Z;          (* uint8_t *)
  display_cells : list Z;   (* uint64_t display_cells[32] *)
  V : list Z                (* uint8_t V[16] *)
}.

(** The window and renderer handles of the source's [AppState] belong to the
    host; what the renderer is asked to present is recorded as an output
    event instead (see [event]). *)
Record AppState : Type := mkAppState {
  chip8_context : CHIP8Context;
  need_redraw : bool;
  last_step : Z             (* Uint64 *)
}.

Definition set_PC (pc : Z) (c : CHIP8Context) : CHIP8Context :=
  mkCHIP8Context (RAM c) pc (I c) (delay_timer c) (sound_timer c)
                 (display_cells c) (V c).
Definition set_I (i : Z) (c : CHIP8Context) : CHIP8Context :=
  mkCHIP8Context (RAM c) (PC c) i (delay_timer c) (sound_timer c)
                 (display_cells c) (V c).
Definition set_display_cells (d : list Z) (c : CHIP8Context) : CHIP8Context :=
  mkCHIP8Context (RAM c) (PC c) (I c) (delay_timer c) (sound_timer c) d (V c).
Definition set_V (v : list Z) (c : CHIP8Context) : CHIP8Context :=
  mkCHIP8Context (RAM c) (PC c) (I c) (delay_timer c) (sound_timer c)
                 (display_cells c) v.

Definition set_chip8_context (c : CHIP8Context) (a : AppState) : AppState :=
  mkAppState c (need_redraw a) (last_step a).
Definition set_need_redraw (b : bool) (a : AppState) : AppState :=
  mkAppState (chip8_context a) b (last_step a).
Definition set_last_step (t : Z) (a : AppState) : AppState :=
  mkAppState (chip8_context a) (need_redraw a) t.

(** ** Outcomes: a value, or undefined behaviour of the C program *)

Inductive array_id : Type := arr_RAM | arr_display_cells | arr_V.

Inductive fault : Type :=
| index_out_of_bounds (a : array_id) (index : Z)
| shift_out_of_range (amount : Z).

Inductive result (A : Type) : Type :=
| Ok (a : A)
| Undefined (f : fault).
Arguments Ok {A} a.
Arguments Undefined {A} f.

Definition bind {A B : Type} (m : result A) (k : A -> result B) : result B :=
  match m with
  | Ok a => k a
  | Undefined f => Undefined f
  end.

Notation "'do' x <- m ; k" := (bind m (fun x => k))
  (at level 10, x name, m at level 100, k at level 200).

(** [arr[i]] as an rvalue and [arr[i] = v]; an index outside the array is
    undefined behaviour. *)
Definition array_get (a : array_id) (arr : list Z) (i : Z) : result Z :=
  if decide (0 <= i) then
    match arr !! Z.to_nat i with
    | Some v => Ok v
    | None => Undefined (index_out_of_bounds a i)
    end
  else Undefined (index_out_of_bounds a i).

Definition array_set (a : array_id) (arr : list Z) (i v : Z)
  : result (list Z) :=
  if decide (0 <= i < Z.of_nat (length arr)) then Ok (<[Z.to_nat i := v]> arr)
  else Undefined (index_out_of_bounds a i).

(** [for (i = start; ...; i++) body], run [count] times. *)
Fixpoint for_loop {S : Type} (body : Z -> S -> result S)
  (count : nat) (i : Z) (s : S) : result S :=
  match count with
  | O => Ok s
  | Datatypes.S k => do s' <- body i s; for_loop body k (i + 1) s'
  end.

(** ** Well-formed states: the ranges the C types impose *)

Definition wf_context (c : CHIP8Context) : bool :=
  (Z.of_nat (length (RAM c)) =? RAM_SIZE) && forallb is_uint8 (RAM c)
  && is_uint16 (PC c) && is_uint16 (I c)
  && is_uint8 (delay_timer c) && is_uint8 (sound_timer c)
  && (Z.of_nat (length (display_cells c)) =? DISPLAY_CELLS_LEN)
  && forallb is_uint64 (display_cells c)
  && (Z.of_nat (length (V c)) =? 16) && forallb is_uint8 (V c).

Definition wf_state (appstate : AppState) : bool :=
  wf_context (chip8_context appstate) && is_uint64 (last_step appstate).

(** The check [wf_context], read as propositions. *)
Record wf_context_prop (c : CHIP8Context) : Prop := {
  wf_RAM_length : Z.of_nat (length (RAM c)) = RAM_SIZE;
  wf_RAM_bytes : forallb is_uint8 (RAM c) = true;
  wf_PC : 0 <= PC c < 65536;
  wf_I : 0 <= I c < 65536;
  wf_display_length : Z.of_nat (length (display_cells c)) = DISPLAY_CELLS_LEN;
  wf_display_words : forallb is_uint64 (display_cells c) = true;
  wf_V_length : Z.of_nat (length (V c)) = 16;
  wf_V_bytes : forallb is_uint8 (V c) = true
}.

(** ** Fetch *)

Definition fetch_instruction (appstate : AppState) : result (Z * AppState) :=
  let c := chip8_context appstate in
  do hi <- array_get arr_RAM (RAM c) (PC c);
  do lo <- array_get arr_RAM (RAM c) (PC c + 1);
  let instruction := uint16 (Z.lor (Z.shiftl hi 8) lo) in
  Ok (instruction,
      set_chip8_context (set_PC (uint16 (PC c + 0x2)) c) appstate).

(** ** Reading one display cell *)

Definition get_display_cell (appstate : AppState) (row col : Z) : result Z :=
  let shift := CHIP8_DISPLAY_WIDTH - col - 1 in
  do cells <- array_get arr_display_cells
                (display_cells (chip8_context appstate)) row;
  if decide (0 <= shift < 64) then Ok (Z.land (Z.shiftr cells shift) 0x1)
  else Undefined (shift_out_of_range shift).

(** ** Decode and execute *)

(** The text [snprintf] leaves in [*message], one constructor per format
    string, holding the arguments of the format. *)
Inductive message : Type :=
| Clear_the_display
| Not_an_instruction
| Jump_to_address (addr : Z)
| Set_value_to_register (value reg : Z)
| Add_value_to_register (value reg : Z)
| Set_address_to_register_I (addr : Z)
| Display_sprite (n vx vy : Z).

(** Body of the inner loop of DRW: one sprite bit XORed into the row. *)
Definition draw_sprite_bit (sprite_data x_coord x display_row : Z)
  : result Z :=
  let sprite_bit_value := Z.land (Z.shiftr sprite_data (7 - x)) 0x1 in
  let bit_pos := CHIP8_DISPLAY_WIDTH - 1 - (x_coord + x) in
  if decide (0 <= bit_pos < 64) then
    Ok (Z.lxor display_row (uint64 (Z.shiftl sprite_bit_value bit_pos)))
  else Undefined (shift_out_of_range bit_pos).

(** Body of the outer loop of DRW: one sprite byte XORed into one row. *)
Definition draw_sprite_row (ram : list Z) (i_reg x_coord y_coord y : Z)
  (cells : list Z) : result (list Z) :=
  do sprite_data <- array_get arr_RAM ram (i_reg + y);
  do display_row <- array_get arr_display_cells cells (y_coord + y);
  do display_row' <-
    for_loop (draw_sprite_bit sprite_data x_coord) 8 0 display_row;
  array_set arr_display_cells cells (y_coord + y) display_row'.

Definition decode_instruction (instruction : Z) (appstate : AppState)
  : result (message * AppState) :=
  let first_nibble := uint8 (GET_FIRST_NIBBLE instruction) in
  let second_nibble := uint8 (GET_SECOND_NIBBLE instruction) in
  let third_nibble := uint8 (GET_THIRD_NIBBLE instruction) in
  let fourth_nibble := uint8 (GET_FOURTH_NIBBLE instruction) in
  let third_and_fourth_nibbles :=
    uint8 (GET_THIRD_AND_FORTH_NIBBLES instruction) in
  let second_third_and_fourth_nibbles :=
    uint16 (GET_SECOND_THIRD_AND_FOURTH_NIBBLES instruction) in
  let c := chip8_context appstate in
  match first_nibble with
  | 0x0 =>
      match third_nibble with
      | 0xE =>
          Ok (Clear_the_display,
              set_need_redraw true
                (set_chip8_context
                   (set_display_cells
                      (replicate (Z.to_nat DISPLAY_CELLS_LEN) 0) c)
                   appstate))
      | _ => Ok (Not_an_instruction, appstate)
      end
  | 0x1 =>
      Ok (Jump_to_address second_third_and_fourth_nibbles,
          set_chip8_context (set_PC second_third_and_fourth_nibbles c)
            appstate)
  | 0x6 =>
      do v <- array_set arr_V (V c) second_nibble third_and_fourth_nibbles;
      Ok (Set_value_to_register third_and_fourth_nibbles second_nibble,
          set_chip8_context (set_V v c) appstate)
  | 0x7 =>
      do old <- array_get arr_V (V c) second_nibble;
      do v <- array_set arr_V (V c) second_nibble
                (uint8 (old + third_and_fourth_nibbles));
      Ok (Add_value_to_register third_and_fourth_nibbles second_nibble,
          set_chip8_context (set_V v c) appstate)
  | 0xA =>
      Ok (Set_address_to_register_I second_third_and_fourth_nibbles,
          set_chip8_context (set_I second_third_and_fourth_nibbles c)
            appstate)
  | 0xD =>
      do vx <- array_get arr_V (V c) second_nibble;
      do vy <- array_get arr_V (V c) third_nibble;
      let x_coord := uint16 vx in
      let y_coord := uint16 vy in
      let n := fourth_nibble in
      do v <- array_set arr_V (V c) 0xF 0;
      do cells <-
        for_loop (draw_sprite_row (RAM c) (I c) x_coord y_coord)
          (Z.to_nat n) 0 (display_cells c);
      Ok (Display_sprite fourth_nibble second_nibble third_nibble,
          set_need_redraw true
            (set_chip8_context (set_display_cells cells (set_V v c))
               appstate))
  | _ => Ok (Not_an_instruction, appstate)
  end.

(** ** Presenting the display *)

(** One [SDL_RenderFillRect] call: the cell at column [x], row [y], drawn
    white when [cell] is not zero. *)
Record fill_rect : Type := mkFillRect { rect_x : Z; rect_y : Z; cell : Z }.

Definition draw_screen (appstate : AppState) : result (list fill_rect) :=
  for_loop
    (fun j rects =>
       for_loop
         (fun i rects' =>
            do display_cell <- get_display_cell appstate j i;
            Ok (rects' ++ [mkFillRect i j display_cell]))
         (Z.to_nat CHIP8_DISPLAY_WIDTH) 0 rects)
    (Z.to_nat CHIP8_DISPLAY_HEIGHT) 0 [].

(** ** Pacing loop *)

(** What one run of the loop sends to the outside: the [printf] line of
    every executed instruction and every frame handed to the renderer. *)
Inductive event : Type :=
| Printed (instruction : Z) (msg : message)
| Presented (frame : list fill_rect).

(** Body of the [while] loop of [SDL_AppIterate]. *)
Definition SDL_AppIterate_body (appstate : AppState)
  : result (list event * AppState) :=
  do fetched <- fetch_instruction appstate;
  let cur_instruction := fst fetched in
  do decoded <- decode_instruction cur_instruction (snd fetched);
  let msg := fst decoded in
  let as1 := snd decoded in
  do redrawn <-
    (if need_redraw as1 then
       do frame <- draw_screen as1;
       Ok ([Presented frame], set_need_redraw false as1)
     else Ok ([], as1));
  let as2 := snd redrawn in
  Ok (Printed cur_instruction msg :: fst redrawn,
      set_last_step (uint64 (last_step as2 + STEP_RATE_IN_MILLISECONDS)) as2).

(** [SDL_AppIterate] with the clock reading [now] as an argument.  [None]
    means the fuel ran out before the loop condition became false; the
    function's own return value is always [SDL_APP_CONTINUE]. *)
Fixpoint SDL_AppIterate (fuel : nat) (now : Z) (appstate : AppState)
  : option (result (list event * AppState)) :=
  match fuel with
  | O => None
  | S fuel' =>
      if decide (STEP_RATE_IN_MILLISECONDS
                 <= uint64 (now - last_step appstate)) then
        match SDL_AppIterate_body appstate with
        | Undefined f => Some (Undefined f)
        | Ok (evs, as1) =>
            match SDL_AppIterate fuel' now as1 with
            | Some (Ok (evs', as2)) => Some (Ok (evs ++ evs', as2))
            | other => other
            end
        end
      else Some (Ok ([], appstate))
  end.

(** ** Vocabulary of the statements *)

(** The eight bits of a sprite byte, placed at columns [x_coord] to
    [x_coord + 7] of a packed row (column 0 is bit 63). *)
Definition sprite_mask (sprite_data x_coord : Z) : Z :=
  Z.shiftl (Z.land sprite_data 0xFF) (56 - x_coord).

(** The byte of [ram] at [addr]; every use below is at an address inside
    the array. *)
Definition byte_at (ram : list Z) (addr : Z) : Z :=
  default 0 (ram !! Z.to_nat addr).

(** Register [Vk], when [k] is inside [V]. *)
Definition register (appstate : AppState) (k : Z) : option Z :=
  V (chip8_context appstate) !! Z.to_nat k.

(** Bit [7 - x] of the sprite byte of sprite row [y], as the inner loop of
    DRW computes it: [(sprite_data >> (7 - x)) & 0x1]. *)
Definition sprite_bit (ram : list Z) (i_reg y x : Z) : Z :=
  Z.land (Z.shiftr (byte_at ram (i_reg + y)) (7 - x)) 0x1.

(** The state DRW leaves behind when it is defined. *)
Definition drawn (cells' : list Z) (appstate : AppState) : AppState :=
  let c := chip8_context appstate in
  set_need_redraw true
    (set_chip8_context
       (set_display_cells cells' (set_V (<[15%nat := 0]> (V c)) c))
       appstate).

(** The state CLS leaves behind. *)
Definition cleared (appstate : AppState) : AppState :=
  set_need_redraw true
    (set_chip8_context
       (set_display_cells (replicate (Z.to_nat DISPLAY_CELLS_LEN) 0)
          (chip8_context appstate))
       appstate).

(** The instruction words [decode_instruction] has a case for. *)
Definition recognized (instruction : Z) : bool :=
  let first := GET_FIRST_NIBBLE instruction in
  ((first =? 0x0) && (GET_THIRD_NIBBLE instruction =? 0xE))
  || (first =? 0x1) || (first =? 0x6) || (first =? 0x7)
  || (first =? 0xA) || (first =? 0xD).

(** [k] runs of the loop body in a row, with what they send out. *)
Fixpoint run_steps (k : nat) (appstate : AppState)
  : result (list event * AppState) :=
  match k with
  | O => Ok ([], appstate)
  | S k' =>
      do first <- SDL_AppIterate_body appstate;
      do rest <- run_steps k' (snd first);
      Ok (fst first ++ fst rest, snd rest)
  end.

(** Number of fetch + decode + execute cycles a run reports: one [printf]
    line each. *)
Fixpoint cycles (evs : list event) : nat :=
  match evs with
  | [] => 0
  | Printed _ _ :: evs' => S (cycles evs')
  | Presented _ :: evs' => cycles evs'
  end.

Definition set_RAM (ram : list Z) (c : CHIP8Context) : CHIP8Context :=
  mkCHIP8Context ram (PC c) (I c) (delay_timer c) (sound_timer c)
                 (display_cells c) (V c).

(** [appstate] with its memory replaced by [ram]. *)
Definition with_RAM (ram : list Z) (appstate : AppState) : AppState :=
  set_chip8_context (set_RAM ram (chip8_context appstate)) appstate.

(** A change of the state a step ends in, carried over its outcome. *)
Definition on_state (f : AppState -> AppState)
  (r : result (message * AppState)) : result (message * AppState) :=
  match r with
  | Ok (msg, appstate) => Ok (msg, f appstate)
  | Undefined e => Undefined e
  end.

(** ** Concrete machine states *)

Definition blank_RAM : list Z := replicate (Z.to_nat RAM_SIZE) 0.
Definition blank_display : list Z := replicate (Z.to_nat DISPLAY_CELLS_LEN) 0.
Definition blank_V : list Z := replicate 16 0.

(** [bytes] copied into [ram] from address [addr] on, as [fread] does with
    the ROM image at address 0x200. *)
Definition load (addr : Z) (bytes : list Z) (ram : list Z) : list Z :=
  take (Z.to_nat addr) ram ++ bytes
  ++ drop (Z.to_nat addr + length bytes) ram.

(** The state [SDL_AppInit] builds, with [rom] read at 0x200 and the clock
    reading [now]. *)
Definition initial_state (rom : list Z) (now : Z) : AppState :=
  mkAppState
    (mkCHIP8Context (load ROM_GAME_ADDRESS_START rom blank_RAM)
       ROM_GAME_ADDRESS_START 0 0 0 blank_display blank_V)
    false now.

(** [initial_state] after some instructions ran: registers [v], index
    register [i_reg], sprite data [sprite] stored at address [i_reg]. *)
Definition sprite_state (v : list Z) (i_reg : Z) (sprite : list Z)
  : AppState :=
  mkAppState
    (mkCHIP8Context (load i_reg sprite blank_RAM)
       ROM_GAME_ADDRESS_START i_reg 0 0 blank_display v)
    false 0.

Definition lit_display : list Z :=
  replicate (Z.to_nat DISPLAY_CELLS_LEN) (2 ^ 64 - 1).

(** A state whose 2048 display cells are all on. *)
Definition lit_state : AppState :=
  mkAppState
    (mkCHIP8Context blank_RAM ROM_GAME_ADDRESS_START 0 0 0 lit_display
       (<[3%nat := 7]> blank_V))
    false 0.

(** A state whose display is all on, with VF set, [i_reg] pointing at the
    sprite data [sprite] and registers V0 and V1 holding [vx] and [vy]. *)
Definition lit_sprite_state (vx vy i_reg : Z) (sprite : list Z) : AppState :=
  mkAppState
    (mkCHIP8Context (load i_reg sprite blank_RAM)
       ROM_GAME_ADDRESS_START i_reg 0 0 lit_display
       (<[0%nat := vx]> (<[1%nat := vy]> (<[15%nat := 1]> blank_V))))
    false 0.

(** ** Vocabulary of the further properties *)

(** The instruction words that write to the display: CLS and DRW. *)
Definition touches_display (instruction : Z) : bool :=
  ((GET_FIRST_NIBBLE instruction =? 0x0)
   && (GET_THIRD_NIBBLE instruction =? 0xE))
  || (GET_FIRST_NIBBLE instruction =? 0xD).

(** ** Reading the ROM: [read_rom_file] *)

(** A [char *] argument: a string, or the null pointer. *)
Definition char_ptr : Type := option string.

(** The host's files: the contents of the file a name opens for reading,
    or [None] when [fopen] returns [NULL].  A read never comes short, and
    the file size is what [fseek] to the end and [ftell] report. *)
Definition file_system : Type := string -> option (list Z).

(** What [read_rom_file] does that C leaves undefined. *)
Inductive rom_fault : Type :=
| argv_out_of_bounds (index : Z)   (* argv[2] read past argv[argc] *)
| null_file_name                   (* fopen (NULL, "r") *)
| null_stream (name : string)      (* fseek on the NULL fopen returned *)
| closed_stream (name : string)    (* fread after fclose *)
| RAM_overrun (count : Z).         (* fread past the end of RAM *)

(** The lines [puts] and [perror] write. *)
Inductive diagnostic : Type :=
| wrong_arguments
| cannot_open (name : string)
| rom_too_big.

(** [strcmp (arg, "-r") == 0 || strcmp (arg, "--rom") == 0] *)
Definition is_rom_option (arg : string) : bool :=
  String.eqb arg "-r" || String.eqb arg "--rom".

(** The [for] loop over [argv[i]], on the arguments from index [i] on: an
    option followed by one more argument takes that argument as the file
    name and skips it; anything else is reported. *)
Fixpoint scan_arguments (args : list string) (rom_file_address : char_ptr)
  : char_ptr * list diagnostic :=
  match args with
  | [] => (rom_file_address, [])
  | arg :: rest =>
      match is_rom_option arg, rest with
      | true, next :: rest' => scan_arguments rest' (Some next)
      | _, _ =>
          let (address, output) := scan_arguments rest rom_file_address in
          (address, wrong_arguments :: output)
      end
  end.

(** [argv[2]]: an argument, the terminating null pointer [argv[argc]] when
    [argc] is 2, and a read past the array when [argc] is less. *)
Definition argv_2 (argv : list string) : rom_fault + char_ptr :=
  match argv !! 2%nat with
  | Some arg => inr (Some arg)
  | None =>
      if decide (length argv = 2%nat) then inr None
      else inl (argv_out_of_bounds 2)
  end.

(** Conversion of the [long] that [ftell] returns to [int]. *)
Definition int32 (z : Z) : Z := (z + 2 ^ 31) mod 2 ^ 32 - 2 ^ 31.

(** Conversion of an [int] to [size_t]. *)
Definition size_t (z : Z) : Z := z mod 2 ^ 64.

Definition read_rom_file (files : file_system) (argv : list string)
  (appstate : AppState) : list diagnostic * (rom_fault + AppState) :=
  match argv_2 argv with
  | inl fault => ([], inl fault)
  | inr argv2 =>
      let (rom_file_address, output) :=
        scan_arguments (drop 1 argv) argv2 in
      match rom_file_address with
      | None => (output, inl null_file_name)
      | Some name =>
          match files name with
          | None => (output ++ [cannot_open name], inl (null_stream name))
          | Some contents =>
              let rom_file_size := int32 (Z.of_nat (length contents)) in
              if decide (ROM_MAX_SIZE < rom_file_size) then
                (output ++ [rom_too_big], inl (closed_stream name))
              else
                let bytes :=
                  take (Z.to_nat (size_t rom_file_size)) contents in
                let ram := RAM (chip8_context appstate) in
                if decide (0x200 + Z.of_nat (length bytes)
                           <= Z.of_nat (length ram)) then
                  (output,
                   inr (with_RAM (load 0x200 bytes ram) appstate))
                else
                  (output, inl (RAM_overrun (Z.of_nat (length bytes))))
          end
      end
  end.

(** ** Start-up: [SDL_AppInit] *)

Inductive SDL_AppResult : Type :=
| SDL_APP_CONTINUE
| SDL_APP_SUCCESS
| SDL_APP_FAILURE.

(** What the host answers during start-up. *)
Record host : Type := mkHost {
  SDL_Init_ok : bool;
  SDL_calloc_ok : bool;
  SDL_CreateWindowAndRenderer_ok : bool;
  host_files : file_system;
  SDL_GetTicks : Z          (* Uint64 *)
}.

(** The [AppState] that [SDL_calloc] returns: all bytes zero. *)
Definition zeroed_state : AppState :=
  mkAppState (mkCHIP8Context blank_RAM 0 0 0 0 blank_display blank_V) false 0.

(** The result of [SDL_AppInit] and the state left in [*appstate], if one
    was allocated. *)
Definition SDL_AppInit (h : host) (argv : list string)
  : list diagnostic * (rom_fault + SDL_AppResult * option AppState) :=
  if negb (SDL_Init_ok h) then ([], inr (SDL_APP_FAILURE, None))
  else if negb (SDL_calloc_ok h) then ([], inr (SDL_APP_FAILURE, None))
  else
    let as0 := set_need_redraw false zeroed_state in
    let as1 :=
      set_chip8_context
        (set_PC ROM_GAME_ADDRESS_START (chip8_context as0)) as0 in
    let as2 :=
      set_chip8_context
        (set_display_cells (replicate (Z.to_nat DISPLAY_CELLS_LEN) 0)
           (chip8_context as1)) as1 in
    if negb (SDL_CreateWindowAndRenderer_ok h) then
      ([], inr (SDL_APP_FAILURE, Some as2))
    else
      match read_rom_file (host_files h) argv as2 with
      | (output, inl fault) => (output, inl fault)
      | (output, inr as3) =>
          (output,
           inr (SDL_APP_CONTINUE,
                Some (set_last_step (uint64 (SDL_GetTicks h)) as3)))
      end.

(** ** A concrete host *)

(** A file system with one file, a three-byte ROM. *)
Definition pong_files : file_system :=
  fun name =>
    if String.eqb name "pong.ch8" then Some [0x00; 0xE0; 0x12] else None.

(** A host on which every start-up call succeeds, at clock reading 1000. *)
Definition pong_host : host := mkHost true true true pong_files 1000.

(** * Properties *)

(** ** Fixed-width integers and nibbles *)

Lemma is_uint8_spec z : is_uint8 z = true <-> 0 <= z < 256.
Proof. unfold is_uint8. rewrite andb_true_iff, Z.leb_le, Z.ltb_lt. lia. Qed.

Lemma is_uint16_spec z : is_uint16 z = true <-> 0 <= z < 65536.
Proof. unfold is_uint16. rewrite andb_true_iff, Z.leb_le, Z.ltb_lt. lia. Qed.

Lemma is_uint64_spec z : is_uint64 z = true <-> 0 <= z < 2 ^ 64.
Proof. unfold is_uint64. rewrite andb_true_iff, Z.leb_le, Z.ltb_lt. lia. Qed.

Lemma uint8_small z : 0 <= z < 256 -> uint8 z = z.
Proof. intros. unfold uint8. apply Z.mod_small. lia. Qed.

Lemma uint16_small z : 0 <= z < 65536 -> uint16 z = z.
Proof. intros. unfold uint16. apply Z.mod_small. lia. Qed.

Lemma uint64_small z : 0 <= z < 2 ^ 64 -> uint64 z = z.
Proof. intros. unfold uint64. apply Z.mod_small. lia. Qed.

Lemma GET_FIRST_NIBBLE_eq i : GET_FIRST_NIBBLE i = (i / 4096) mod 16.
Proof.
  unfold GET_FIRST_NIBBLE.
  change 0xF000 with (Z.shiftl (Z.ones 4) 12).
  rewrite Z.shiftr_land, Z.shiftr_shiftl_l by lia.
  change (12 - 12) with 0. rewrite Z.shiftl_0_r, Z.land_ones by lia.
  now rewrite Z.shiftr_div_pow2 by lia.
Qed.

Lemma GET_SECOND_NIBBLE_eq i : GET_SECOND_NIBBLE i = (i / 256) mod 16.
Proof.
  unfold GET_SECOND_NIBBLE.
  change 0xF00 with (Z.shiftl (Z.ones 4) 8).
  rewrite Z.shiftr_land, Z.shiftr_shiftl_l by lia.
  change (8 - 8) with 0. rewrite Z.shiftl_0_r, Z.land_ones by lia.
  now rewrite Z.shiftr_div_pow2 by lia.
Qed.

Lemma GET_THIRD_NIBBLE_eq i : GET_THIRD_NIBBLE i = (i / 16) mod 16.
Proof.
  unfold GET_THIRD_NIBBLE.
  change 0xF0 with (Z.shiftl (Z.ones 4) 4).
  rewrite Z.shiftr_land, Z.shiftr_shiftl_l by lia.
  change (4 - 4) with 0. rewrite Z.shiftl_0_r, Z.land_ones by lia.
  now rewrite Z.shiftr_div_pow2 by lia.
Qed.

Lemma GET_FOURTH_NIBBLE_eq i : GET_FOURTH_NIBBLE i = i mod 16.
Proof.
  unfold GET_FOURTH_NIBBLE. change 0xF with (Z.ones 4).
  now rewrite Z.land_ones by lia.
Qed.

Lemma GET_THIRD_AND_FORTH_NIBBLES_eq i :
  GET_THIRD_AND_FORTH_NIBBLES i = i mod 256.
Proof.
  unfold GET_THIRD_AND_FORTH_NIBBLES. change 0xFF with (Z.ones 8).
  now rewrite Z.land_ones by lia.
Qed.

Lemma GET_SECOND_THIRD_AND_FOURTH_NIBBLES_eq i :
  GET_SECOND_THIRD_AND_FOURTH_NIBBLES i = i mod 4096.
Proof.
  unfold GET_SECOND_THIRD_AND_FOURTH_NIBBLES. change 0xFFF with (Z.ones 12).
  now rewrite Z.land_ones by lia.
Qed.

Lemma first_nibble_range i : 0 <= GET_FIRST_NIBBLE i < 16.
Proof. rewrite GET_FIRST_NIBBLE_eq. apply Z.mod_pos_bound. lia. Qed.

Lemma second_nibble_range i : 0 <= GET_SECOND_NIBBLE i < 16.
Proof. rewrite GET_SECOND_NIBBLE_eq. apply Z.mod_pos_bound. lia. Qed.

Lemma third_nibble_range i : 0 <= GET_THIRD_NIBBLE i < 16.
Proof. rewrite GET_THIRD_NIBBLE_eq. apply Z.mod_pos_bound. lia. Qed.

Lemma fourth_nibble_range i : 0 <= GET_FOURTH_NIBBLE i < 16.
Proof. rewrite GET_FOURTH_NIBBLE_eq. apply Z.mod_pos_bound. lia. Qed.

Lemma byte_operand_range i : 0 <= GET_THIRD_AND_FORTH_NIBBLES i < 256.
Proof.
  rewrite GET_THIRD_AND_FORTH_NIBBLES_eq. apply Z.mod_pos_bound. lia.
Qed.

Lemma address_operand_range i :
  0 <= GET_SECOND_THIRD_AND_FOURTH_NIBBLES i < 4096.
Proof.
  rewrite GET_SECOND_THIRD_AND_FOURTH_NIBBLES_eq. apply Z.mod_pos_bound. lia.
Qed.

(** The conversions to [uint8_t] and [uint16_t] at the head of
    [decode_instruction] lose nothing. *)
Lemma uint8_first_nibble i : uint8 (GET_FIRST_NIBBLE i) = GET_FIRST_NIBBLE i.
Proof. apply uint8_small. pose proof (first_nibble_range i). lia. Qed.

Lemma uint8_second_nibble i :
  uint8 (GET_SECOND_NIBBLE i) = GET_SECOND_NIBBLE i.
Proof. apply uint8_small. pose proof (second_nibble_range i). lia. Qed.

Lemma uint8_third_nibble i : uint8 (GET_THIRD_NIBBLE i) = GET_THIRD_NIBBLE i.
Proof. apply uint8_small. pose proof (third_nibble_range i). lia. Qed.

Lemma uint8_fourth_nibble i :
  uint8 (GET_FOURTH_NIBBLE i) = GET_FOURTH_NIBBLE i.
Proof. apply uint8_small. pose proof (fourth_nibble_range i). lia. Qed.

Lemma uint8_byte_operand i :
  uint8 (GET_THIRD_AND_FORTH_NIBBLES i) = GET_THIRD_AND_FORTH_NIBBLES i.
Proof. apply uint8_small. apply byte_operand_range. Qed.

Lemma uint16_address_operand i :
  uint16 (GET_SECOND_THIRD_AND_FOURTH_NIBBLES i)
  = GET_SECOND_THIRD_AND_FOURTH_NIBBLES i.
Proof. apply uint16_small. pose proof (address_operand_range i). lia. Qed.

(** ** Arrays *)

Lemma array_get_Ok a arr i v :
  array_get a arr i = Ok v <-> 0 <= i /\ arr !! Z.to_nat i = Some v.
Proof.
  unfold array_get. destruct (decide (0 <= i)) as [Hi|Hi].
  - destruct (arr !! Z.to_nat i) as [w|]; split.
    + intros [= ->]. auto.
    + intros [_ [= ->]]. reflexivity.
    + discriminate.
    + intros [_ [=]].
  - split; [discriminate | intros [? _]; lia].
Qed.

Lemma array_get_in_bounds a arr i :
  0 <= i < Z.of_nat (length arr) ->
  exists v, array_get a arr i = Ok v /\ arr !! Z.to_nat i = Some v.
Proof.
  intros Hi. destruct (lookup_lt_is_Some_2 arr (Z.to_nat i)) as [v Hv];
    [lia|].
  exists v. split; [|exact Hv]. apply array_get_Ok. split; [lia | exact Hv].
Qed.

Lemma array_set_Ok a arr i v arr' :
  array_set a arr i v = Ok arr' <->
  0 <= i < Z.of_nat (length arr) /\ arr' = <[Z.to_nat i := v]> arr.
Proof.
  unfold array_set. destruct (decide (0 <= i < Z.of_nat (length arr))); split.
  - intros [= <-]. auto.
  - intros [_ ->]. reflexivity.
  - discriminate.
  - intros [? _]. contradiction.
Qed.

Lemma array_set_in_bounds a arr i v :
  0 <= i < Z.of_nat (length arr) ->
  array_set a arr i v = Ok (<[Z.to_nat i := v]> arr).
Proof. intros. apply array_set_Ok. auto. Qed.

Lemma forallb_lookup {A} (f : A -> bool) (l : list A) (k : nat) (x : A) :
  forallb f l = true -> l !! k = Some x -> f x = true.
Proof.
  revert k. induction l as [|y l IH]; intros k Hall Hk; [discriminate|].
  cbn in Hall. apply andb_true_iff in Hall as [Hy Hl].
  destruct k as [|k]; cbn in Hk.
  - now injection Hk as <-.
  - eauto.
Qed.

Lemma forallb_insert {A} (f : A -> bool) (l : list A) (k : nat) (x : A) :
  forallb f l = true -> f x = true -> forallb f (<[k := x]> l) = true.
Proof.
  revert k. induction l as [|y l IH]; intros k Hall Hx; [reflexivity|].
  cbn in Hall. apply andb_true_iff in Hall as [Hy Hl].
  destruct k as [|k]; cbn; apply andb_true_iff; auto.
Qed.

(** ** Reading the well-formedness check *)

Lemma wf_context_inv c : wf_context c = true -> wf_context_prop c.
Proof.
  unfold wf_context. rewrite !andb_true_iff, !Z.eqb_eq.
  rewrite !is_uint16_spec. intros H. split; tauto.
Qed.

Lemma wf_state_inv appstate :
  wf_state appstate = true ->
  wf_context_prop (chip8_context appstate)
  /\ 0 <= last_step appstate < 2 ^ 64.
Proof.
  unfold wf_state. rewrite andb_true_iff, is_uint64_spec.
  intros [Hc Ht]. split; [now apply wf_context_inv | exact Ht].
Qed.

Lemma wf_RAM_byte c k b :
  wf_context_prop c -> RAM c !! k = Some b -> 0 <= b < 256.
Proof.
  intros Hwf Hk. apply is_uint8_spec.
  exact (forallb_lookup _ _ _ _ (wf_RAM_bytes c Hwf) Hk).
Qed.

Lemma wf_V_byte c k b :
  wf_context_prop c -> V c !! k = Some b -> 0 <= b < 256.
Proof.
  intros Hwf Hk. apply is_uint8_spec.
  exact (forallb_lookup _ _ _ _ (wf_V_bytes c Hwf) Hk).
Qed.

Lemma wf_display_word c k w :
  wf_context_prop c -> display_cells c !! k = Some w -> 0 <= w < 2 ^ 64.
Proof.
  intros Hwf Hk. apply is_uint64_spec.
  exact (forallb_lookup _ _ _ _ (wf_display_words c Hwf) Hk).
Qed.

(** ** The counted loop *)

Lemma for_loop_S {S} (body : Z -> S -> result S) k i s :
  for_loop body (Datatypes.S k) i s
  = do s' <- body i s; for_loop body k (i + 1) s'.
Proof. reflexivity. Qed.

(** A loop whose body is defined on every state satisfying an invariant is
    defined, and the invariant holds at the end. *)
Lemma for_loop_defined {S} (body : Z -> S -> result S) (P : S -> Prop)
  count start s :
  (forall i s1, start <= i < start + Z.of_nat count -> P s1 ->
                exists s2, body i s1 = Ok s2 /\ P s2) ->
  P s ->
  exists s', for_loop body count start s = Ok s' /\ P s'.
Proof.
  revert start s. induction count as [|k IH]; intros start s Hbody Hs.
  - exists s. auto.
  - destruct (Hbody start s) as (s1 & Hs1 & HP1); [lia | exact Hs |].
    rewrite for_loop_S, Hs1. cbn. apply IH; [|exact HP1].
    intros i s2 Hi. apply Hbody. lia.
Qed.

(** Conversely, when the loop is defined the body was defined at every
    index, on a state satisfying the invariant. *)
Lemma for_loop_Ok_inv {S} (body : Z -> S -> result S) (P : S -> Prop)
  count start s s' :
  (forall i s1 s2, P s1 -> body i s1 = Ok s2 -> P s2) ->
  P s ->
  for_loop body count start s = Ok s' ->
  forall i, start <= i < start + Z.of_nat count ->
            exists s1 s2, P s1 /\ body i s1 = Ok s2.
Proof.
  intros Hinv. revert start s.
  induction count as [|k IH]; intros start s Hs Hrun i Hi; [lia|].
  rewrite for_loop_S in Hrun.
  destruct (body start s) as [s1|f] eqn:Hb; [|discriminate].
  cbn in Hrun. destruct (decide (i = start)) as [->|Hne].
  - eauto.
  - apply (IH (start + 1) s1); [eauto | exact Hrun | lia].
Qed.

Lemma for_loop_invariant {S} (body : Z -> S -> result S) (P : S -> Prop)
  count start s s' :
  (forall i s1 s2, P s1 -> body i s1 = Ok s2 -> P s2) ->
  P s -> for_loop body count start s = Ok s' -> P s'.
Proof.
  intros Hinv. revert start s.
  induction count as [|k IH]; intros start s Hs Hrun.
  - now injection Hrun as <-.
  - rewrite for_loop_S in Hrun.
    destruct (body start s) as [s1|f] eqn:Hb; [|discriminate].
    cbn in Hrun. eauto.
Qed.

(** ** The inner loop of DRW *)

Lemma testbit_bit_term s j p k :
  0 <= j -> 0 <= p -> 0 <= k ->
  Z.testbit (Z.shiftl (Z.land (Z.shiftr s j) 1) p) k
  = (k =? p) && Z.testbit s j.
Proof.
  intros Hj Hp Hk. rewrite Z.shiftl_spec by lia.
  destruct (Z.eqb_spec k p) as [->|Hne].
  - rewrite Z.sub_diag, Z.land_spec, Z.shiftr_spec by lia.
    cbn. now rewrite andb_true_r.
  - destruct (Z.lt_ge_cases (k - p) 0) as [Hlt|Hge].
    + now rewrite Z.testbit_neg_r.
    + change 1 with (Z.ones 1). rewrite Z.land_ones by lia.
      now rewrite Z.mod_pow2_bits_high by lia.
Qed.

Lemma testbit_sprite_mask s x_coord k :
  0 <= x_coord <= 56 -> 0 <= k ->
  Z.testbit (sprite_mask s x_coord) k
  = (56 - x_coord <=? k) && (k <=? 63 - x_coord)
    && Z.testbit s (k - (56 - x_coord)).
Proof.
  intros Hx Hk. unfold sprite_mask. rewrite Z.shiftl_spec by lia.
  destruct (Z.leb_spec (56 - x_coord) k) as [Hlo|Hlo]; cbn.
  - change 0xFF with (Z.ones 8). rewrite Z.land_ones by lia.
    destruct (Z.leb_spec k (63 - x_coord)) as [Hhi|Hhi]; cbn.
    + now rewrite Z.mod_pow2_bits_low by lia.
    + now rewrite Z.mod_pow2_bits_high by lia.
  - now rewrite Z.testbit_neg_r by lia.
Qed.

Lemma sprite_mask_range s x_coord :
  0 <= x_coord <= 56 -> 0 <= sprite_mask s x_coord < 2 ^ 64.
Proof.
  intros Hx. unfold sprite_mask. change 0xFF with (Z.ones 8).
  rewrite Z.land_ones, Z.shiftl_mul_pow2 by lia.
  pose proof (Z.mod_pos_bound s (2 ^ 8) ltac:(lia)) as Hb.
  assert (Hp : 0 < 2 ^ (56 - x_coord)) by (apply Z.pow_pos_nonneg; lia).
  assert (Hs : 2 ^ 8 * 2 ^ (56 - x_coord) = 2 ^ (64 - x_coord))
    by (rewrite <- Z.pow_add_r by lia; f_equal; lia).
  assert (Hle : 2 ^ (64 - x_coord) <= 2 ^ 64)
    by (apply Z.pow_le_mono_r; lia).
  nia.
Qed.

Lemma bit_shift_range b p :
  0 <= b < 2 ^ 1 -> 0 <= p <= 63 -> 0 <= b * 2 ^ p < 2 ^ 64.
Proof.
  intros Hb Hp. change (2 ^ 1) with 2 in Hb.
  assert (H0 : 0 < 2 ^ p) by (apply Z.pow_pos_nonneg; lia).
  assert (Hle : 2 ^ p <= 2 ^ 63) by (apply Z.pow_le_mono_r; lia).
  assert (H64 : 2 ^ 63 < 2 ^ 64) by reflexivity.
  assert (Hc : b = 0 \/ b = 1) by lia. destruct Hc as [->| ->]; lia.
Qed.

Lemma draw_sprite_bit_in_bounds s x_coord x row :
  0 <= x <= 7 -> 0 <= x_coord + x <= 63 ->
  draw_sprite_bit s x_coord x row
  = Ok (Z.lxor row
          (Z.shiftl (Z.land (Z.shiftr s (7 - x)) 1) (63 - (x_coord + x)))).
Proof.
  intros Hx Hc. unfold draw_sprite_bit, CHIP8_DISPLAY_WIDTH.
  change (64 - 1) with 63.
  destruct (decide (0 <= 63 - (x_coord + x) < 64)) as [_|Hn]; [|lia].
  do 2 f_equal. apply uint64_small.
  change 1 with (Z.ones 1). rewrite Z.land_ones, Z.shiftl_mul_pow2 by lia.
  apply bit_shift_range; [|lia]. apply Z.mod_pos_bound. reflexivity.
Qed.

Ltac decide_cmp :=
  repeat match goal with
  | |- context [?a =? ?b] =>
      first [ replace (a =? b) with true by (symmetry; apply Z.eqb_eq; lia)
            | replace (a =? b) with false by (symmetry; apply Z.eqb_neq; lia) ]
  | |- context [?a <=? ?b] =>
      first [ replace (a <=? b) with true by (symmetry; apply Z.leb_le; lia)
            | replace (a <=? b) with false by (symmetry; apply Z.leb_gt; lia) ]
  end.

(** The eight XORs of the inner loop amount to one XOR with the sprite byte
    shifted into place. *)
Lemma draw_sprite_bits s x_coord row :
  0 <= x_coord <= 56 ->
  for_loop (draw_sprite_bit s x_coord) 8 0 row
  = Ok (Z.lxor row (sprite_mask s x_coord)).
Proof.
  intros Hx. cbn [for_loop].
  repeat (rewrite draw_sprite_bit_in_bounds by lia; cbn [bind]).
  f_equal. rewrite !Z.lxor_assoc. f_equal.
  apply Z.bits_inj'. intros k Hk.
  rewrite !Z.lxor_spec, !testbit_bit_term, testbit_sprite_mask by lia.
  assert (Hd : k < 56 - x_coord \/ k = 56 - x_coord \/ k = 57 - x_coord
               \/ k = 58 - x_coord \/ k = 59 - x_coord \/ k = 60 - x_coord
               \/ k = 61 - x_coord \/ k = 62 - x_coord \/ k = 63 - x_coord
               \/ 63 - x_coord < k) by lia.
  destruct Hd as [Hd|[Hd|[Hd|[Hd|[Hd|[Hd|[Hd|[Hd|[Hd|Hd]]]]]]]]];
    decide_cmp; cbn [andb];
    rewrite ?xorb_false_l, ?xorb_false_r; try reflexivity;
    f_equal; lia.
Qed.

(** ** The outer loop of DRW *)

Lemma draw_sprite_row_in_bounds ram i_reg x_coord y_coord y cells v row :
  0 <= x_coord <= 56 ->
  0 <= i_reg + y -> ram !! Z.to_nat (i_reg + y) = Some v ->
  0 <= y_coord + y -> cells !! Z.to_nat (y_coord + y) = Some row ->
  draw_sprite_row ram i_reg x_coord y_coord y cells
  = Ok (<[Z.to_nat (y_coord + y) := Z.lxor row (sprite_mask v x_coord)]>
          cells).
Proof.
  intros Hx Hi Hv Hy Hrow. unfold draw_sprite_row.
  rewrite (proj2 (array_get_Ok arr_RAM ram (i_reg + y) v)) by auto.
  cbn [bind].
  rewrite (proj2 (array_get_Ok arr_display_cells cells (y_coord + y) row))
    by auto.
  cbn [bind]. rewrite draw_sprite_bits by exact Hx. cbn [bind].
  apply array_set_in_bounds. apply lookup_lt_Some in Hrow. lia.
Qed.

Lemma draw_sprite_rows ram i_reg x_coord y_coord count start cells :
  0 <= x_coord <= 56 -> 0 <= start -> 0 <= i_reg -> 0 <= y_coord ->
  i_reg + start + Z.of_nat count <= Z.of_nat (length ram) ->
  y_coord + start + Z.of_nat count <= Z.of_nat (length cells) ->
  exists cells',
    for_loop (draw_sprite_row ram i_reg x_coord y_coord) count start cells
    = Ok cells'
    /\ length cells' = length cells
    /\ forall r : nat,
        cells' !! r =
        if decide (y_coord + start <= Z.of_nat r
                   < y_coord + start + Z.of_nat count)
        then (fun row =>
                Z.lxor row
                  (sprite_mask (byte_at ram (i_reg + (Z.of_nat r - y_coord)))
                     x_coord)) <$> cells !! r
        else cells !! r.
Proof.
  intros Hx. revert start cells.
  induction count as [|k IH]; intros start cells Hs Hi Hy Hram Hcells.
  - exists cells. split; [reflexivity|]. split; [reflexivity|].
    intros r. destruct (decide _); [lia | reflexivity].
  - destruct (lookup_lt_is_Some_2 ram (Z.to_nat (i_reg + start)))
      as [v Hv]; [lia|].
    destruct (lookup_lt_is_Some_2 cells (Z.to_nat (y_coord + start)))
      as [row Hrow]; [lia|].
    rewrite for_loop_S.
    rewrite (draw_sprite_row_in_bounds _ _ _ _ _ _ v row) by (auto; lia).
    cbn [bind].
    set (cells1 := <[Z.to_nat (y_coord + start)
                     := Z.lxor row (sprite_mask v x_coord)]> cells).
    assert (Hlen1 : length cells1 = length cells) by apply length_insert.
    destruct (IH (start + 1) cells1) as (cells' & Hrun & Hlen & Hlook);
      [lia | lia | lia | lia | lia |].
    exists cells'. split; [exact Hrun|]. split; [congruence|].
    intros r. rewrite Hlook.
    destruct (decide (r = Z.to_nat (y_coord + start))) as [->|Hne].
    + destruct (decide (y_coord + (start + 1) <= _ < _)); [lia|].
      destruct (decide (y_coord + start <= _ < _)); [|lia].
      unfold cells1. rewrite list_lookup_insert_eq
        by (apply lookup_lt_Some in Hrow; exact Hrow).
      rewrite Hrow. cbn. do 3 f_equal. unfold byte_at.
      replace (i_reg + (Z.of_nat (Z.to_nat (y_coord + start)) - y_coord))
        with (i_reg + start) by lia.
      now rewrite Hv.
    + unfold cells1. rewrite list_lookup_insert_ne by congruence.
      destruct (decide (y_coord + (start + 1) <= _ < _));
        destruct (decide (y_coord + start <= _ < _));
        first [reflexivity | lia].
Qed.

(** ** DRW as a whole *)

Lemma bind_Ok_inv {A B} (m : result A) (k : A -> result B) b :
  bind m k = Ok b -> exists a, m = Ok a /\ k a = Ok b.
Proof. destruct m as [a|f]; cbn; [eauto | discriminate]. Qed.

Lemma decode_DRW_eq instruction appstate :
  GET_FIRST_NIBBLE instruction = 0xD ->
  decode_instruction instruction appstate
  = let c := chip8_context appstate in
    do vx <- array_get arr_V (V c) (GET_SECOND_NIBBLE instruction);
    do vy <- array_get arr_V (V c) (GET_THIRD_NIBBLE instruction);
    do v <- array_set arr_V (V c) 0xF 0;
    do cells <-
      for_loop (draw_sprite_row (RAM c) (I c) (uint16 vx) (uint16 vy))
        (Z.to_nat (GET_FOURTH_NIBBLE instruction)) 0 (display_cells c);
    Ok (Display_sprite (GET_FOURTH_NIBBLE instruction)
          (GET_SECOND_NIBBLE instruction) (GET_THIRD_NIBBLE instruction),
        set_need_redraw true
          (set_chip8_context (set_display_cells cells (set_V v c)) appstate)).
Proof.
  intros Hop. unfold decode_instruction.
  rewrite uint8_first_nibble, uint8_second_nibble, uint8_third_nibble,
    uint8_fourth_nibble, Hop.
  reflexivity.
Qed.

Lemma draw_sprite_row_length ram i_reg x_coord y_coord y s1 s2 :
  draw_sprite_row ram i_reg x_coord y_coord y s1 = Ok s2 ->
  length s2 = length s1.
Proof.
  unfold draw_sprite_row. intros H.
  apply bind_Ok_inv in H as (v & _ & H).
  apply bind_Ok_inv in H as (row & _ & H).
  apply bind_Ok_inv in H as (row' & _ & H).
  apply array_set_Ok in H as [_ ->]. apply length_insert.
Qed.

Section DRW.
Variables (instruction : Z) (appstate : AppState) (x0 y0 : Z).
Hypothesis Hwf : wf_state appstate = true.
Hypothesis Hop : GET_FIRST_NIBBLE instruction = 0xD.
Hypothesis Hx0 : register appstate (GET_SECOND_NIBBLE instruction) = Some x0.
Hypothesis Hy0 : register appstate (GET_THIRD_NIBBLE instruction) = Some y0.

Lemma DRW_coordinates_bytes : 0 <= x0 < 256 /\ 0 <= y0 < 256.
Proof.
  destruct (wf_state_inv _ Hwf) as [Hc _].
  split; eapply wf_V_byte; eauto.
Qed.

Lemma decode_DRW_start :
  decode_instruction instruction appstate
  = let c := chip8_context appstate in
    do cells <-
      for_loop (draw_sprite_row (RAM c) (I c) x0 y0)
        (Z.to_nat (GET_FOURTH_NIBBLE instruction)) 0 (display_cells c);
    Ok (Display_sprite (GET_FOURTH_NIBBLE instruction)
          (GET_SECOND_NIBBLE instruction) (GET_THIRD_NIBBLE instruction),
        drawn cells appstate).
Proof.
  destruct (wf_state_inv _ Hwf) as [Hc _].
  destruct DRW_coordinates_bytes as [Hxb Hyb].
  pose proof (second_nibble_range instruction) as H2.
  pose proof (third_nibble_range instruction) as H3.
  rewrite decode_DRW_eq by exact Hop. cbv zeta.
  rewrite (proj2 (array_get_Ok arr_V _ _ x0)) by (split; [lia | exact Hx0]).
  cbn [bind].
  rewrite (proj2 (array_get_Ok arr_V _ _ y0)) by (split; [lia | exact Hy0]).
  cbn [bind].
  rewrite array_set_in_bounds by (rewrite (wf_V_length _ Hc); lia).
  cbn [bind]. rewrite !uint16_small by lia. reflexivity.
Qed.

(** Inside the display and inside memory the draw is defined, and XORs
    the sprite bytes, shifted into place, into rows [y0] to [y0 + n - 1]. *)
Lemma decode_DRW_in_bounds :
  let c := chip8_context appstate in
  let n := GET_FOURTH_NIBBLE instruction in
  x0 + 7 <= 63 -> y0 + n - 1 <= 31 -> I c + n <= RAM_SIZE ->
  exists cells',
    decode_instruction instruction appstate
    = Ok (Display_sprite n (GET_SECOND_NIBBLE instruction)
            (GET_THIRD_NIBBLE instruction),
          drawn cells' appstate)
    /\ length cells' = length (display_cells c)
    /\ forall r : nat,
        cells' !! r =
        if decide (y0 <= Z.of_nat r < y0 + n)
        then (fun row =>
                Z.lxor row
                  (sprite_mask (byte_at (RAM c) (I c + (Z.of_nat r - y0)))
                     x0)) <$> display_cells c !! r
        else display_cells c !! r.
Proof.
  intros c n Hx Hy Hi. subst c n.
  destruct (wf_state_inv _ Hwf) as [Hc _].
  destruct DRW_coordinates_bytes as [Hxb Hyb].
  pose proof (fourth_nibble_range instruction) as H4.
  pose proof (wf_I _ Hc) as HI.
  pose proof (wf_RAM_length _ Hc) as HR.
  pose proof (wf_display_length _ Hc) as HD.
  change DISPLAY_CELLS_LEN with 32 in HD.
  destruct (draw_sprite_rows (RAM (chip8_context appstate))
              (I (chip8_context appstate)) x0 y0
              (Z.to_nat (GET_FOURTH_NIBBLE instruction)) 0
              (display_cells (chip8_context appstate)))
    as (cells' & Hrun & Hlen & Hlook); try lia.
  exists cells'. rewrite decode_DRW_start. cbv zeta.
  rewrite Hrun. cbn [bind]. split; [reflexivity|]. split; [exact Hlen|].
  intros r. rewrite Hlook.
  destruct (decide (y0 + 0 <= _ < _)); destruct (decide (y0 <= _ < _));
    first [reflexivity | lia].
Qed.

(** Conversely a draw of at least one row is defined only inside the
    display and inside memory. *)
Lemma decode_DRW_Ok_inv out :
  let c := chip8_context appstate in
  let n := GET_FOURTH_NIBBLE instruction in
  decode_instruction instruction appstate = Ok out ->
  n = 0 \/ (x0 + 7 <= 63 /\ y0 + n - 1 <= 31 /\ I c + n <= RAM_SIZE).
Proof.
  intros c n Hrun. subst c n.
  destruct (wf_state_inv _ Hwf) as [Hc _].
  pose proof (fourth_nibble_range instruction) as H4.
  destruct (decide (GET_FOURTH_NIBBLE instruction = 0)) as [|Hn];
    [now left | right].
  rewrite decode_DRW_start in Hrun. cbv zeta in Hrun.
  apply bind_Ok_inv in Hrun as (cells' & Hloop & _).
  assert (Hinv : forall i s1 s2,
             length s1 = length (display_cells (chip8_context appstate)) ->
             draw_sprite_row (RAM (chip8_context appstate))
               (I (chip8_context appstate)) x0 y0 i s1 = Ok s2 ->
             length s2 = length (display_cells (chip8_context appstate))).
  { intros i s1 s2 H1 H2.
    now rewrite (draw_sprite_row_length _ _ _ _ _ _ _ H2). }
  destruct (for_loop_Ok_inv _ _ _ _ _ _ Hinv eq_refl Hloop
              (GET_FOURTH_NIBBLE instruction - 1) ltac:(lia))
    as (s1 & s2 & Hlen & Hrow).
  unfold draw_sprite_row in Hrow.
  apply bind_Ok_inv in Hrow as (v & Hv & Hrow).
  apply bind_Ok_inv in Hrow as (row & Hr & Hrow).
  apply bind_Ok_inv in Hrow as (row' & Hbits & _).
  apply array_get_Ok in Hv as [_ Hv]. apply lookup_lt_Some in Hv.
  apply array_get_Ok in Hr as [_ Hr]. apply lookup_lt_Some in Hr.
  rewrite Hlen in Hr.
  pose proof (wf_RAM_length _ Hc) as HR.
  pose proof (wf_display_length _ Hc) as HD.
  change DISPLAY_CELLS_LEN with 32 in HD.
  destruct (for_loop_Ok_inv _ (fun _ => True) _ _ _ _
              (fun _ _ _ _ _ => Logic.I) Logic.I Hbits 7 ltac:(lia))
    as (r1 & r2 & _ & Hbit).
  unfold draw_sprite_bit in Hbit.
  destruct (decide (0 <= CHIP8_DISPLAY_WIDTH - 1 - (x0 + 7) < 64))
    as [Hs|]; [|discriminate].
  unfold CHIP8_DISPLAY_WIDTH in Hs.
  destruct DRW_coordinates_bytes as [Hxb Hyb].
  pose proof (wf_I _ Hc) as HI. unfold RAM_SIZE in *. lia.
Qed.
End DRW.

(** ** Fetch *)

Lemma lor_shiftl_8 hi lo :
  0 <= lo < 256 -> Z.lor (Z.shiftl hi 8) lo = 256 * hi + lo.
Proof.
  intros Hlo.
  assert (Hland : Z.land (Z.shiftl hi 8) lo = 0).
  { apply Z.bits_inj'. intros k Hk. rewrite Z.land_spec, Z.bits_0.
    destruct (Z.lt_ge_cases k 8) as [Hlt|Hge].
    - now rewrite Z.shiftl_spec_low.
    - rewrite <- (Z.mod_small lo (2 ^ 8)) by (change (2 ^ 8) with 256; lia).
      rewrite Z.mod_pow2_bits_high by lia. apply andb_false_r. }
  rewrite <- Z.lxor_lor, <- Z.add_nocarry_lxor by exact Hland.
  rewrite Z.shiftl_mul_pow2 by lia. change (2 ^ 8) with 256. lia.
Qed.

(** C3: with [PC + 1] inside memory, fetch returns the big-endian word
    [256 * RAM[PC] + RAM[PC + 1]] and a state that differs from the old one
    in the program counter only, which is larger by exactly 2. *)
Theorem fetch_instruction_big_endian appstate :
  wf_state appstate = true ->
  PC (chip8_context appstate) + 1 < RAM_SIZE ->
  let c := chip8_context appstate in
  exists hi lo,
    RAM c !! Z.to_nat (PC c) = Some hi
    /\ RAM c !! Z.to_nat (PC c + 1) = Some lo
    /\ fetch_instruction appstate
       = Ok (256 * hi + lo,
             set_chip8_context (set_PC (PC c + 2) c) appstate).
Proof.
  intros Hwf Hpc c. subst c.
  destruct (wf_state_inv _ Hwf) as [Hc _].
  pose proof (wf_PC _ Hc) as HPC. pose proof (wf_RAM_length _ Hc) as HR.
  destruct (array_get_in_bounds arr_RAM (RAM (chip8_context appstate))
              (PC (chip8_context appstate))) as (hi & Hget_hi & Hhi);
    [lia|].
  destruct (array_get_in_bounds arr_RAM (RAM (chip8_context appstate))
              (PC (chip8_context appstate) + 1)) as (lo & Hget_lo & Hlo);
    [lia|].
  exists hi, lo. split; [exact Hhi|]. split; [exact Hlo|].
  unfold fetch_instruction. rewrite Hget_hi, Hget_lo. cbn [bind].
  pose proof (wf_RAM_byte _ _ _ Hc Hhi) as Hhib.
  pose proof (wf_RAM_byte _ _ _ Hc Hlo) as Hlob.
  rewrite lor_shiftl_8 by exact Hlob.
  rewrite !uint16_small by (unfold RAM_SIZE in *; lia). reflexivity.
Qed.

Lemma fetch_instruction_big_endian_witness :
  fetch_instruction (initial_state [0x12; 0x34] 0)
  = Ok (0x1234,
        set_chip8_context
          (set_PC 0x202 (chip8_context (initial_state [0x12; 0x34] 0)))
          (initial_state [0x12; 0x34] 0)).
Proof.
  destruct (fetch_instruction_big_endian (initial_state [0x12; 0x34] 0))
    as (hi & lo & Hhi & Hlo & Hfetch).
  - vm_compute. reflexivity.
  - vm_compute. reflexivity.
  - vm_compute in Hhi. vm_compute in Hlo.
    injection Hhi as <-. injection Hlo as <-. exact Hfetch.
Defined.

(** ** Reading display cells *)

Lemma land_shiftr_1 w s :
  0 <= s -> Z.land (Z.shiftr w s) 1 = Z.b2z (Z.testbit w s).
Proof.
  intros Hs. change 1 with (Z.ones 1). rewrite Z.land_ones by lia.
  change (2 ^ 1) with 2. rewrite <- Z.bit0_mod, Z.shiftr_spec by lia.
  reflexivity.
Qed.

Lemma get_display_cell_Ok appstate row col w :
  0 <= row -> 0 <= col < 64 ->
  display_cells (chip8_context appstate) !! Z.to_nat row = Some w ->
  get_display_cell appstate row col = Ok (Z.b2z (Z.testbit w (63 - col))).
Proof.
  intros Hrow Hcol Hw. unfold get_display_cell, CHIP8_DISPLAY_WIDTH.
  rewrite (proj2 (array_get_Ok _ _ _ w)) by auto. cbn [bind].
  destruct (decide (0 <= 64 - col - 1 < 64)) as [_|]; [|lia].
  rewrite land_shiftr_1 by lia. do 3 f_equal. lia.
Qed.

(** ** CLS *)

Lemma decode_CLS instruction appstate :
  GET_FIRST_NIBBLE instruction = 0x0 ->
  GET_THIRD_NIBBLE instruction = 0xE ->
  decode_instruction instruction appstate
  = Ok (Clear_the_display, cleared appstate).
Proof.
  intros H1 H3. unfold decode_instruction.
  rewrite uint8_first_nibble, uint8_third_nibble, H1, H3. reflexivity.
Qed.

Lemma cleared_cell appstate row col :
  0 <= row < 32 -> 0 <= col < 64 ->
  get_display_cell (cleared appstate) row col = Ok 0.
Proof.
  intros Hrow Hcol.
  rewrite (get_display_cell_Ok _ _ _ 0) by
    (try lia; cbn; apply lookup_replicate_2;
     change (Z.to_nat DISPLAY_CELLS_LEN) with (Z.to_nat 32); lia).
  now rewrite Z.bits_0.
Qed.

(** C6: opcode 0x00E0 leaves every display row, hence every cell, at 0,
    sets [need_redraw] and leaves the sixteen registers as they were. *)
Theorem CLS_clears_display appstate :
  exists appstate',
    decode_instruction 0x00E0 appstate = Ok (Clear_the_display, appstate')
    /\ display_cells (chip8_context appstate')
       = replicate (Z.to_nat DISPLAY_CELLS_LEN) 0
    /\ (forall row col, 0 <= row < 32 -> 0 <= col < 64 ->
                        get_display_cell appstate' row col = Ok 0)
    /\ need_redraw appstate' = true
    /\ V (chip8_context appstate') = V (chip8_context appstate).
Proof.
  exists (cleared appstate). split; [now apply decode_CLS|].
  split; [reflexivity|]. split; [apply cleared_cell|]. auto.
Qed.

Lemma CLS_clears_display_witness :
  exists appstate',
    decode_instruction 0x00E0 lit_state = Ok (Clear_the_display, appstate')
    /\ get_display_cell appstate' 31 63 = Ok 0
    /\ V (chip8_context appstate') = V (chip8_context lit_state).
Proof.
  destruct (CLS_clears_display lit_state)
    as (appstate' & Hrun & _ & Hcells & _ & HV).
  exists appstate'. split; [exact Hrun|].
  split; [apply Hcells; lia | exact HV].
Defined.

(** C9: every word whose first nibble is 0x0 and whose third nibble is 0xE
    clears the display and sets [need_redraw], whatever its second and
    fourth nibbles are. *)
Theorem CLS_ignores_second_and_fourth_nibble instruction appstate :
  GET_FIRST_NIBBLE instruction = 0x0 ->
  GET_THIRD_NIBBLE instruction = 0xE ->
  exists appstate',
    decode_instruction instruction appstate
    = Ok (Clear_the_display, appstate')
    /\ display_cells (chip8_context appstate')
       = replicate (Z.to_nat DISPLAY_CELLS_LEN) 0
    /\ (forall row col, 0 <= row < 32 -> 0 <= col < 64 ->
                        get_display_cell appstate' row col = Ok 0)
    /\ need_redraw appstate' = true.
Proof.
  intros H1 H3. exists (cleared appstate).
  split; [now apply decode_CLS|].
  split; [reflexivity|]. split; [apply cleared_cell | reflexivity].
Qed.

Lemma CLS_ignores_second_and_fourth_nibble_witness :
  GET_FIRST_NIBBLE 0x00EE = 0x0 /\ GET_THIRD_NIBBLE 0x00EE = 0xE
  /\ exists appstate',
      decode_instruction 0x00EE lit_state
      = Ok (Clear_the_display, appstate')
      /\ get_display_cell appstate' 0 0 = Ok 0
      /\ need_redraw appstate' = true.
Proof.
  split; [reflexivity|]. split; [reflexivity|].
  destruct (CLS_ignores_second_and_fourth_nibble 0x00EE lit_state
              eq_refl eq_refl)
    as (appstate' & Hrun & _ & Hcells & Hredraw).
  exists appstate'. split; [exact Hrun|].
  split; [apply Hcells; lia | exact Hredraw].
Defined.

(** ** Dispatch *)

Lemma nibble_cases z :
  0 <= z < 16 ->
  z = 0 \/ z = 1 \/ z = 2 \/ z = 3 \/ z = 4 \/ z = 5 \/ z = 6 \/ z = 7
  \/ z = 8 \/ z = 9 \/ z = 10 \/ z = 11 \/ z = 12 \/ z = 13 \/ z = 14
  \/ z = 15.
Proof. lia. Qed.

Ltac split_nibble H :=
  destruct H as [H|[H|[H|[H|[H|[H|[H|[H|[H|[H|[H|[H|[H|[H|[H|H]]]]]]]]]]]]]]].

Ltac invert_run H :=
  repeat (let a := fresh "a" in
          let Ha := fresh "Ha" in
          apply bind_Ok_inv in H as (a & Ha & H));
  injection H as <- <-.

Lemma decode_unrecognized instruction appstate :
  recognized instruction = false ->
  decode_instruction instruction appstate = Ok (Not_an_instruction, appstate).
Proof.
  unfold recognized, decode_instruction. intros Hrec.
  rewrite uint8_first_nibble, uint8_third_nibble.
  pose proof (nibble_cases _ (first_nibble_range instruction)) as H1.
  pose proof (nibble_cases _ (third_nibble_range instruction)) as H3.
  split_nibble H1; rewrite H1 in *; cbn in Hrec; try discriminate;
    try reflexivity.
  split_nibble H3; rewrite H3 in *; cbn in Hrec; try discriminate;
    reflexivity.
Qed.

(** No case of [decode_instruction] writes to memory, to the timers or to
    [last_step]. *)
Lemma decode_instruction_frame instruction appstate msg appstate' :
  decode_instruction instruction appstate = Ok (msg, appstate') ->
  RAM (chip8_context appstate') = RAM (chip8_context appstate)
  /\ delay_timer (chip8_context appstate')
     = delay_timer (chip8_context appstate)
  /\ sound_timer (chip8_context appstate')
     = sound_timer (chip8_context appstate)
  /\ last_step appstate' = last_step appstate.
Proof.
  unfold decode_instruction.
  rewrite uint8_first_nibble, uint8_third_nibble.
  pose proof (nibble_cases _ (first_nibble_range instruction)) as H1.
  pose proof (nibble_cases _ (third_nibble_range instruction)) as H3.
  split_nibble H1; rewrite H1; cbv beta iota zeta; intros Hrun;
    try (invert_run Hrun; repeat split; reflexivity).
  split_nibble H3; rewrite H3 in Hrun; cbv beta iota zeta in Hrun;
    invert_run Hrun; repeat split; reflexivity.
Qed.

(** C7: a word outside the recognized categories changes nothing, so after
    fetch and decode the state differs from the one before the fetch in the
    program counter only, which is larger by 2. *)
Theorem unrecognized_instruction_is_skipped instruction appstate appstate1 :
  wf_state appstate = true ->
  PC (chip8_context appstate) + 1 < RAM_SIZE ->
  fetch_instruction appstate = Ok (instruction, appstate1) ->
  recognized instruction = false ->
  decode_instruction instruction appstate1
  = Ok (Not_an_instruction, appstate1)
  /\ appstate1
     = set_chip8_context
         (set_PC (PC (chip8_context appstate) + 2) (chip8_context appstate))
         appstate.
Proof.
  intros Hwf Hpc Hfetch Hrec. split; [now apply decode_unrecognized|].
  unfold fetch_instruction in Hfetch. invert_run Hfetch.
  destruct (wf_state_inv _ Hwf) as [Hc _]. pose proof (wf_PC _ Hc).
  rewrite uint16_small by (unfold RAM_SIZE in *; lia). reflexivity.
Qed.

Lemma unrecognized_instruction_is_skipped_witness :
  decode_instruction 0x8123
    (set_chip8_context
       (set_PC 0x202 (chip8_context (initial_state [0x81; 0x23] 0)))
       (initial_state [0x81; 0x23] 0))
  = Ok (Not_an_instruction,
        set_chip8_context
          (set_PC 0x202 (chip8_context (initial_state [0x81; 0x23] 0)))
          (initial_state [0x81; 0x23] 0)).
Proof.
  refine (proj1 (unrecognized_instruction_is_skipped 0x8123
                   (initial_state [0x81; 0x23] 0) _ _ _ _ _)).
  - vm_compute. reflexivity.
  - vm_compute. reflexivity.
  - vm_compute. reflexivity.
  - vm_compute. reflexivity.
Defined.

(** ** ADD Vx, byte *)

Lemma register_insert_eq appstate c' k v :
  0 <= k < Z.of_nat (length (V (chip8_context appstate))) ->
  V c' = <[Z.to_nat k := v]> (V (chip8_context appstate)) ->
  register (set_chip8_context c' appstate) k = Some v.
Proof.
  intros Hk HV. unfold register. cbn. rewrite HV.
  apply list_lookup_insert_eq. lia.
Qed.

Lemma register_insert_ne appstate c' k j v :
  0 <= k -> 0 <= j -> j <> k ->
  V c' = <[Z.to_nat k := v]> (V (chip8_context appstate)) ->
  register (set_chip8_context c' appstate) j = register appstate j.
Proof.
  intros Hk Hj Hne HV. unfold register. cbn. rewrite HV.
  apply list_lookup_insert_ne. lia.
Qed.

Lemma decode_ADD instruction appstate old :
  wf_state appstate = true ->
  GET_FIRST_NIBBLE instruction = 0x7 ->
  register appstate (GET_SECOND_NIBBLE instruction) = Some old ->
  let c := chip8_context appstate in
  let x := GET_SECOND_NIBBLE instruction in
  let nn := GET_THIRD_AND_FORTH_NIBBLES instruction in
  decode_instruction instruction appstate
  = Ok (Add_value_to_register nn x,
        set_chip8_context
          (set_V (<[Z.to_nat x := (old + nn) mod 256]> (V c)) c) appstate).
Proof.
  intros Hwf Hop Hold c x nn. subst c x nn.
  destruct (wf_state_inv _ Hwf) as [Hc _].
  pose proof (second_nibble_range instruction) as H2.
  unfold decode_instruction.
  rewrite uint8_first_nibble, uint8_second_nibble, uint8_byte_operand, Hop.
  cbv beta iota zeta.
  rewrite (proj2 (array_get_Ok arr_V _ _ old)) by (split; [lia | exact Hold]).
  cbn [bind].
  rewrite array_set_in_bounds by (rewrite (wf_V_length _ Hc); lia).
  reflexivity.
Qed.

(** C5, as amended: ADD Vx, byte sets Vx to (old value + NN) modulo 256 and
    leaves every other register as it was; so VF is untouched, and no carry
    is recorded in it, whenever x is not 0xF. *)
Theorem ADD_wraps_and_keeps_other_registers instruction appstate old :
  wf_state appstate = true ->
  GET_FIRST_NIBBLE instruction = 0x7 ->
  register appstate (GET_SECOND_NIBBLE instruction) = Some old ->
  let x := GET_SECOND_NIBBLE instruction in
  let nn := GET_THIRD_AND_FORTH_NIBBLES instruction in
  exists appstate',
    decode_instruction instruction appstate
    = Ok (Add_value_to_register nn x, appstate')
    /\ register appstate' x = Some ((old + nn) mod 256)
    /\ (forall k, 0 <= k -> k <> x ->
                  register appstate' k = register appstate k)
    /\ (x <> 0xF -> register appstate' 0xF = register appstate 0xF).
Proof.
  intros Hwf Hop Hold x nn.
  destruct (wf_state_inv _ Hwf) as [Hc _].
  pose proof (second_nibble_range instruction) as H2. fold x in H2.
  eexists. split; [exact (decode_ADD _ _ _ Hwf Hop Hold)|].
  split; [|split].
  - eapply register_insert_eq; [|reflexivity].
    rewrite (wf_V_length _ Hc). exact H2.
  - intros k Hk Hne.
    apply (register_insert_ne _ _ x k ((old + nn) mod 256));
      [lia | lia | exact Hne | reflexivity].
  - intros Hne.
    apply (register_insert_ne _ _ x 0xF ((old + nn) mod 256));
      [lia | lia | congruence | reflexivity].
Qed.

Lemma ADD_wraps_and_keeps_other_registers_witness :
  exists appstate',
    decode_instruction 0x7002
      (sprite_state (<[0%nat := 0xFF]> blank_V) 0 [])
    = Ok (Add_value_to_register 2 0, appstate')
    /\ register appstate' 0 = Some 0x01
    /\ register appstate' 0xF = Some 0.
Proof.
  destruct (ADD_wraps_and_keeps_other_registers 0x7002
              (sprite_state (<[0%nat := 0xFF]> blank_V) 0 []) 0xFF)
    as (appstate' & Hrun & HV0 & _ & HVF);
    [vm_compute; reflexivity | reflexivity | reflexivity |].
  exists appstate'. split; [exact Hrun|]. split; [exact HV0|].
  rewrite HVF; [reflexivity | discriminate].
Defined.

(** Counterexample to C5 as stated: when x is 0xF the register that is
    added to is VF itself, so VF changes. *)
Lemma ADD_to_VF_changes_VF :
  exists appstate',
    decode_instruction 0x7F01 (sprite_state blank_V 0 [])
    = Ok (Add_value_to_register 1 0xF, appstate')
    /\ register (sprite_state blank_V 0 []) 0xF = Some 0
    /\ register appstate' 0xF = Some 1.
Proof. eexists. repeat split. Qed.

(** ** DRW: the collision register *)

Lemma drawn_VF cells' appstate :
  wf_state appstate = true -> register (drawn cells' appstate) 0xF = Some 0.
Proof.
  intros Hwf. destruct (wf_state_inv _ Hwf) as [Hc _].
  unfold register, drawn. cbn. apply list_lookup_insert_eq.
  pose proof (wf_V_length _ Hc). lia.
Qed.

(** C8: a DRW inside the display (with its sprite bytes inside memory) is
    defined, and every defined DRW leaves VF at 0, whatever the sprite did
    to the cells it was drawn over. *)
Theorem DRW_leaves_VF_zero instruction appstate x0 y0 :
  wf_state appstate = true ->
  GET_FIRST_NIBBLE instruction = 0xD ->
  register appstate (GET_SECOND_NIBBLE instruction) = Some x0 ->
  register appstate (GET_THIRD_NIBBLE instruction) = Some y0 ->
  let n := GET_FOURTH_NIBBLE instruction in
  (x0 + 7 <= 63 -> y0 + n - 1 <= 31 ->
   I (chip8_context appstate) + n <= RAM_SIZE ->
   exists msg appstate',
     decode_instruction instruction appstate = Ok (msg, appstate'))
  /\ (forall msg appstate',
        decode_instruction instruction appstate = Ok (msg, appstate') ->
        register appstate' 0xF = Some 0).
Proof.
  intros Hwf Hop Hx0 Hy0 n. split.
  - intros Hx Hy Hi.
    destruct (decode_DRW_in_bounds _ _ _ _ Hwf Hop Hx0 Hy0 Hx Hy Hi)
      as (cells' & Hrun & _).
    eauto.
  - intros msg appstate' Hrun.
    rewrite (decode_DRW_start _ _ _ _ Hwf Hop Hx0 Hy0) in Hrun.
    cbv zeta in Hrun. invert_run Hrun. now apply drawn_VF.
Qed.

Lemma DRW_leaves_VF_zero_witness :
  register (lit_sprite_state 0 0 0x300 [0xFF]) 0xF = Some 1
  /\ get_display_cell (lit_sprite_state 0 0 0x300 [0xFF]) 0 0 = Ok 1
  /\ exists msg appstate',
      decode_instruction 0xD011 (lit_sprite_state 0 0 0x300 [0xFF])
      = Ok (msg, appstate')
      /\ get_display_cell appstate' 0 0 = Ok 0
      /\ register appstate' 0xF = Some 0.
Proof.
  split; [reflexivity|]. split; [vm_compute; reflexivity|].
  destruct (DRW_leaves_VF_zero 0xD011 (lit_sprite_state 0 0 0x300 [0xFF])
              0 0) as [Hdef HVF];
    [vm_compute; reflexivity | reflexivity | reflexivity | reflexivity |].
  destruct Hdef as (msg & appstate' & Hrun);
    [vm_compute; discriminate | vm_compute; discriminate
     | vm_compute; discriminate |].
  exists msg, appstate'. split; [exact Hrun|].
  split; [|exact (HVF _ _ Hrun)].
  assert (Hrun' := Hrun). vm_compute in Hrun'.
  injection Hrun' as _ <-. vm_compute. reflexivity.
Defined.

(** ** DRW: which cells change *)

Lemma lxor_b2z a b : Z.lxor (Z.b2z a) (Z.b2z b) = Z.b2z (xorb a b).
Proof. now destruct a, b. Qed.

Lemma sprite_bit_testbit ram i_reg y x :
  0 <= x <= 7 ->
  sprite_bit ram i_reg y x
  = Z.b2z (Z.testbit (byte_at ram (i_reg + y)) (7 - x)).
Proof. intros Hx. unfold sprite_bit. apply land_shiftr_1. lia. Qed.

Section DRW_cells.
Variables (instruction : Z) (appstate : AppState) (x0 y0 : Z).
Hypothesis Hwf : wf_state appstate = true.
Hypothesis Hop : GET_FIRST_NIBBLE instruction = 0xD.
Hypothesis Hx0 : register appstate (GET_SECOND_NIBBLE instruction) = Some x0.
Hypothesis Hy0 : register appstate (GET_THIRD_NIBBLE instruction) = Some y0.
Hypothesis Hx : x0 + 7 <= 63.

Lemma drawn_cell cells' row col :
  let c := chip8_context appstate in
  let n := GET_FOURTH_NIBBLE instruction in
  (forall r : nat,
      cells' !! r =
      if decide (y0 <= Z.of_nat r < y0 + n)
      then (fun w =>
              Z.lxor w
                (sprite_mask (byte_at (RAM c) (I c + (Z.of_nat r - y0)))
                   x0)) <$> display_cells c !! r
      else display_cells c !! r) ->
  0 <= row < 32 -> 0 <= col < 64 ->
  exists old,
    get_display_cell appstate row col = Ok old
    /\ get_display_cell (drawn cells' appstate) row col
       = Ok (if decide (y0 <= row < y0 + n /\ x0 <= col < x0 + 8)
             then Z.lxor old (sprite_bit (RAM c) (I c) (row - y0) (col - x0))
             else old).
Proof.
  intros c n Hlook Hrow Hcol. subst c n.
  destruct (wf_state_inv _ Hwf) as [Hc _].
  destruct (DRW_coordinates_bytes _ _ _ _ Hwf Hx0 Hy0) as [Hxb Hyb].
  pose proof (wf_display_length _ Hc) as HD.
  change DISPLAY_CELLS_LEN with 32 in HD.
  destruct (lookup_lt_is_Some_2 (display_cells (chip8_context appstate))
              (Z.to_nat row)) as [w Hw]; [lia|].
  exists (Z.b2z (Z.testbit w (63 - col))).
  split; [apply get_display_cell_Ok; [lia | lia | exact Hw]|].
  specialize (Hlook (Z.to_nat row)). rewrite Hw in Hlook.
  rewrite Z2Nat.id in Hlook by lia.
  destruct (decide (y0 <= row < y0 + GET_FOURTH_NIBBLE instruction))
    as [Hin|Hout].
  - cbn in Hlook.
    rewrite (get_display_cell_Ok (drawn cells' appstate) row col _
               (proj1 Hrow) Hcol Hlook).
    rewrite Z.lxor_spec, testbit_sprite_mask by lia.
    destruct (decide (_ /\ x0 <= col < x0 + 8)) as [[_ Hc8]|Hnc].
    + rewrite sprite_bit_testbit, lxor_b2z by lia.
      replace (56 - x0 <=? 63 - col) with true
        by (symmetry; apply Z.leb_le; lia).
      replace (63 - col <=? 63 - x0) with true
        by (symmetry; apply Z.leb_le; lia).
      cbn [andb].
      replace (63 - col - (56 - x0)) with (7 - (col - x0)) by lia.
      reflexivity.
    + assert (Hb : (56 - x0 <=? 63 - col) && (63 - col <=? 63 - x0) = false).
      { apply andb_false_iff. rewrite !Z.leb_gt. lia. }
      rewrite Hb. cbn [andb]. now rewrite xorb_false_r.
  - rewrite (get_display_cell_Ok (drawn cells' appstate) row col _
               (proj1 Hrow) Hcol Hlook).
    destruct (decide (_ /\ x0 <= col < x0 + 8)) as [[Hin _]|_];
      [contradiction | reflexivity].
Qed.
End DRW_cells.

(** C1, as amended: the draw takes no coordinate modulo the display size.
    When the sprite lies inside the display ([x0 + 7 <= 63] and
    [y0 + n - 1 <= 31]) and inside memory, DRW is defined and XORs sprite
    bit [7 - x] of sprite row [y] into column [x0 + x] of row [y0 + y],
    leaving every other cell alone, so every row and bit position it
    touches is in range; a draw of at least one row that is defined lies
    inside the display and inside memory. *)
Theorem DRW_draws_inside_display_only instruction appstate x0 y0 :
  wf_state appstate = true ->
  GET_FIRST_NIBBLE instruction = 0xD ->
  register appstate (GET_SECOND_NIBBLE instruction) = Some x0 ->
  register appstate (GET_THIRD_NIBBLE instruction) = Some y0 ->
  let c := chip8_context appstate in
  let n := GET_FOURTH_NIBBLE instruction in
  (x0 + 7 <= 63 -> y0 + n - 1 <= 31 -> I c + n <= RAM_SIZE ->
   exists appstate',
     decode_instruction instruction appstate
     = Ok (Display_sprite n (GET_SECOND_NIBBLE instruction)
             (GET_THIRD_NIBBLE instruction), appstate')
     /\ forall row col,
         0 <= row < 32 -> 0 <= col < 64 ->
         exists old,
           get_display_cell appstate row col = Ok old
           /\ get_display_cell appstate' row col
              = Ok (if decide (y0 <= row < y0 + n /\ x0 <= col < x0 + 8)
                    then Z.lxor old
                           (sprite_bit (RAM c) (I c) (row - y0) (col - x0))
                    else old))
  /\ (forall out,
        decode_instruction instruction appstate = Ok out ->
        n = 0 \/ (x0 + 7 <= 63 /\ y0 + n - 1 <= 31 /\ I c + n <= RAM_SIZE)).
Proof.
  intros Hwf Hop Hx0 Hy0 c n. split.
  - intros Hx Hy Hi.
    destruct (decode_DRW_in_bounds _ _ _ _ Hwf Hop Hx0 Hy0 Hx Hy Hi)
      as (cells' & Hrun & _ & Hlook).
    exists (drawn cells' appstate). split; [exact Hrun|].
    intros row col. now apply drawn_cell.
  - intros out. now apply decode_DRW_Ok_inv.
Qed.

Lemma DRW_draws_inside_display_only_witness :
  exists appstate',
    decode_instruction 0xD011
      (sprite_state (<[0%nat := 56]> (<[1%nat := 31]> blank_V)) 0x300 [0xFF])
    = Ok (Display_sprite 1 0 1, appstate')
    /\ get_display_cell appstate' 31 55 = Ok 0
    /\ get_display_cell appstate' 31 56 = Ok 1
    /\ get_display_cell appstate' 31 63 = Ok 1
    /\ get_display_cell appstate' 31 0 = Ok 0.
Proof.
  destruct (DRW_draws_inside_display_only 0xD011
              (sprite_state (<[0%nat := 56]> (<[1%nat := 31]> blank_V))
                 0x300 [0xFF]) 56 31) as [Hdef _];
    [vm_compute; reflexivity | reflexivity | reflexivity | reflexivity |].
  destruct Hdef as (appstate' & Hrun & Hcells);
    [vm_compute; discriminate | vm_compute; discriminate
     | vm_compute; discriminate |].
  exists appstate'. split; [exact Hrun|].
  repeat split.
  - destruct (Hcells 31 55) as (old & Hold & ->); [lia | lia |].
    vm_compute in Hold. injection Hold as <-. vm_compute. reflexivity.
  - destruct (Hcells 31 56) as (old & Hold & ->); [lia | lia |].
    vm_compute in Hold. injection Hold as <-. vm_compute. reflexivity.
  - destruct (Hcells 31 63) as (old & Hold & ->); [lia | lia |].
    vm_compute in Hold. injection Hold as <-. vm_compute. reflexivity.
  - destruct (Hcells 31 0) as (old & Hold & ->); [lia | lia |].
    vm_compute in Hold. injection Hold as <-. vm_compute. reflexivity.
Defined.

(** Counterexample to C1 as stated: with x0 = 60 and sprite byte 0xFF the
    fifth bit of the sprite row asks for a shift by -1, which C leaves
    undefined, so no wrapped columns 0 to 3 are drawn; and a two-row sprite
    at y0 = 31 indexes row 32 of the 32-row display. *)
Lemma DRW_past_the_edge_is_undefined :
  decode_instruction 0xD011
    (sprite_state (<[0%nat := 60]> blank_V) 0x300 [0xFF])
  = Undefined (shift_out_of_range (-1))
  /\ decode_instruction 0xD012
       (sprite_state (<[1%nat := 31]> blank_V) 0x300 [0xFF; 0xFF])
     = Undefined (index_out_of_bounds arr_display_cells 32).
Proof. split; vm_compute; reflexivity. Qed.

(** ** DRW twice *)

Lemma lxor_uint64 a b :
  0 <= a < 2 ^ 64 -> 0 <= b < 2 ^ 64 -> 0 <= Z.lxor a b < 2 ^ 64.
Proof.
  intros Ha Hb.
  assert (Hnn : 0 <= Z.lxor a b) by (apply Z.lxor_nonneg; lia).
  split; [exact Hnn|].
  destruct (Z.eq_dec (Z.lxor a b) 0) as [->|Hne]; [reflexivity|].
  apply Z.log2_lt_pow2; [lia|].
  pose proof (Z.log2_lxor a b ltac:(lia) ltac:(lia)) as Hlog.
  assert (Hla : Z.log2 a < 64).
  { destruct (Z.eq_dec a 0) as [->|]; [reflexivity|].
    apply Z.log2_lt_pow2; lia. }
  assert (Hlb : Z.log2 b < 64).
  { destruct (Z.eq_dec b 0) as [->|]; [reflexivity|].
    apply Z.log2_lt_pow2; lia. }
  lia.
Qed.

Lemma forallb_of_lookup {A} (f : A -> bool) (l : list A) :
  (forall k x, l !! k = Some x -> f x = true) -> forallb f l = true.
Proof.
  induction l as [|y l IH]; intros H; [reflexivity|].
  cbn. apply andb_true_iff. split.
  - apply (H 0%nat). reflexivity.
  - apply IH. intros k x Hk. apply (H (S k)). exact Hk.
Qed.

Lemma lxor_involutive w m : Z.lxor (Z.lxor w m) m = w.
Proof. now rewrite Z.lxor_assoc, Z.lxor_nilpotent, Z.lxor_0_r. Qed.

Section DRW_twice.
Variables (instruction : Z) (appstate : AppState) (x0 y0 : Z).
Hypothesis Hwf : wf_state appstate = true.
Hypothesis Hx0 : register appstate (GET_SECOND_NIBBLE instruction) = Some x0.
Hypothesis Hy0 : register appstate (GET_THIRD_NIBBLE instruction) = Some y0.
Hypothesis Hx : x0 + 7 <= 63.

Lemma drawn_wf cells' :
  let c := chip8_context appstate in
  length cells' = length (display_cells c) ->
  (forall r : nat,
      cells' !! r =
      if decide (y0 <= Z.of_nat r < y0 + GET_FOURTH_NIBBLE instruction)
      then (fun w =>
              Z.lxor w
                (sprite_mask (byte_at (RAM c) (I c + (Z.of_nat r - y0)))
                   x0)) <$> display_cells c !! r
      else display_cells c !! r) ->
  wf_state (drawn cells' appstate) = true.
Proof.
  intros c Hlen Hlook. subst c.
  destruct (DRW_coordinates_bytes _ _ _ _ Hwf Hx0 Hy0) as [Hxb Hyb].
  destruct (wf_state_inv _ Hwf) as [Hc _].
  assert (Hcells : forallb is_uint64 cells' = true).
  { apply forallb_of_lookup. intros k w Hk. rewrite Hlook in Hk.
    apply is_uint64_spec.
    destruct (decide _).
    - apply fmap_Some in Hk as (w0 & Hw0 & ->).
      apply lxor_uint64; [eapply wf_display_word; eauto|].
      apply sprite_mask_range. lia.
    - eapply wf_display_word; eauto. }
  assert (HV : forallb is_uint8 (<[15%nat := 0]>
                                   (V (chip8_context appstate))) = true).
  { apply forallb_insert; [apply (wf_V_bytes _ Hc) | reflexivity]. }
  revert Hwf. unfold wf_state, wf_context, drawn. cbn.
  rewrite length_insert, Hlen, Hcells, HV.
  rewrite !andb_true_iff. tauto.
Qed.

Lemma drawn_register cells' k :
  0 <= k -> (k = 0xF -> register appstate k = Some 0) ->
  register (drawn cells' appstate) k = register appstate k.
Proof.
  intros Hk HF. unfold register, drawn. cbn.
  destruct (decide (k = 0xF)) as [->|Hne].
  - destruct (wf_state_inv _ Hwf) as [Hc _].
    pose proof (wf_V_length _ Hc).
    specialize (HF eq_refl). unfold register in HF. rewrite HF.
    apply list_lookup_insert_eq. lia.
  - apply list_lookup_insert_ne. lia.
Qed.
End DRW_twice.

(** C2, as amended: a DRW inside the display, with its sprite bytes inside
    memory, executed twice in a row restores every display row, provided
    the second execution reads the same coordinates as the first, that is,
    provided a coordinate register that is VF already holds 0 (the first
    execution zeroes VF). *)
Theorem DRW_twice_restores_display instruction appstate x0 y0 :
  wf_state appstate = true ->
  GET_FIRST_NIBBLE instruction = 0xD ->
  register appstate (GET_SECOND_NIBBLE instruction) = Some x0 ->
  register appstate (GET_THIRD_NIBBLE instruction) = Some y0 ->
  let n := GET_FOURTH_NIBBLE instruction in
  x0 + 7 <= 63 -> y0 + n - 1 <= 31 ->
  I (chip8_context appstate) + n <= RAM_SIZE ->
  (GET_SECOND_NIBBLE instruction = 0xF -> x0 = 0) ->
  (GET_THIRD_NIBBLE instruction = 0xF -> y0 = 0) ->
  exists msg1 appstate1 msg2 appstate2,
    decode_instruction instruction appstate = Ok (msg1, appstate1)
    /\ decode_instruction instruction appstate1 = Ok (msg2, appstate2)
    /\ display_cells (chip8_context appstate2)
       = display_cells (chip8_context appstate).
Proof.
  intros Hwf Hop Hx0 Hy0 n Hx Hy Hi HxF HyF. subst n.
  pose proof (second_nibble_range instruction) as H2.
  pose proof (third_nibble_range instruction) as H3.
  destruct (decode_DRW_in_bounds _ _ _ _ Hwf Hop Hx0 Hy0 Hx Hy Hi)
    as (cells1 & Hrun1 & Hlen1 & Hlook1).
  pose proof (drawn_wf _ _ _ _ Hwf Hx0 Hy0 Hx cells1 Hlen1 Hlook1) as Hwf1.
  assert (Hx1 : register (drawn cells1 appstate)
                  (GET_SECOND_NIBBLE instruction) = Some x0).
  { rewrite drawn_register; [exact Hx0 | exact Hwf | lia |].
    intros HF. rewrite Hx0. f_equal. auto. }
  assert (Hy1 : register (drawn cells1 appstate)
                  (GET_THIRD_NIBBLE instruction) = Some y0).
  { rewrite drawn_register; [exact Hy0 | exact Hwf | lia |].
    intros HF. rewrite Hy0. f_equal. auto. }
  destruct (decode_DRW_in_bounds _ _ _ _ Hwf1 Hop Hx1 Hy1 Hx Hy Hi)
    as (cells2 & Hrun2 & Hlen2 & Hlook2).
  eexists _, _, _, _. split; [exact Hrun1|]. split; [exact Hrun2|].
  cbn. apply list_eq. intros r. rewrite Hlook2. cbn. rewrite Hlook1.
  destruct (decide _); [|reflexivity].
  destruct (display_cells (chip8_context appstate) !! r) as [w|];
    [|reflexivity].
  cbn. f_equal. apply lxor_involutive.
Qed.

Lemma DRW_twice_restores_display_witness :
  exists msg1 appstate1 msg2 appstate2,
    decode_instruction 0xD012 (lit_sprite_state 56 30 0x300 [0xA5; 0x3C])
    = Ok (msg1, appstate1)
    /\ decode_instruction 0xD012 appstate1 = Ok (msg2, appstate2)
    /\ display_cells (chip8_context appstate1) <> lit_display
    /\ display_cells (chip8_context appstate2) = lit_display.
Proof.
  destruct (DRW_twice_restores_display 0xD012
              (lit_sprite_state 56 30 0x300 [0xA5; 0x3C]) 56 30)
    as (msg1 & appstate1 & msg2 & appstate2 & Hrun1 & Hrun2 & Hsame);
    [vm_compute; reflexivity | reflexivity | reflexivity | reflexivity
     | vm_compute; discriminate | vm_compute; discriminate
     | vm_compute; discriminate | discriminate | discriminate |].
  exists msg1, appstate1, msg2, appstate2.
  split; [exact Hrun1|]. split; [exact Hrun2|]. split; [|exact Hsame].
  assert (Hrun1' := Hrun1). vm_compute in Hrun1'.
  injection Hrun1' as _ <-. vm_compute. discriminate.
Defined.

(** Counterexample to C2 as stated: when a coordinate is read from VF the
    first draw zeroes VF, so the second one lands elsewhere and the display
    is not restored.  Here VF holds 8, inside the display, and DRW VF, V0, 1
    runs twice on a blank display. *)
Lemma DRW_twice_through_VF_does_not_restore :
  let appstate :=
    sprite_state (<[15%nat := 8]> blank_V) 0x300 [0xFF] in
  wf_state appstate = true
  /\ register appstate (GET_SECOND_NIBBLE 0xDF01) = Some 8
  /\ register appstate (GET_THIRD_NIBBLE 0xDF01) = Some 0
  /\ 8 + 7 <= 63 /\ 0 + GET_FOURTH_NIBBLE 0xDF01 - 1 <= 31
  /\ exists msg1 appstate1 msg2 appstate2,
      decode_instruction 0xDF01 appstate = Ok (msg1, appstate1)
      /\ decode_instruction 0xDF01 appstate1 = Ok (msg2, appstate2)
      /\ get_display_cell appstate 0 0 = Ok 0
      /\ get_display_cell appstate2 0 0 = Ok 1
      /\ display_cells (chip8_context appstate2)
         <> display_cells (chip8_context appstate).
Proof.
  cbv zeta. split; [vm_compute; reflexivity|].
  split; [reflexivity|]. split; [reflexivity|].
  split; [vm_compute; discriminate|]. split; [vm_compute; discriminate|].
  eexists _, _, _, _. split; [vm_compute; reflexivity|].
  split; [vm_compute; reflexivity|].
  split; [vm_compute; reflexivity|].
  split; [vm_compute; reflexivity|].
  vm_compute. discriminate.
Qed.

(** ** Pacing loop *)

Lemma cycles_app evs1 evs2 :
  cycles (evs1 ++ evs2) = (cycles evs1 + cycles evs2)%nat.
Proof.
  induction evs1 as [|[instruction msg|frame] evs1 IH]; cbn; auto.
Qed.

Lemma fetch_instruction_last_step appstate instruction appstate' :
  fetch_instruction appstate = Ok (instruction, appstate') ->
  last_step appstate' = last_step appstate.
Proof. unfold fetch_instruction. intros H. invert_run H. reflexivity. Qed.

(** One run of the loop body reports one cycle and moves [last_step] on by
    one step interval. *)
Lemma SDL_AppIterate_body_last_step appstate evs appstate' :
  SDL_AppIterate_body appstate = Ok (evs, appstate') ->
  cycles evs = 1%nat
  /\ last_step appstate'
     = uint64 (last_step appstate + STEP_RATE_IN_MILLISECONDS).
Proof.
  unfold SDL_AppIterate_body. intros H.
  apply bind_Ok_inv in H as ([instruction as0] & Hfetch & H).
  apply bind_Ok_inv in H as ([msg as1] & Hdecode & H).
  apply fetch_instruction_last_step in Hfetch.
  apply decode_instruction_frame in Hdecode as (_ & _ & _ & Hdecode).
  cbn [fst snd] in *.
  apply bind_Ok_inv in H as ([evs' as2] & Hredraw & H).
  injection H as <- <-. cbn [fst snd].
  destruct (need_redraw as1).
  - apply bind_Ok_inv in Hredraw as (frame & _ & Hredraw).
    injection Hredraw as <- <-. cbn. split; [reflexivity | congruence].
  - injection Hredraw as <- <-. cbn. split; [reflexivity | congruence].
Qed.

Lemma run_steps_last_step k : forall appstate evs appstate',
  0 <= last_step appstate ->
  last_step appstate + STEP_RATE_IN_MILLISECONDS * Z.of_nat k < 2 ^ 64 ->
  run_steps k appstate = Ok (evs, appstate') ->
  cycles evs = k
  /\ last_step appstate'
     = last_step appstate + STEP_RATE_IN_MILLISECONDS * Z.of_nat k.
Proof.
  unfold STEP_RATE_IN_MILLISECONDS.
  induction k as [|k IH]; intros appstate evs appstate' H0 Hmax Hrun.
  - injection Hrun as <- <-. split; [reflexivity | lia].
  - cbn [run_steps] in Hrun.
    apply bind_Ok_inv in Hrun as ([evs1 as1] & Hbody & Hrun).
    apply bind_Ok_inv in Hrun as ([evs2 as2] & Hrest & Hrun).
    injection Hrun as <- <-. cbn [fst snd] in *.
    apply SDL_AppIterate_body_last_step in Hbody as [Hc1 Hl1].
    unfold STEP_RATE_IN_MILLISECONDS in Hl1.
    rewrite uint64_small in Hl1 by lia.
    apply IH in Hrest as [Hc2 Hl2]; [|lia|lia].
    rewrite cycles_app, Hc1, Hc2, Hl2, Hl1. split; [reflexivity | lia].
Qed.

(** The loop runs its body as long as a whole step interval is owed. *)
Lemma SDL_AppIterate_run_steps k : forall fuel now appstate,
  0 <= last_step appstate ->
  last_step appstate + STEP_RATE_IN_MILLISECONDS * Z.of_nat k <= now ->
  now < last_step appstate + STEP_RATE_IN_MILLISECONDS * (Z.of_nat k + 1) ->
  now < 2 ^ 64 ->
  (k < fuel)%nat ->
  SDL_AppIterate fuel now appstate = Some (run_steps k appstate).
Proof.
  unfold STEP_RATE_IN_MILLISECONDS.
  induction k as [|k IH]; intros fuel now appstate H0 Hlo Hhi Hmax Hfuel;
    (destruct fuel as [|fuel]; [lia|]); cbn [SDL_AppIterate run_steps];
    unfold STEP_RATE_IN_MILLISECONDS;
    rewrite (uint64_small (now - last_step appstate)) by lia.
  - destruct (decide (100 <= now - last_step appstate)); [lia | reflexivity].
  - destruct (decide (100 <= now - last_step appstate)); [|lia].
    destruct (SDL_AppIterate_body appstate) as [[evs as1]|f] eqn:Hbody;
      [|reflexivity].
    apply SDL_AppIterate_body_last_step in Hbody as [_ Hl1].
    unfold STEP_RATE_IN_MILLISECONDS in Hl1.
    rewrite uint64_small in Hl1 by lia.
    cbn [bind fst snd]. rewrite (IH fuel now as1) by lia.
    destruct (run_steps k as1) as [[evs' as2]|f]; reflexivity.
Qed.

(** After a step that is defined the display still has its 32 rows. *)
Lemma decode_instruction_display_length instruction appstate msg appstate' :
  decode_instruction instruction appstate = Ok (msg, appstate') ->
  Z.of_nat (length (display_cells (chip8_context appstate)))
  = DISPLAY_CELLS_LEN ->
  Z.of_nat (length (display_cells (chip8_context appstate')))
  = DISPLAY_CELLS_LEN.
Proof.
  intros Hrun Hlen. revert Hrun. unfold decode_instruction.
  rewrite uint8_first_nibble, uint8_third_nibble.
  pose proof (nibble_cases _ (first_nibble_range instruction)) as H1.
  pose proof (nibble_cases _ (third_nibble_range instruction)) as H3.
  split_nibble H1; rewrite H1; cbv beta iota zeta; intros Hrun.
  1: split_nibble H3; rewrite H3 in Hrun; cbv beta iota zeta in Hrun.
  all: try (invert_run Hrun; first [exact Hlen | reflexivity]).
  apply bind_Ok_inv in Hrun as (vx & _ & Hrun).
  apply bind_Ok_inv in Hrun as (vy & _ & Hrun).
  apply bind_Ok_inv in Hrun as (v & _ & Hrun).
  apply bind_Ok_inv in Hrun as (cells & Hloop & Hrun).
  injection Hrun as <- <-. cbn.
  apply (for_loop_invariant _
           (fun s => Z.of_nat (length s) = DISPLAY_CELLS_LEN)) in Hloop;
    [exact Hloop | | exact Hlen].
  intros i s1 s2 Hs1 Hrow.
  now rewrite (draw_sprite_row_length _ _ _ _ _ _ _ Hrow).
Qed.

(** Presenting a display of 32 rows never faults: every cell read is
    inside the array and every shift amount is between 0 and 63. *)
Lemma draw_screen_defined appstate :
  Z.of_nat (length (display_cells (chip8_context appstate)))
  = DISPLAY_CELLS_LEN ->
  exists frame, draw_screen appstate = Ok frame.
Proof.
  intros Hlen. change DISPLAY_CELLS_LEN with 32 in Hlen. unfold draw_screen.
  destruct (for_loop_defined
              (fun j rects =>
                 for_loop
                   (fun i rects' =>
                      do display_cell <- get_display_cell appstate j i;
                      Ok (rects' ++ [mkFillRect i j display_cell]))
                   (Z.to_nat CHIP8_DISPLAY_WIDTH) 0 rects)
              (fun _ => True) (Z.to_nat CHIP8_DISPLAY_HEIGHT) 0 [])
    as (frame & Hframe & _); [|exact Logic.I|eauto].
  intros j rects Hj _.
  apply (for_loop_defined _ (fun _ => True)); [|exact Logic.I].
  intros i rects' Hi _.
  unfold CHIP8_DISPLAY_HEIGHT in Hj. unfold CHIP8_DISPLAY_WIDTH in Hi.
  destruct (lookup_lt_is_Some_2 (display_cells (chip8_context appstate))
              (Z.to_nat j)) as [w Hw]; [lia|].
  rewrite (get_display_cell_Ok _ _ _ w) by (auto; lia).
  cbn [bind]. eauto.
Qed.

(** So one run of the loop body is defined as soon as its fetch and its
    decode are. *)
Lemma SDL_AppIterate_body_defined appstate instruction as0 msg as1 :
  Z.of_nat (length (display_cells (chip8_context appstate)))
  = DISPLAY_CELLS_LEN ->
  fetch_instruction appstate = Ok (instruction, as0) ->
  decode_instruction instruction as0 = Ok (msg, as1) ->
  exists evs appstate', SDL_AppIterate_body appstate = Ok (evs, appstate').
Proof.
  intros Hlen Hfetch Hdecode. unfold SDL_AppIterate_body.
  rewrite Hfetch. cbn [bind fst snd]. rewrite Hdecode. cbn [bind fst snd].
  destruct (need_redraw as1); [|cbn [bind]; eauto].
  destruct (draw_screen_defined as1) as (frame & ->); [|cbn [bind]; eauto].
  apply (decode_instruction_display_length _ _ _ _ Hdecode).
  unfold fetch_instruction in Hfetch. invert_run Hfetch. exact Hlen.
Qed.

(** C4: with [last_step <= now] the loop runs exactly
    [floor ((now - last_step) / 100)] fetch + decode + execute cycles and
    moves [last_step] on by 100 ms for each of them, so what is left of the
    elapsed time, less than one interval, stays owed. *)
Theorem SDL_AppIterate_steps fuel now appstate :
  0 <= last_step appstate <= now -> now < 2 ^ 64 ->
  let k :=
    Z.to_nat ((now - last_step appstate) / STEP_RATE_IN_MILLISECONDS) in
  (k < fuel)%nat ->
  SDL_AppIterate fuel now appstate = Some (run_steps k appstate)
  /\ forall evs appstate',
      run_steps k appstate = Ok (evs, appstate') ->
      cycles evs = k
      /\ last_step appstate'
         = last_step appstate + STEP_RATE_IN_MILLISECONDS * Z.of_nat k
      /\ now - last_step appstate'
         = (now - last_step appstate) mod STEP_RATE_IN_MILLISECONDS.
Proof.
  intros Hls Hnow k Hfuel. unfold STEP_RATE_IN_MILLISECONDS in *.
  assert (Hk : Z.of_nat k = (now - last_step appstate) / 100)
    by (subst k; apply Z2Nat.id, Z.div_pos; lia).
  clearbody k.
  pose proof (Z.mod_pos_bound (now - last_step appstate) 100 ltac:(lia)).
  pose proof (Z.div_mod (now - last_step appstate) 100 ltac:(lia)).
  split.
  - apply SDL_AppIterate_run_steps;
      unfold STEP_RATE_IN_MILLISECONDS; lia.
  - intros evs appstate' Hrun.
    apply run_steps_last_step in Hrun as [Hc Hl];
      unfold STEP_RATE_IN_MILLISECONDS in *; [|lia|lia].
    split; [exact Hc|]. split; [exact Hl | lia].
Qed.

Lemma SDL_AppIterate_steps_witness :
  exists evs appstate',
    SDL_AppIterate 3 1250 (initial_state [0x00; 0xE0; 0x7A; 0x05] 1000)
    = Some (Ok (evs, appstate'))
    /\ cycles evs = 2%nat
    /\ last_step appstate' = 1200
    /\ 1250 - last_step appstate' = 50.
Proof.
  destruct (SDL_AppIterate_steps 3 1250
              (initial_state [0x00; 0xE0; 0x7A; 0x05] 1000))
    as [Hloop Hsteps];
    [vm_compute; split; discriminate | reflexivity | vm_compute; lia |].
  change (Z.to_nat ((1250 - last_step (initial_state [0; 224; 122; 5] 1000))
                    / STEP_RATE_IN_MILLISECONDS)) with 2%nat in *.
  assert (Hrun : exists evs appstate',
             run_steps 2 (initial_state [0; 224; 122; 5] 1000)
             = Ok (evs, appstate'))
    by (vm_compute; eexists _, _; reflexivity).
  destruct Hrun as (evs & appstate' & Hrun). rewrite Hrun in Hloop.
  exists evs, appstate'. split; [exact Hloop|].
  destruct (Hsteps _ _ Hrun) as (Hc & Hl & Hd).
  split; [exact Hc|]. split; [exact Hl | exact Hd].
Defined.

(** ** Memory is read-only for decode and execute *)

Lemma decode_instruction_defined instruction appstate :
  wf_state appstate = true ->
  GET_FIRST_NIBBLE instruction <> 0xD ->
  exists msg appstate',
    decode_instruction instruction appstate = Ok (msg, appstate').
Proof.
  intros Hwf Hop. destruct (wf_state_inv _ Hwf) as [Hc _].
  pose proof (wf_V_length _ Hc) as HV.
  pose proof (second_nibble_range instruction) as H2.
  unfold decode_instruction.
  rewrite uint8_first_nibble, uint8_second_nibble, uint8_third_nibble.
  pose proof (nibble_cases _ (first_nibble_range instruction)) as H1.
  pose proof (nibble_cases _ (third_nibble_range instruction)) as H3.
  split_nibble H1; rewrite H1 in *; cbv beta iota zeta; try congruence;
    try (eexists _, _; reflexivity).
  - split_nibble H3; rewrite H3; cbv beta iota zeta; eexists _, _;
      reflexivity.
  - rewrite array_set_in_bounds by lia. cbn [bind]. eauto.
  - destruct (array_get_in_bounds arr_V (V (chip8_context appstate))
                (GET_SECOND_NIBBLE instruction)) as (old & -> & _); [lia|].
    cbn [bind]. rewrite array_set_in_bounds by lia. cbn [bind]. eauto.
Qed.

Lemma array_get_ext a arr arr' i :
  arr' !! Z.to_nat i = arr !! Z.to_nat i ->
  array_get a arr' i = array_get a arr i.
Proof. intros H. unfold array_get. now rewrite H. Qed.

Lemma draw_sprite_rows_ext ram ram' i_reg x_coord y_coord count :
  forall start cells,
    (forall y, start <= y < start + Z.of_nat count ->
               ram' !! Z.to_nat (i_reg + y) = ram !! Z.to_nat (i_reg + y)) ->
    for_loop (draw_sprite_row ram' i_reg x_coord y_coord) count start cells
    = for_loop (draw_sprite_row ram i_reg x_coord y_coord) count start cells.
Proof.
  induction count as [|k IH]; intros start cells Hsame; [reflexivity|].
  rewrite !for_loop_S. unfold draw_sprite_row at 1 3.
  rewrite (array_get_ext arr_RAM ram ram') by (apply Hsame; lia).
  destruct (array_get arr_RAM ram (i_reg + start)) as [v|f]; [|reflexivity].
  cbn [bind].
  destruct (array_get arr_display_cells cells (y_coord + start)) as [row|f];
    [|reflexivity].
  cbn [bind].
  destruct (for_loop (draw_sprite_bit v x_coord) 8 0 row) as [row'|f];
    [|reflexivity].
  cbn [bind].
  destruct (array_set arr_display_cells cells (y_coord + start) row')
    as [cells1|f]; [|reflexivity].
  cbn [bind]. apply IH. intros y Hy. apply Hsame. lia.
Qed.

(** DRW looks at no byte of memory outside [I .. I + n - 1]. *)
Lemma decode_DRW_reads_sprite_only instruction appstate ram' :
  GET_FIRST_NIBBLE instruction = 0xD ->
  (forall addr,
      I (chip8_context appstate) <= addr
      < I (chip8_context appstate) + GET_FOURTH_NIBBLE instruction ->
      ram' !! Z.to_nat addr = RAM (chip8_context appstate) !! Z.to_nat addr) ->
  decode_instruction instruction (with_RAM ram' appstate)
  = on_state (with_RAM ram') (decode_instruction instruction appstate).
Proof.
  intros Hop Hsame. pose proof (fourth_nibble_range instruction) as H4.
  rewrite !decode_DRW_eq by exact Hop. cbv zeta.
  cbn [with_RAM set_chip8_context chip8_context set_RAM RAM V I
       display_cells].
  destruct (array_get arr_V (V (chip8_context appstate))
              (GET_SECOND_NIBBLE instruction)) as [vx|f]; [|reflexivity].
  cbn [bind].
  destruct (array_get arr_V (V (chip8_context appstate))
              (GET_THIRD_NIBBLE instruction)) as [vy|f]; [|reflexivity].
  cbn [bind].
  destruct (array_set arr_V (V (chip8_context appstate)) 15 0) as [v|f];
    [|reflexivity].
  cbn [bind].
  rewrite (draw_sprite_rows_ext (RAM (chip8_context appstate)) ram')
    by (intros y Hy; apply Hsame; lia).
  destruct (for_loop _ _ _ _) as [cells|f]; reflexivity.
Qed.

(** C10: whatever the instruction word, a decode/execute step that is
    defined leaves all of memory as it was; every instruction other than
    DRW is defined in a well-formed state, and DRW reads memory at
    [I .. I + n - 1] only. *)
Theorem decode_instruction_preserves_RAM instruction appstate :
  (forall msg appstate',
      decode_instruction instruction appstate = Ok (msg, appstate') ->
      RAM (chip8_context appstate') = RAM (chip8_context appstate))
  /\ (wf_state appstate = true ->
      GET_FIRST_NIBBLE instruction <> 0xD ->
      exists msg appstate',
        decode_instruction instruction appstate = Ok (msg, appstate'))
  /\ (forall ram',
        GET_FIRST_NIBBLE instruction = 0xD ->
        (forall addr,
            I (chip8_context appstate) <= addr
            < I (chip8_context appstate) + GET_FOURTH_NIBBLE instruction ->
            ram' !! Z.to_nat addr
            = RAM (chip8_context appstate) !! Z.to_nat addr) ->
        decode_instruction instruction (with_RAM ram' appstate)
        = on_state (with_RAM ram')
            (decode_instruction instruction appstate)).
Proof.
  split; [|split].
  - intros msg appstate' Hrun. now apply decode_instruction_frame in Hrun.
  - apply decode_instruction_defined.
  - intros ram'. apply decode_DRW_reads_sprite_only.
Qed.

Lemma decode_instruction_preserves_RAM_witness :
  exists msg appstate',
    decode_instruction 0xD012 (lit_sprite_state 56 30 0x300 [0xA5; 0x3C])
    = Ok (msg, appstate')
    /\ RAM (chip8_context appstate')
       = RAM (chip8_context (lit_sprite_state 56 30 0x300 [0xA5; 0x3C])).
Proof.
  assert (Hrun : exists msg appstate',
             decode_instruction 0xD012
               (lit_sprite_state 56 30 0x300 [0xA5; 0x3C])
             = Ok (msg, appstate'))
    by (vm_compute; eexists _, _; reflexivity).
  destruct Hrun as (msg & appstate' & Hrun).
  exists msg, appstate'. split; [exact Hrun|].
  exact (proj1 (decode_instruction_preserves_RAM 0xD012
                  (lit_sprite_state 56 30 0x300 [0xA5; 0x3C]))
           msg appstate' Hrun).
Defined.

(** * Further properties of the interpreter *)

(** ** The ranges of the C types are kept *)

Lemma forallb_replicate_true {A} (f : A -> bool) (n : nat) (x : A) :
  f x = true -> forallb f (replicate n x) = true.
Proof. intros Hx. induction n as [|n IH]; cbn; [|rewrite Hx]; auto. Qed.

Lemma wf_state_registers appstate k :
  wf_state appstate = true -> 0 <= k < 16 ->
  exists v, register appstate k = Some v /\ 0 <= v < 256.
Proof.
  intros Hwf Hk. destruct (wf_state_inv _ Hwf) as [Hc _].
  pose proof (wf_V_length _ Hc) as HV.
  destruct (lookup_lt_is_Some_2 (V (chip8_context appstate)) (Z.to_nat k))
    as [v Hv]; [lia|].
  exists v. split; [exact Hv | eapply wf_V_byte; eauto].
Qed.

(** Replacing the registers by well-formed ones keeps a state well formed. *)
Lemma wf_state_set_V appstate v :
  wf_state appstate = true ->
  length v = length (V (chip8_context appstate)) ->
  forallb is_uint8 v = true ->
  wf_state (set_chip8_context (set_V v (chip8_context appstate)) appstate)
  = true.
Proof.
  unfold wf_state, wf_context. cbn. intros Hwf Hlen Hv.
  rewrite Hlen, Hv. rewrite !andb_true_iff in *. tauto.
Qed.

Lemma wf_state_set_PC appstate pc :
  wf_state appstate = true -> 0 <= pc < 65536 ->
  wf_state (set_chip8_context (set_PC pc (chip8_context appstate)) appstate)
  = true.
Proof.
  unfold wf_state, wf_context. cbn. intros Hwf Hpc.
  apply is_uint16_spec in Hpc. rewrite Hpc.
  rewrite !andb_true_iff in *. tauto.
Qed.

Lemma wf_state_set_I appstate i :
  wf_state appstate = true -> 0 <= i < 65536 ->
  wf_state (set_chip8_context (set_I i (chip8_context appstate)) appstate)
  = true.
Proof.
  unfold wf_state, wf_context. cbn. intros Hwf Hi.
  apply is_uint16_spec in Hi. rewrite Hi.
  rewrite !andb_true_iff in *. tauto.
Qed.

Lemma wf_state_cleared appstate :
  wf_state appstate = true -> wf_state (cleared appstate) = true.
Proof.
  unfold wf_state, wf_context, cleared. cbn. intros Hwf.
  rewrite forallb_replicate_true by reflexivity.
  rewrite !andb_true_iff in *. tauto.
Qed.

Lemma wf_state_drawn appstate cells' :
  wf_state appstate = true ->
  length cells' = length (display_cells (chip8_context appstate)) ->
  forallb is_uint64 cells' = true ->
  wf_state (drawn cells' appstate) = true.
Proof.
  intros Hwf Hlen Hcells. destruct (wf_state_inv _ Hwf) as [Hc _].
  assert (HV : forallb is_uint8 (<[15%nat := 0]>
                                   (V (chip8_context appstate))) = true)
    by (apply forallb_insert; [apply (wf_V_bytes _ Hc) | reflexivity]).
  revert Hwf. unfold wf_state, wf_context, drawn. cbn.
  rewrite length_insert, Hlen, Hcells, HV.
  rewrite !andb_true_iff. tauto.
Qed.

Lemma decode_instruction_wf instruction appstate msg appstate' :
  wf_state appstate = true ->
  decode_instruction instruction appstate = Ok (msg, appstate') ->
  wf_state appstate' = true.
Proof.
  intros Hwf Hrun. destruct (wf_state_inv _ Hwf) as [Hc _].
  pose proof (wf_V_length _ Hc) as HV.
  pose proof (second_nibble_range instruction) as H2.
  pose proof (byte_operand_range instruction) as Hnn.
  pose proof (address_operand_range instruction) as Hnnn.
  pose proof (nibble_cases _ (first_nibble_range instruction)) as H1.
  destruct (decide (GET_FIRST_NIBBLE instruction = 0xD)) as [HD|HD].
  - (* DRW *)
    destruct (wf_state_registers appstate (GET_SECOND_NIBBLE instruction)
                Hwf H2) as (x0 & Hx0 & Hxb).
    destruct (wf_state_registers appstate (GET_THIRD_NIBBLE instruction)
                Hwf (third_nibble_range instruction)) as (y0 & Hy0 & Hyb).
    destruct (decode_DRW_Ok_inv _ _ _ _ Hwf HD Hx0 Hy0 _ Hrun)
      as [Hn|(Hx & Hy & Hi)].
    + rewrite (decode_DRW_start _ _ _ _ Hwf HD Hx0 Hy0) in Hrun.
      cbv zeta in Hrun. rewrite Hn in Hrun. cbn in Hrun.
      injection Hrun as _ <-.
      apply wf_state_drawn; [exact Hwf | reflexivity |].
      apply (wf_display_words _ Hc).
    + destruct (decode_DRW_in_bounds _ _ _ _ Hwf HD Hx0 Hy0 Hx Hy Hi)
        as (cells' & Hrun' & Hlen & Hlook).
      rewrite Hrun' in Hrun. injection Hrun as _ <-.
      exact (drawn_wf _ _ _ _ Hwf Hx0 Hy0 Hx cells' Hlen Hlook).
  - revert Hrun. unfold decode_instruction.
    rewrite uint8_first_nibble, uint8_second_nibble, uint8_third_nibble,
      uint8_byte_operand, uint16_address_operand.
    pose proof (nibble_cases _ (third_nibble_range instruction)) as H3.
    split_nibble H1; rewrite H1 in *; cbv beta iota zeta; intros Hrun;
      try congruence;
      try (injection Hrun as _ <-; exact Hwf).
    + split_nibble H3; rewrite H3 in Hrun; cbv beta iota zeta in Hrun;
        injection Hrun as _ <-;
        first [exact Hwf | now apply wf_state_cleared].
    + injection Hrun as _ <-. apply wf_state_set_PC; [exact Hwf | lia].
    + apply bind_Ok_inv in Hrun as (v & Hv & Hrun).
      injection Hrun as _ <-. apply array_set_Ok in Hv as [_ ->].
      apply wf_state_set_V; [exact Hwf | apply length_insert |].
      apply forallb_insert; [apply (wf_V_bytes _ Hc)|].
      now apply is_uint8_spec.
    + apply bind_Ok_inv in Hrun as (old & _ & Hrun).
      apply bind_Ok_inv in Hrun as (v & Hv & Hrun).
      injection Hrun as _ <-. apply array_set_Ok in Hv as [_ ->].
      apply wf_state_set_V; [exact Hwf | apply length_insert |].
      apply forallb_insert; [apply (wf_V_bytes _ Hc)|].
      apply is_uint8_spec. unfold uint8. apply Z.mod_pos_bound. reflexivity.
    + injection Hrun as _ <-. apply wf_state_set_I; [exact Hwf | lia].
Qed.

(** X1: a decode/execute step that is defined takes a well-formed state to
    a well-formed state: the arrays keep their sizes and every field stays
    in the range of its C type. *)
Theorem decode_instruction_preserves_wf instruction appstate msg appstate' :
  wf_state appstate = true ->
  decode_instruction instruction appstate = Ok (msg, appstate') ->
  wf_state appstate' = true.
Proof.
  intros Hwf Hrun. exact (decode_instruction_wf _ _ _ _ Hwf Hrun).
Qed.

Lemma decode_instruction_preserves_wf_witness :
  exists msg appstate',
    decode_instruction 0xD012 (lit_sprite_state 56 30 0x300 [0xA5; 0x3C])
    = Ok (msg, appstate')
    /\ wf_state appstate' = true.
Proof.
  assert (Hrun : exists msg appstate',
             decode_instruction 0xD012
               (lit_sprite_state 56 30 0x300 [0xA5; 0x3C])
             = Ok (msg, appstate'))
    by (vm_compute; eexists _, _; reflexivity).
  destruct Hrun as (msg & appstate' & Hrun).
  exists msg, appstate'. split; [exact Hrun|].
  refine (decode_instruction_preserves_wf 0xD012
            (lit_sprite_state 56 30 0x300 [0xA5; 0x3C]) msg appstate' _ Hrun).
  vm_compute. reflexivity.
Defined.

(** ** Fetch at the end of memory *)

Lemma fetch_instruction_Ok_inv appstate w appstate' :
  fetch_instruction appstate = Ok (w, appstate') ->
  let c := chip8_context appstate in
  exists hi lo,
    0 <= PC c
    /\ RAM c !! Z.to_nat (PC c) = Some hi
    /\ RAM c !! Z.to_nat (PC c + 1) = Some lo
    /\ w = uint16 (Z.lor (Z.shiftl hi 8) lo)
    /\ appstate' = set_chip8_context (set_PC (uint16 (PC c + 2)) c) appstate.
Proof.
  intros H c. subst c. unfold fetch_instruction in H.
  apply bind_Ok_inv in H as (hi & Hhi & H).
  apply bind_Ok_inv in H as (lo & Hlo & H).
  injection H as <- <-.
  apply array_get_Ok in Hhi as [H0 Hhi]. apply array_get_Ok in Hlo as [_ Hlo].
  exists hi, lo. auto.
Qed.

Lemma fetch_instruction_wf appstate w appstate' :
  wf_state appstate = true ->
  fetch_instruction appstate = Ok (w, appstate') ->
  wf_state appstate' = true.
Proof.
  intros Hwf Hrun.
  apply fetch_instruction_Ok_inv in Hrun as (hi & lo & _ & _ & _ & _ & ->).
  apply wf_state_set_PC; [exact Hwf|]. apply Z.mod_pos_bound. reflexivity.
Qed.

(** X2: in a well-formed state fetch is defined exactly when both bytes of
    the word lie inside memory, that is when [PC + 1 < 4096]; a fetch that
    is defined returns a 16-bit word and a well-formed state. *)
Theorem fetch_instruction_defined_iff appstate :
  wf_state appstate = true ->
  ((exists w appstate', fetch_instruction appstate = Ok (w, appstate'))
   <-> PC (chip8_context appstate) + 1 < RAM_SIZE)
  /\ (forall w appstate',
        fetch_instruction appstate = Ok (w, appstate') ->
        0 <= w < 65536 /\ wf_state appstate' = true).
Proof.
  intros Hwf. destruct (wf_state_inv _ Hwf) as [Hc _].
  pose proof (wf_PC _ Hc) as HPC. pose proof (wf_RAM_length _ Hc) as HR.
  split; [split|].
  - intros (w & appstate' & Hrun).
    apply fetch_instruction_Ok_inv in Hrun as (hi & lo & _ & _ & Hlo & _).
    apply lookup_lt_Some in Hlo. lia.
  - intros Hpc.
    destruct (array_get_in_bounds arr_RAM (RAM (chip8_context appstate))
                (PC (chip8_context appstate))) as (hi & Hhi & _); [lia|].
    destruct (array_get_in_bounds arr_RAM (RAM (chip8_context appstate))
                (PC (chip8_context appstate) + 1)) as (lo & Hlo & _); [lia|].
    unfold fetch_instruction. rewrite Hhi, Hlo. cbn [bind]. eauto.
  - intros w appstate' Hrun.
    apply fetch_instruction_Ok_inv in Hrun
      as (hi & lo & _ & _ & _ & -> & ->).
    split; [apply Z.mod_pos_bound; reflexivity|].
    apply wf_state_set_PC; [exact Hwf|].
    apply Z.mod_pos_bound. reflexivity.
Qed.

Lemma fetch_instruction_defined_iff_witness :
  ~ (exists w appstate',
        fetch_instruction
          (set_chip8_context
             (set_PC 4095 (chip8_context (initial_state [0x12; 0x34] 0)))
             (initial_state [0x12; 0x34] 0))
        = Ok (w, appstate')).
Proof.
  intros Hrun.
  apply (proj1 (fetch_instruction_defined_iff
                  (set_chip8_context
                     (set_PC 4095
                        (chip8_context (initial_state [0x12; 0x34] 0)))
                     (initial_state [0x12; 0x34] 0))
                  ltac:(vm_compute; reflexivity))) in Hrun.
  vm_compute in Hrun. discriminate.
Defined.

(** ** Reading cells and presenting them *)

Lemma b2z_range b : 0 <= Z.b2z b <= 1.
Proof. destruct b; cbn; lia. Qed.

Lemma get_display_cell_in_range appstate row col :
  Z.of_nat (length (display_cells (chip8_context appstate)))
  = DISPLAY_CELLS_LEN ->
  0 <= row < 32 -> 0 <= col < 64 ->
  exists v, get_display_cell appstate row col = Ok v.
Proof.
  intros Hlen Hrow Hcol. change DISPLAY_CELLS_LEN with 32 in Hlen.
  destruct (lookup_lt_is_Some_2 (display_cells (chip8_context appstate))
              (Z.to_nat row)) as [w Hw]; [lia|].
  eexists. apply (get_display_cell_Ok _ _ _ w); [lia | exact Hcol | exact Hw].
Qed.

(** X3: on a display of 32 rows a cell read is defined exactly for rows 0
    to 31 and columns 0 to 63, and then is 0 or 1: bit [63 - col] of the
    row word. *)
Theorem get_display_cell_defined_iff appstate row col :
  Z.of_nat (length (display_cells (chip8_context appstate)))
  = DISPLAY_CELLS_LEN ->
  ((exists v, get_display_cell appstate row col = Ok v)
   <-> 0 <= row < 32 /\ 0 <= col < 64)
  /\ (forall v,
        get_display_cell appstate row col = Ok v ->
        exists w,
          display_cells (chip8_context appstate) !! Z.to_nat row = Some w
          /\ v = Z.b2z (Z.testbit w (63 - col)) /\ 0 <= v <= 1).
Proof.
  intros Hlen. change DISPLAY_CELLS_LEN with 32 in Hlen.
  assert (Hinv : forall v,
             get_display_cell appstate row col = Ok v ->
             0 <= row < 32 /\ 0 <= col < 64
             /\ exists w,
                 display_cells (chip8_context appstate) !! Z.to_nat row
                 = Some w
                 /\ v = Z.b2z (Z.testbit w (63 - col))).
  { intros v Hrun. unfold get_display_cell, CHIP8_DISPLAY_WIDTH in Hrun.
    apply bind_Ok_inv in Hrun as (w & Hw & Hrun).
    apply array_get_Ok in Hw as [Hrow Hw].
    destruct (decide (0 <= 64 - col - 1 < 64)) as [Hs|]; [|discriminate].
    injection Hrun as <-. pose proof (lookup_lt_Some _ _ _ Hw).
    split; [lia|]. split; [lia|]. exists w. split; [exact Hw|].
    rewrite land_shiftr_1 by lia. do 2 f_equal. lia. }
  split; [split|].
  - intros (v & Hrun). apply Hinv in Hrun. tauto.
  - intros [Hrow Hcol].
    destruct (lookup_lt_is_Some_2 (display_cells (chip8_context appstate))
                (Z.to_nat row)) as [w Hw]; [lia|].
    eexists. apply (get_display_cell_Ok _ _ _ w); [lia | exact Hcol | exact Hw].
  - intros v Hrun. destruct (Hinv v Hrun) as (_ & _ & w & Hw & ->).
    exists w. split; [exact Hw|]. split; [reflexivity | apply b2z_range].
Qed.

Lemma get_display_cell_defined_iff_witness :
  (exists v, get_display_cell lit_state 31 63 = Ok v)
  /\ ~ (exists v, get_display_cell lit_state 32 0 = Ok v)
  /\ ~ (exists v, get_display_cell lit_state 0 64 = Ok v).
Proof.
  pose proof (get_display_cell_defined_iff lit_state 31 63 eq_refl) as [H1 _].
  pose proof (get_display_cell_defined_iff lit_state 32 0 eq_refl) as [H2 _].
  pose proof (get_display_cell_defined_iff lit_state 0 64 eq_refl) as [H3 _].
  split; [apply H1; lia|].
  split; [intros H; apply H2 in H; lia | intros H; apply H3 in H; lia].
Defined.

(** A loop that appends one item per index builds the list of the items. *)
Lemma for_loop_append {A B} (g : Z -> result B) (h : Z -> B -> A) count :
  forall start acc,
    (forall i, start <= i < start + Z.of_nat count -> exists b, g i = Ok b) ->
    exists l,
      for_loop (fun i acc' => do b <- g i; Ok (acc' ++ [h i b]))
        count start acc
      = Ok (acc ++ l)
      /\ length l = count
      /\ forall k, (k < count)%nat ->
           exists b, g (start + Z.of_nat k) = Ok b
                     /\ l !! k = Some (h (start + Z.of_nat k) b).
Proof.
  induction count as [|n IH]; intros start acc Hg.
  - exists []. rewrite app_nil_r. split; [reflexivity|].
    split; [reflexivity | intros k Hk; lia].
  - destruct (Hg start) as [b Hb]; [lia|].
    destruct (IH (start + 1) (acc ++ [h start b])) as (l & Hrun & Hlen & Hl).
    { intros i Hi. apply Hg. lia. }
    exists (h start b :: l). rewrite for_loop_S, Hb. cbn [bind].
    rewrite Hrun, <- app_assoc. split; [reflexivity|].
    split; [cbn; congruence|].
    intros [|k] Hk.
    + exists b. rewrite Z.add_0_r. auto.
    + destruct (Hl k) as (b' & Hb' & Hk'); [lia|].
      exists b'. replace (start + Z.of_nat (S k))
        with (start + 1 + Z.of_nat k) by lia. auto.
Qed.

Lemma draw_screen_rows appstate count :
  Z.of_nat (length (display_cells (chip8_context appstate)))
  = DISPLAY_CELLS_LEN ->
  forall start acc,
    0 <= start -> start + Z.of_nat count <= 32 ->
    exists l,
      for_loop
        (fun j rects =>
           for_loop
             (fun i rects' =>
                do display_cell <- get_display_cell appstate j i;
                Ok (rects' ++ [mkFillRect i j display_cell]))
             (Z.to_nat CHIP8_DISPLAY_WIDTH) 0 rects)
        count start acc
      = Ok (acc ++ l)
      /\ Z.of_nat (length l) = 64 * Z.of_nat count
      /\ forall row col,
          start <= row < start + Z.of_nat count -> 0 <= col < 64 ->
          exists v,
            get_display_cell appstate row col = Ok v
            /\ l !! Z.to_nat ((row - start) * 64 + col)
               = Some (mkFillRect col row v).
Proof.
  intros Hlen. induction count as [|n IH]; intros start acc H0 Hmax.
  - exists []. rewrite app_nil_r. split; [reflexivity|].
    split; [reflexivity | intros row col Hrow; lia].
  - destruct (for_loop_append (get_display_cell appstate start)
                (fun i v => mkFillRect i start v)
                (Z.to_nat CHIP8_DISPLAY_WIDTH) 0 acc)
      as (r0 & Hrow0 & Hlen0 & Hr0).
    { intros i Hi. unfold CHIP8_DISPLAY_WIDTH in Hi.
      apply (get_display_cell_in_range appstate start i Hlen); lia. }
    destruct (IH (start + 1) (acc ++ r0)) as (l & Hrun & Hl & Hcells);
      [lia | lia |].
    exists (r0 ++ l). rewrite for_loop_S, Hrow0. cbn [bind].
    rewrite Hrun, <- app_assoc. split; [reflexivity|].
    unfold CHIP8_DISPLAY_WIDTH in Hlen0, Hr0.
    split; [rewrite length_app; lia|].
    intros row col Hrow Hcol.
    destruct (decide (row = start)) as [->|Hne].
    + destruct (Hr0 (Z.to_nat col)) as (v & Hv & Hk); [lia|].
      rewrite Z.add_0_l, Z2Nat.id in Hv, Hk by lia.
      exists v. split; [exact Hv|].
      rewrite lookup_app_l by lia.
      replace ((start - start) * 64 + col) with col by lia. exact Hk.
    + destruct (Hcells row col) as (v & Hv & Hk); [lia | lia |].
      exists v. split; [exact Hv|].
      rewrite lookup_app_r by lia. rewrite <- Hk. f_equal. lia.
Qed.

(** X4: presenting a display of 32 rows is always defined and issues 2048
    fill requests, row by row: request number [64 * row + col] is for
    column [col] of row [row] and carries the value of that cell. *)
Theorem draw_screen_frame appstate :
  Z.of_nat (length (display_cells (chip8_context appstate)))
  = DISPLAY_CELLS_LEN ->
  exists frame,
    draw_screen appstate = Ok frame
    /\ Z.of_nat (length frame) = CHIP8_DISPLAY_MATRIX_SIZE
    /\ forall row col,
        0 <= row < 32 -> 0 <= col < 64 ->
        exists v,
          get_display_cell appstate row col = Ok v
          /\ frame !! Z.to_nat (64 * row + col)
             = Some (mkFillRect col row v).
Proof.
  intros Hlen.
  destruct (draw_screen_rows appstate (Z.to_nat CHIP8_DISPLAY_HEIGHT) Hlen
              0 []) as (frame & Hrun & Hl & Hcells);
    [lia | unfold CHIP8_DISPLAY_HEIGHT; lia |].
  exists frame. split; [exact Hrun|].
  unfold CHIP8_DISPLAY_HEIGHT in Hl, Hcells.
  split; [rewrite Hl; reflexivity|].
  intros row col Hrow Hcol.
  destruct (Hcells row col) as (v & Hv & Hk); [lia | lia |].
  exists v. split; [exact Hv|]. rewrite <- Hk. f_equal. lia.
Qed.

Lemma draw_screen_frame_witness :
  exists frame,
    draw_screen lit_state = Ok frame
    /\ Z.of_nat (length frame) = 2048
    /\ frame !! 2047%nat = Some (mkFillRect 63 31 1).
Proof.
  destruct (draw_screen_frame lit_state eq_refl)
    as (frame & Hrun & Hlen & Hcells).
  exists frame. split; [exact Hrun|]. split; [exact Hlen|].
  destruct (Hcells 31 63) as (v & Hv & Hk); [lia | lia |].
  vm_compute in Hv. injection Hv as <-. exact Hk.
Defined.

(** ** What each instruction leaves alone *)

Lemma decode_instruction_changes instruction appstate msg appstate' :
  decode_instruction instruction appstate = Ok (msg, appstate') ->
  let c := chip8_context appstate in
  let c' := chip8_context appstate' in
  (GET_FIRST_NIBBLE instruction <> 0x1 -> PC c' = PC c)
  /\ (GET_FIRST_NIBBLE instruction <> 0xA -> I c' = I c)
  /\ (GET_FIRST_NIBBLE instruction <> 0x6 ->
      GET_FIRST_NIBBLE instruction <> 0x7 ->
      GET_FIRST_NIBBLE instruction <> 0xD -> V c' = V c)
  /\ (touches_display instruction = false ->
      display_cells c' = display_cells c)
  /\ need_redraw appstate'
     = need_redraw appstate || touches_display instruction.
Proof.
  intros Hrun c c'. subst c c'. revert Hrun.
  unfold decode_instruction, touches_display.
  rewrite uint8_first_nibble, uint8_third_nibble.
  pose proof (nibble_cases _ (first_nibble_range instruction)) as H1.
  pose proof (nibble_cases _ (third_nibble_range instruction)) as H3.
  split_nibble H1; rewrite H1; cbv beta iota zeta; intros Hrun.
  1: split_nibble H3; rewrite H3 in *; cbv beta iota zeta in Hrun.
  all: invert_run Hrun; cbn;
    rewrite ?orb_false_r, ?orb_true_r;
    repeat split; intros; first [reflexivity | congruence].
Qed.

(** X5: a decode/execute step changes the program counter only for JP, the
    index register only for LD I, the registers only for LD Vx, ADD Vx and
    DRW, and the display only for CLS and DRW; it sets [need_redraw] for
    CLS and DRW and never clears it. *)
Theorem decode_instruction_effects instruction appstate msg appstate' :
  decode_instruction instruction appstate = Ok (msg, appstate') ->
  let c := chip8_context appstate in
  let c' := chip8_context appstate' in
  (GET_FIRST_NIBBLE instruction <> 0x1 -> PC c' = PC c)
  /\ (GET_FIRST_NIBBLE instruction <> 0xA -> I c' = I c)
  /\ (GET_FIRST_NIBBLE instruction <> 0x6 ->
      GET_FIRST_NIBBLE instruction <> 0x7 ->
      GET_FIRST_NIBBLE instruction <> 0xD -> V c' = V c)
  /\ (touches_display instruction = false ->
      display_cells c' = display_cells c)
  /\ need_redraw appstate'
     = need_redraw appstate || touches_display instruction.
Proof.
  intros Hrun. exact (decode_instruction_changes _ _ _ _ Hrun).
Qed.

Lemma decode_instruction_effects_witness :
  exists msg appstate',
    decode_instruction 0x1ABC lit_state = Ok (msg, appstate')
    /\ PC (chip8_context appstate') = 0xABC
    /\ V (chip8_context appstate') = V (chip8_context lit_state)
    /\ display_cells (chip8_context appstate') = lit_display
    /\ need_redraw appstate' = false.
Proof.
  assert (Hrun : exists msg appstate',
             decode_instruction 0x1ABC lit_state = Ok (msg, appstate'))
    by (vm_compute; eexists _, _; reflexivity).
  destruct Hrun as (msg & appstate' & Hrun).
  exists msg, appstate'. split; [exact Hrun|].
  destruct (decode_instruction_effects 0x1ABC lit_state msg appstate' Hrun)
    as (_ & _ & HV & Hd & Hr).
  split; [|split; [|split]].
  - assert (Hrun' := Hrun). vm_compute in Hrun'.
    injection Hrun' as _ <-. reflexivity.
  - apply HV; discriminate.
  - apply Hd. reflexivity.
  - exact Hr.
Defined.

(** ** One run of the loop body *)

Lemma decode_JP instruction appstate :
  GET_FIRST_NIBBLE instruction = 0x1 ->
  decode_instruction instruction appstate
  = Ok (Jump_to_address (GET_SECOND_THIRD_AND_FOURTH_NIBBLES instruction),
        set_chip8_context
          (set_PC (GET_SECOND_THIRD_AND_FOURTH_NIBBLES instruction)
             (chip8_context appstate))
          appstate).
Proof.
  intros Hop. unfold decode_instruction.
  rewrite uint8_first_nibble, uint16_address_operand, Hop. reflexivity.
Qed.

(** X6: one run of the loop body, started with [need_redraw] clear,
    fetches one word, leaves the program counter 2 further, or at the
    12-bit operand after JP, and ends with [need_redraw] clear again.  It
    presents a frame, the one of the display it ends with, exactly after CLS
    and DRW; after any other word it only prints and the display is as it
    was. *)
Theorem SDL_AppIterate_body_effects appstate evs appstate' :
  wf_state appstate = true ->
  need_redraw appstate = false ->
  SDL_AppIterate_body appstate = Ok (evs, appstate') ->
  let c := chip8_context appstate in
  let c' := chip8_context appstate' in
  exists instruction appstate0 msg,
    fetch_instruction appstate = Ok (instruction, appstate0)
    /\ PC c' = (if GET_FIRST_NIBBLE instruction =? 0x1
                then GET_SECOND_THIRD_AND_FOURTH_NIBBLES instruction
                else PC c + 2)
    /\ need_redraw appstate' = false
    /\ (if touches_display instruction
        then exists frame,
            draw_screen appstate' = Ok frame
            /\ evs = [Printed instruction msg; Presented frame]
        else evs = [Printed instruction msg]
             /\ display_cells c' = display_cells c).
Proof.
  intros Hwf Hflag Hrun c c'. subst c c'.
  destruct (wf_state_inv _ Hwf) as [Hc _].
  pose proof (wf_PC _ Hc) as HPC. pose proof (wf_RAM_length _ Hc) as HR.
  unfold SDL_AppIterate_body in Hrun.
  apply bind_Ok_inv in Hrun as ([instruction as0] & Hfetch & Hrun).
  apply bind_Ok_inv in Hrun as ([msg as1] & Hdecode & Hrun).
  apply bind_Ok_inv in Hrun as ([evs' as2] & Hredraw & Hrun).
  cbn [fst snd] in *. injection Hrun as <- <-.
  exists instruction, as0, msg. split; [exact Hfetch|].
  apply fetch_instruction_Ok_inv in Hfetch
    as (hi & lo & _ & _ & Hlo & _ & ->).
  apply lookup_lt_Some in Hlo.
  destruct (decode_instruction_changes _ _ _ _ Hdecode)
    as (HPC1 & _ & _ & Hdisp & Hflag1).
  cbn in HPC1, Hdisp, Hflag1. rewrite Hflag in Hflag1. cbn in Hflag1.
  assert (HPC' : PC (chip8_context as1)
                 = if GET_FIRST_NIBBLE instruction =? 0x1
                   then GET_SECOND_THIRD_AND_FOURTH_NIBBLES instruction
                   else PC (chip8_context appstate) + 2).
  { destruct (Z.eqb_spec (GET_FIRST_NIBBLE instruction) 1) as [Hjp|Hjp].
    - rewrite decode_JP in Hdecode by exact Hjp.
      injection Hdecode as _ <-. reflexivity.
    - rewrite HPC1 by exact Hjp. apply uint16_small.
      unfold RAM_SIZE in *. lia. }
  rewrite Hflag1 in Hredraw.
  destruct (touches_display instruction).
  - apply bind_Ok_inv in Hredraw as (frame & Hframe & Hredraw).
    injection Hredraw as <- <-. cbn.
    split; [exact HPC'|]. split; [reflexivity|].
    exists frame. split; [exact Hframe | reflexivity].
  - injection Hredraw as <- <-. cbn.
    split; [exact HPC'|]. split; [exact Hflag1|].
    split; [reflexivity | now apply Hdisp].
Qed.

Lemma SDL_AppIterate_body_effects_witness :
  exists evs appstate',
    SDL_AppIterate_body (initial_state [0x00; 0xE0; 0x7A; 0x05] 1000)
    = Ok (evs, appstate')
    /\ PC (chip8_context appstate') = 0x202
    /\ need_redraw appstate' = false
    /\ exists msg frame, evs = [Printed 0x00E0 msg; Presented frame].
Proof.
  assert (Hrun : exists evs appstate',
             SDL_AppIterate_body (initial_state [0; 224; 122; 5] 1000)
             = Ok (evs, appstate'))
    by (vm_compute; eexists _, _; reflexivity).
  destruct Hrun as (evs & appstate' & Hrun).
  exists evs, appstate'. split; [exact Hrun|].
  destruct (SDL_AppIterate_body_effects
              (initial_state [0; 224; 122; 5] 1000) evs appstate')
    as (instruction & as0 & msg & Hfetch & HPC & Hflag & Hevs);
    [vm_compute; reflexivity | reflexivity | exact Hrun |].
  vm_compute in Hfetch. injection Hfetch as <- _.
  split; [exact HPC|]. split; [exact Hflag|].
  destruct Hevs as (frame & _ & ->). exists msg, frame. reflexivity.
Defined.

(** ** Invariants of the pacing loop *)

Lemma SDL_AppIterate_body_invariants appstate evs appstate' :
  SDL_AppIterate_body appstate = Ok (evs, appstate') ->
  RAM (chip8_context appstate') = RAM (chip8_context appstate)
  /\ delay_timer (chip8_context appstate')
     = delay_timer (chip8_context appstate)
  /\ sound_timer (chip8_context appstate')
     = sound_timer (chip8_context appstate)
  /\ (wf_state appstate = true -> wf_state appstate' = true).
Proof.
  unfold SDL_AppIterate_body. intros Hrun.
  apply bind_Ok_inv in Hrun as ([instruction as0] & Hfetch & Hrun).
  apply bind_Ok_inv in Hrun as ([msg as1] & Hdecode & Hrun).
  apply bind_Ok_inv in Hrun as ([evs' as2] & Hredraw & Hrun).
  cbn [fst snd] in *. injection Hrun as <- <-.
  assert (Has2 : as2 = as1 \/ as2 = set_need_redraw false as1).
  { destruct (need_redraw as1).
    - apply bind_Ok_inv in Hredraw as (frame & _ & Hredraw).
      injection Hredraw as _ <-. now right.
    - injection Hredraw as _ <-. now left. }
  pose proof (decode_instruction_frame _ _ _ _ Hdecode)
    as (HRAM & Hdt & Hst & _).
  assert (Hwf0 : wf_state appstate = true -> wf_state as0 = true).
  { intros Hwf. exact (fetch_instruction_wf _ _ _ Hwf Hfetch). }
  apply fetch_instruction_Ok_inv in Hfetch as (hi & lo & _ & _ & _ & _ & ->).
  cbn in HRAM, Hdt, Hst.
  assert (Hwf2 : wf_state appstate = true -> wf_state as2 = true).
  { intros Hwf.
    pose proof (decode_instruction_wf _ _ _ _ (Hwf0 Hwf) Hdecode)
      as Hwf1.
    destruct Has2 as [->| ->]; exact Hwf1. }
  split; [destruct Has2 as [->| ->]; exact HRAM|].
  split; [destruct Has2 as [->| ->]; exact Hdt|].
  split; [destruct Has2 as [->| ->]; exact Hst|].
  intros Hwf. specialize (Hwf2 Hwf). revert Hwf2.
  unfold wf_state. cbn. rewrite !andb_true_iff. intros [Hc2 _].
  split; [exact Hc2|]. apply is_uint64_spec, Z.mod_pos_bound. reflexivity.
Qed.

(** X7: a run of the pacing loop never writes to memory and never touches
    the two timers, and it takes a well-formed state to a well-formed
    state. *)
Theorem SDL_AppIterate_invariants fuel now appstate evs appstate' :
  SDL_AppIterate fuel now appstate = Some (Ok (evs, appstate')) ->
  RAM (chip8_context appstate') = RAM (chip8_context appstate)
  /\ delay_timer (chip8_context appstate')
     = delay_timer (chip8_context appstate)
  /\ sound_timer (chip8_context appstate')
     = sound_timer (chip8_context appstate)
  /\ (wf_state appstate = true -> wf_state appstate' = true).
Proof.
  revert appstate evs.
  induction fuel as [|fuel IH]; intros appstate evs Hrun; [discriminate|].
  cbn [SDL_AppIterate] in Hrun.
  destruct (decide _); [|injection Hrun as <- <-; auto].
  destruct (SDL_AppIterate_body appstate) as [[evs1 as1]|f] eqn:Hbody;
    [|discriminate].
  destruct (SDL_AppIterate fuel now as1) as [[[evs2 as2]|f]|] eqn:Hrest;
    try discriminate.
  injection Hrun as <- <-.
  apply SDL_AppIterate_body_invariants in Hbody as (HR1 & Hd1 & Hs1 & Hw1).
  apply IH in Hrest as (HR2 & Hd2 & Hs2 & Hw2).
  repeat split; try congruence. auto.
Qed.

Lemma SDL_AppIterate_invariants_witness :
  exists evs appstate',
    SDL_AppIterate 3 1250 (initial_state [0x00; 0xE0; 0x7A; 0x05] 1000)
    = Some (Ok (evs, appstate'))
    /\ RAM (chip8_context appstate')
       = RAM (chip8_context (initial_state [0x00; 0xE0; 0x7A; 0x05] 1000))
    /\ wf_state appstate' = true.
Proof.
  assert (Hrun : exists evs appstate',
             SDL_AppIterate 3 1250 (initial_state [0; 224; 122; 5] 1000)
             = Some (Ok (evs, appstate')))
    by (vm_compute; eexists _, _; reflexivity).
  destruct Hrun as (evs & appstate' & Hrun).
  exists evs, appstate'. split; [exact Hrun|].
  destruct (SDL_AppIterate_invariants _ _ _ _ _ Hrun) as (HR & _ & _ & Hwf).
  split; [exact HR|]. apply Hwf. vm_compute. reflexivity.
Defined.

(** ** The pacing loop and the clock *)

Lemma uint64_elapsed_step now ls :
  100 <= uint64 (now - ls) ->
  uint64 (now - uint64 (ls + 100)) = uint64 (now - ls) - 100.
Proof.
  unfold uint64. intros He.
  pose proof (Z.mod_pos_bound (now - ls) (2 ^ 64) ltac:(reflexivity)) as Hb.
  rewrite Zminus_mod_idemp_r.
  replace (now - (ls + 100)) with (now - ls - 100) by lia.
  rewrite <- Zminus_mod_idemp_l. apply Z.mod_small. lia.
Qed.

Lemma SDL_AppIterate_run_steps_modular k : forall fuel now appstate,
  100 * Z.of_nat k <= uint64 (now - last_step appstate)
  < 100 * (Z.of_nat k + 1) ->
  (k < fuel)%nat ->
  SDL_AppIterate fuel now appstate = Some (run_steps k appstate).
Proof.
  induction k as [|k IH]; intros fuel now appstate He Hfuel;
    (destruct fuel as [|fuel]; [lia|]); cbn [SDL_AppIterate run_steps];
    unfold STEP_RATE_IN_MILLISECONDS.
  - destruct (decide _); [lia | reflexivity].
  - destruct (decide _); [|lia].
    destruct (SDL_AppIterate_body appstate) as [[evs as1]|f] eqn:Hbody;
      [|reflexivity].
    apply SDL_AppIterate_body_last_step in Hbody as [_ Hl1].
    unfold STEP_RATE_IN_MILLISECONDS in Hl1.
    cbn [bind fst snd]. rewrite (IH fuel now as1).
    + destruct (run_steps k as1) as [[evs' as2]|f]; reflexivity.
    + rewrite Hl1, uint64_elapsed_step by lia. lia.
    + lia.
Qed.

Lemma run_steps_last_step_modular k : forall appstate evs appstate',
  0 <= last_step appstate < 2 ^ 64 ->
  run_steps k appstate = Ok (evs, appstate') ->
  cycles evs = k
  /\ last_step appstate' = uint64 (last_step appstate + 100 * Z.of_nat k).
Proof.
  induction k as [|k IH]; intros appstate evs appstate' Hls Hrun.
  - injection Hrun as <- <-. split; [reflexivity|].
    rewrite Z.add_0_r. symmetry. now apply uint64_small.
  - cbn [run_steps] in Hrun.
    apply bind_Ok_inv in Hrun as ([evs1 as1] & Hbody & Hrun).
    apply bind_Ok_inv in Hrun as ([evs2 as2] & Hrest & Hrun).
    injection Hrun as <- <-. cbn [fst snd] in *.
    apply SDL_AppIterate_body_last_step in Hbody as [Hc1 Hl1].
    unfold STEP_RATE_IN_MILLISECONDS in Hl1.
    apply IH in Hrest as [Hc2 Hl2];
      [|rewrite Hl1; apply Z.mod_pos_bound; reflexivity].
    rewrite cycles_app, Hc1, Hc2, Hl2, Hl1. split; [reflexivity|].
    unfold uint64. rewrite Zplus_mod_idemp_l. f_equal. lia.
Qed.

(** X8: the loop compares the unsigned 64-bit difference
    [now - last_step], so it runs [floor (((now - last_step) mod 2^64) /
    100)] cycles whatever the two readings are: when the clock reading is
    behind [last_step] the difference wraps and the loop catches up
    on [2^64 + now - last_step] milliseconds; [last_step] moves on
    modulo 2^64. *)
Theorem SDL_AppIterate_unsigned_elapsed fuel now appstate :
  0 <= last_step appstate < 2 ^ 64 ->
  let k :=
    Z.to_nat (uint64 (now - last_step appstate)
              / STEP_RATE_IN_MILLISECONDS) in
  (k < fuel)%nat ->
  SDL_AppIterate fuel now appstate = Some (run_steps k appstate)
  /\ forall evs appstate',
      run_steps k appstate = Ok (evs, appstate') ->
      cycles evs = k
      /\ last_step appstate'
         = uint64 (last_step appstate
                   + STEP_RATE_IN_MILLISECONDS * Z.of_nat k).
Proof.
  intros Hls k Hfuel. unfold STEP_RATE_IN_MILLISECONDS in *.
  pose proof (Z.mod_pos_bound (now - last_step appstate) (2 ^ 64)
                ltac:(reflexivity)) as Hb.
  fold (uint64 (now - last_step appstate)) in Hb.
  assert (Hk : Z.of_nat k = uint64 (now - last_step appstate) / 100)
    by (subst k; apply Z2Nat.id, Z.div_pos; lia).
  clearbody k.
  pose proof (Z.mod_pos_bound (uint64 (now - last_step appstate)) 100
                ltac:(lia)).
  pose proof (Z.div_mod (uint64 (now - last_step appstate)) 100 ltac:(lia)).
  split.
  - apply SDL_AppIterate_run_steps_modular; lia.
  - intros evs appstate'. now apply run_steps_last_step_modular.
Qed.

Lemma SDL_AppIterate_unsigned_elapsed_witness :
  exists evs appstate',
    SDL_AppIterate 3 100
      (initial_state [0x6A; 0x01; 0x7A; 0x05] (2 ^ 64 - 150))
    = Some (Ok (evs, appstate'))
    /\ cycles evs = 2%nat
    /\ last_step appstate' = 50.
Proof.
  destruct (SDL_AppIterate_unsigned_elapsed 3 100
              (initial_state [0x6A; 0x01; 0x7A; 0x05] (2 ^ 64 - 150)))
    as [Hloop Hsteps];
    [vm_compute; split; [discriminate | reflexivity] | vm_compute; lia |].
  change (Z.to_nat (uint64 (100 - last_step
                              (initial_state [106; 1; 122; 5] (2 ^ 64 - 150)))
                    / STEP_RATE_IN_MILLISECONDS)) with 2%nat in *.
  assert (Hrun : exists evs appstate',
             run_steps 2 (initial_state [106; 1; 122; 5] (2 ^ 64 - 150))
             = Ok (evs, appstate'))
    by (vm_compute; eexists _, _; reflexivity).
  destruct Hrun as (evs & appstate' & Hrun). rewrite Hrun in Hloop.
  exists evs, appstate'. split; [exact Hloop|].
  destruct (Hsteps _ _ Hrun) as (Hc & Hl).
  split; [exact Hc | exact Hl].
Defined.

(** ** Splitting the elapsed time over several ticks *)

Lemma run_steps_app k1 k2 appstate :
  run_steps (k1 + k2) appstate
  = do first <- run_steps k1 appstate;
    do rest <- run_steps k2 (snd first);
    Ok (fst first ++ fst rest, snd rest).
Proof.
  revert appstate. induction k1 as [|k1 IH]; intros appstate.
  - cbn. destruct (run_steps k2 appstate) as [[evs as2]|f]; reflexivity.
  - cbn [Nat.add run_steps].
    destruct (SDL_AppIterate_body appstate) as [[evs as1]|f];
      [|reflexivity].
    cbn [bind fst snd]. rewrite IH.
    destruct (run_steps k1 as1) as [[evs1 as2]|f]; [|reflexivity].
    cbn [bind fst snd].
    destruct (run_steps k2 as2) as [[evs2 as3]|f]; [|reflexivity].
    cbn [bind fst snd]. now rewrite app_assoc.
Qed.

(** A defined run of the loop is the run of its step count, whatever the
    fuel was. *)
Lemma SDL_AppIterate_Ok_inv fuel : forall now appstate evs appstate',
  0 <= last_step appstate <= now -> now < 2 ^ 64 ->
  SDL_AppIterate fuel now appstate = Some (Ok (evs, appstate')) ->
  run_steps (Z.to_nat ((now - last_step appstate) / 100)) appstate
  = Ok (evs, appstate').
Proof.
  induction fuel as [|fuel IH]; intros now appstate evs appstate' Hls Hnow
    Hrun; [discriminate|].
  cbn [SDL_AppIterate] in Hrun. unfold STEP_RATE_IN_MILLISECONDS in Hrun.
  rewrite (uint64_small (now - last_step appstate)) in Hrun by lia.
  destruct (decide _) as [He|He].
  - destruct (SDL_AppIterate_body appstate) as [[evs1 as1]|f] eqn:Hbody;
      [|discriminate].
    destruct (SDL_AppIterate fuel now as1) as [[[evs2 as2]|f]|] eqn:Hrest;
      try discriminate.
    injection Hrun as <- <-.
    pose proof (SDL_AppIterate_body_last_step _ _ _ Hbody) as [_ Hl1].
    unfold STEP_RATE_IN_MILLISECONDS in Hl1.
    rewrite uint64_small in Hl1 by lia.
    apply IH in Hrest; [|lia|lia].
    replace (Z.to_nat ((now - last_step appstate) / 100))
      with (S (Z.to_nat ((now - last_step as1) / 100))).
    + cbn [run_steps]. rewrite Hbody. cbn [bind fst snd].
      rewrite Hrest. reflexivity.
    + rewrite Hl1.
      replace (now - last_step appstate)
        with (now - (last_step appstate + 100) + 1 * 100) by lia.
      rewrite Z.div_add by lia.
      pose proof (Z.div_pos (now - (last_step appstate + 100)) 100
                    ltac:(lia) ltac:(lia)).
      lia.
  - injection Hrun as <- <-.
    rewrite Z.div_small by lia. reflexivity.
Qed.

(** X9: time debt is carried over: two runs of the loop in a row, at clock
    readings [now1 <= now2], execute together exactly what one run at
    [now2] executes, and end in the same state. *)
Theorem SDL_AppIterate_ticks_compose fuel1 fuel2 fuel now1 now2
  appstate evs1 appstate1 evs2 appstate2 :
  0 <= last_step appstate <= now1 -> now1 <= now2 -> now2 < 2 ^ 64 ->
  SDL_AppIterate fuel1 now1 appstate = Some (Ok (evs1, appstate1)) ->
  SDL_AppIterate fuel2 now2 appstate1 = Some (Ok (evs2, appstate2)) ->
  (Z.to_nat ((now2 - last_step appstate) / STEP_RATE_IN_MILLISECONDS)
   < fuel)%nat ->
  SDL_AppIterate fuel now2 appstate = Some (Ok (evs1 ++ evs2, appstate2)).
Proof.
  unfold STEP_RATE_IN_MILLISECONDS.
  intros Hls H12 Hnow Hrun1 Hrun2 Hfuel.
  apply SDL_AppIterate_Ok_inv in Hrun1; [|lia|lia].
  pose proof (Z.div_pos (now1 - last_step appstate) 100
                ltac:(lia) ltac:(lia)) as Hk1.
  pose proof (Z.mod_pos_bound (now1 - last_step appstate) 100 ltac:(lia)).
  pose proof (Z.div_mod (now1 - last_step appstate) 100 ltac:(lia)).
  apply run_steps_last_step in Hrun1 as Hl1;
    [|lia|unfold STEP_RATE_IN_MILLISECONDS; rewrite Z2Nat.id; lia].
  destruct Hl1 as [_ Hl1].
  unfold STEP_RATE_IN_MILLISECONDS in Hl1. rewrite Z2Nat.id in Hl1 by lia.
  apply SDL_AppIterate_Ok_inv in Hrun2; [|lia|lia].
  pose proof (Z.div_pos (now2 - last_step appstate1) 100
                ltac:(lia) ltac:(lia)) as Hk2.
  assert (Hk : Z.to_nat ((now2 - last_step appstate) / 100)
               = (Z.to_nat ((now1 - last_step appstate) / 100)
                  + Z.to_nat ((now2 - last_step appstate1) / 100))%nat).
  { rewrite Hl1 in *.
    replace (now2 - last_step appstate)
      with (now2 - (last_step appstate
                    + 100 * ((now1 - last_step appstate) / 100))
            + (now1 - last_step appstate) / 100 * 100) by lia.
    rewrite Z.div_add by lia. lia. }
  pose proof (Z.mod_pos_bound (now2 - last_step appstate) 100 ltac:(lia)).
  pose proof (Z.div_mod (now2 - last_step appstate) 100 ltac:(lia)).
  pose proof (Z.div_pos (now2 - last_step appstate) 100
                ltac:(lia) ltac:(lia)).
  rewrite (SDL_AppIterate_run_steps
             (Z.to_nat ((now2 - last_step appstate) / 100)));
    [|lia|unfold STEP_RATE_IN_MILLISECONDS; lia
     |unfold STEP_RATE_IN_MILLISECONDS; lia|lia|exact Hfuel].
  rewrite Hk, run_steps_app, Hrun1. cbn [bind fst snd].
  rewrite Hrun2. reflexivity.
Qed.

Lemma SDL_AppIterate_ticks_compose_witness :
  exists evs1 appstate1 evs2 appstate2,
    SDL_AppIterate 2 1100 (initial_state [0x6A; 0x01; 0x7A; 0x05] 1000)
    = Some (Ok (evs1, appstate1))
    /\ SDL_AppIterate 2 1250 appstate1 = Some (Ok (evs2, appstate2))
    /\ SDL_AppIterate 3 1250 (initial_state [0x6A; 0x01; 0x7A; 0x05] 1000)
       = Some (Ok (evs1 ++ evs2, appstate2)).
Proof.
  assert (Hruns : exists evs1 appstate1 evs2 appstate2,
             SDL_AppIterate 2 1100 (initial_state [106; 1; 122; 5] 1000)
             = Some (Ok (evs1, appstate1))
             /\ SDL_AppIterate 2 1250 appstate1
                = Some (Ok (evs2, appstate2)))
    by (eexists _, _, _, _;
        split; [vm_compute; reflexivity | vm_compute; reflexivity]).
  destruct Hruns as (evs1 & appstate1 & evs2 & appstate2 & Hrun1 & Hrun2).
  exists evs1, appstate1, evs2, appstate2.
  split; [exact Hrun1|]. split; [exact Hrun2|].
  apply (SDL_AppIterate_ticks_compose 2 2 3 1100 1250
           (initial_state [106; 1; 122; 5] 1000) evs1 appstate1 evs2
           appstate2);
    [vm_compute; split; discriminate | vm_compute; discriminate
     | reflexivity | exact Hrun1 | exact Hrun2 | vm_compute; lia].
Defined.

(** ** LD Vx, byte and ADD Vx, byte *)

Lemma decode_LD instruction appstate :
  wf_state appstate = true ->
  GET_FIRST_NIBBLE instruction = 0x6 ->
  let c := chip8_context appstate in
  let x := GET_SECOND_NIBBLE instruction in
  let nn := GET_THIRD_AND_FORTH_NIBBLES instruction in
  decode_instruction instruction appstate
  = Ok (Set_value_to_register nn x,
        set_chip8_context (set_V (<[Z.to_nat x := nn]> (V c)) c) appstate).
Proof.
  intros Hwf Hop c x nn. subst c x nn.
  destruct (wf_state_inv _ Hwf) as [Hc _].
  pose proof (second_nibble_range instruction) as H2.
  unfold decode_instruction.
  rewrite uint8_first_nibble, uint8_second_nibble, uint8_byte_operand, Hop.
  cbv beta iota zeta.
  rewrite array_set_in_bounds by (rewrite (wf_V_length _ Hc); lia).
  reflexivity.
Qed.

(** X10: LD Vx, byte (opcode 0x6XNN) sets register Vx to NN whatever it
    held, and leaves every other register, memory, the display, the index
    register, the program counter and [need_redraw] as they were. *)
Theorem LD_sets_register instruction appstate :
  wf_state appstate = true ->
  GET_FIRST_NIBBLE instruction = 0x6 ->
  let c := chip8_context appstate in
  let x := GET_SECOND_NIBBLE instruction in
  let nn := GET_THIRD_AND_FORTH_NIBBLES instruction in
  exists appstate',
    decode_instruction instruction appstate
    = Ok (Set_value_to_register nn x, appstate')
    /\ register appstate' x = Some nn
    /\ (forall k, 0 <= k -> k <> x ->
                  register appstate' k = register appstate k)
    /\ appstate' = set_chip8_context (set_V (V (chip8_context appstate')) c)
                     appstate.
Proof.
  intros Hwf Hop c x nn.
  destruct (wf_state_inv _ Hwf) as [Hc _].
  pose proof (second_nibble_range instruction) as H2. fold x in H2.
  eexists. split; [exact (decode_LD _ _ Hwf Hop)|].
  split; [|split].
  - apply (register_insert_eq _ _ x nn); [|reflexivity].
    rewrite (wf_V_length _ Hc). exact H2.
  - intros k Hk Hne.
    apply (register_insert_ne _ _ x k nn);
      [lia | lia | exact Hne | reflexivity].
  - reflexivity.
Qed.

Lemma LD_sets_register_witness :
  exists appstate',
    decode_instruction 0x63FF lit_state
    = Ok (Set_value_to_register 0xFF 3, appstate')
    /\ register lit_state 3 = Some 7
    /\ register appstate' 3 = Some 0xFF
    /\ register appstate' 0xF = Some 0.
Proof.
  destruct (LD_sets_register 0x63FF lit_state)
    as (appstate' & Hrun & H3 & Hother & _);
    [vm_compute; reflexivity | reflexivity |].
  exists appstate'. split; [exact Hrun|]. split; [reflexivity|].
  split; [exact H3|]. rewrite Hother; [reflexivity | lia | discriminate].
Defined.

Lemma wf_state_after_ADD instruction appstate old :
  wf_state appstate = true ->
  wf_state
    (set_chip8_context
       (set_V (<[Z.to_nat (GET_SECOND_NIBBLE instruction)
                 := (old + GET_THIRD_AND_FORTH_NIBBLES instruction) mod 256]>
                 (V (chip8_context appstate)))
          (chip8_context appstate))
       appstate) = true.
Proof.
  intros Hwf. destruct (wf_state_inv _ Hwf) as [Hc _].
  apply wf_state_set_V; [exact Hwf | apply length_insert |].
  apply forallb_insert; [apply (wf_V_bytes _ Hc)|].
  apply is_uint8_spec, Z.mod_pos_bound. reflexivity.
Qed.

(** X11: two ADDs to the same register compose: after ADD Vx, a and then
    ADD Vx, b the register holds (old value + a + b) modulo 256, as after
    one addition of a + b, and every other register is as it was. *)
Theorem ADD_twice_adds_the_sum instruction1 instruction2 appstate old :
  wf_state appstate = true ->
  GET_FIRST_NIBBLE instruction1 = 0x7 ->
  GET_FIRST_NIBBLE instruction2 = 0x7 ->
  GET_SECOND_NIBBLE instruction2 = GET_SECOND_NIBBLE instruction1 ->
  register appstate (GET_SECOND_NIBBLE instruction1) = Some old ->
  let x := GET_SECOND_NIBBLE instruction1 in
  let a := GET_THIRD_AND_FORTH_NIBBLES instruction1 in
  let b := GET_THIRD_AND_FORTH_NIBBLES instruction2 in
  exists msg1 appstate1 msg2 appstate2,
    decode_instruction instruction1 appstate = Ok (msg1, appstate1)
    /\ decode_instruction instruction2 appstate1 = Ok (msg2, appstate2)
    /\ register appstate2 x = Some ((old + a + b) mod 256)
    /\ (forall k, 0 <= k -> k <> x ->
                  register appstate2 k = register appstate k).
Proof.
  intros Hwf Hop1 Hop2 Hsame Hold x a b.
  destruct (wf_state_inv _ Hwf) as [Hc _].
  pose proof (wf_V_length _ Hc) as HV.
  pose proof (second_nibble_range instruction1) as H2. fold x in H2.
  pose proof (decode_ADD _ _ _ Hwf Hop1 Hold) as Hrun1. cbv zeta in Hrun1.
  fold x a in Hrun1.
  pose proof (wf_state_after_ADD instruction1 appstate old Hwf) as Hwf1.
  fold x a in Hwf1.
  set (appstate1 :=
         set_chip8_context
           (set_V (<[Z.to_nat x := (old + a) mod 256]>
                     (V (chip8_context appstate)))
              (chip8_context appstate)) appstate) in *.
  assert (Hold1 : register appstate1 (GET_SECOND_NIBBLE instruction2)
                  = Some ((old + a) mod 256)).
  { rewrite Hsame. apply (register_insert_eq _ _ x ((old + a) mod 256));
      [lia | reflexivity]. }
  pose proof (decode_ADD _ _ _ Hwf1 Hop2 Hold1) as Hrun2. cbv zeta in Hrun2.
  rewrite Hsame in Hrun2. fold x b in Hrun2.
  eexists _, _, _, _. split; [exact Hrun1|]. split; [exact Hrun2|].
  split.
  - unfold register. cbn. rewrite list_lookup_insert_eq
      by (rewrite length_insert; lia).
    f_equal. rewrite Zplus_mod_idemp_l. reflexivity.
  - intros k Hk Hne. unfold register. cbn.
    rewrite !list_lookup_insert_ne by lia. reflexivity.
Qed.

Lemma ADD_twice_adds_the_sum_witness :
  exists msg1 appstate1 msg2 appstate2,
    decode_instruction 0x70F0
      (sprite_state (<[0%nat := 0x20]> blank_V) 0 [])
    = Ok (msg1, appstate1)
    /\ decode_instruction 0x7030 appstate1 = Ok (msg2, appstate2)
    /\ register appstate2 0 = Some 0x40.
Proof.
  destruct (ADD_twice_adds_the_sum 0x70F0 0x7030
              (sprite_state (<[0%nat := 0x20]> blank_V) 0 []) 0x20)
    as (msg1 & appstate1 & msg2 & appstate2 & Hrun1 & Hrun2 & Hx & _);
    [vm_compute; reflexivity | reflexivity | reflexivity | reflexivity
     | reflexivity |].
  exists msg1, appstate1, msg2, appstate2.
  split; [exact Hrun1|]. split; [exact Hrun2 | exact Hx].
Defined.

(** ** JP and the next fetch *)

Lemma fetch_instruction_word appstate :
  wf_state appstate = true ->
  PC (chip8_context appstate) + 1 < RAM_SIZE ->
  let c := chip8_context appstate in
  exists hi lo,
    RAM c !! Z.to_nat (PC c) = Some hi
    /\ RAM c !! Z.to_nat (PC c + 1) = Some lo
    /\ fetch_instruction appstate
       = Ok (256 * hi + lo,
             set_chip8_context (set_PC (PC c + 2) c) appstate).
Proof.
  intros Hwf Hpc c. subst c.
  destruct (wf_state_inv _ Hwf) as [Hc _].
  pose proof (wf_PC _ Hc) as HPC. pose proof (wf_RAM_length _ Hc) as HR.
  destruct (array_get_in_bounds arr_RAM (RAM (chip8_context appstate))
              (PC (chip8_context appstate))) as (hi & Hget_hi & Hhi);
    [lia|].
  destruct (array_get_in_bounds arr_RAM (RAM (chip8_context appstate))
              (PC (chip8_context appstate) + 1)) as (lo & Hget_lo & Hlo);
    [lia|].
  exists hi, lo. split; [exact Hhi|]. split; [exact Hlo|].
  unfold fetch_instruction. rewrite Hget_hi, Hget_lo. cbn [bind].
  pose proof (wf_RAM_byte _ _ _ Hc Hhi) as Hhib.
  pose proof (wf_RAM_byte _ _ _ Hc Hlo) as Hlob.
  rewrite lor_shiftl_8 by exact Hlob.
  rewrite !uint16_small by (unfold RAM_SIZE in *; lia). reflexivity.
Qed.

(** X12: JP addr (opcode 0x1NNN) sets the program counter to NNN whatever
    it was and changes nothing else, so the next fetch returns the word
    stored at NNN and NNN + 1; after a jump to 0xFFF, the last byte of
    memory, the next fetch reads past the end of memory. *)
Theorem JP_then_fetch instruction appstate :
  wf_state appstate = true ->
  GET_FIRST_NIBBLE instruction = 0x1 ->
  let c := chip8_context appstate in
  let nnn := GET_SECOND_THIRD_AND_FOURTH_NIBBLES instruction in
  decode_instruction instruction appstate
  = Ok (Jump_to_address nnn, set_chip8_context (set_PC nnn c) appstate)
  /\ (nnn < 0xFFF ->
      exists hi lo,
        RAM c !! Z.to_nat nnn = Some hi
        /\ RAM c !! Z.to_nat (nnn + 1) = Some lo
        /\ fetch_instruction (set_chip8_context (set_PC nnn c) appstate)
           = Ok (256 * hi + lo,
                 set_chip8_context (set_PC (nnn + 2) c) appstate))
  /\ (nnn = 0xFFF ->
      fetch_instruction (set_chip8_context (set_PC nnn c) appstate)
      = Undefined (index_out_of_bounds arr_RAM RAM_SIZE)).
Proof.
  intros Hwf Hop c nnn.
  pose proof (address_operand_range instruction) as Hnnn. fold nnn in Hnnn.
  destruct (wf_state_inv _ Hwf) as [Hc _].
  pose proof (wf_RAM_length _ Hc) as HR. fold c in HR.
  split; [now apply decode_JP|]. split.
  - intros Hlt.
    assert (Hwf1 : wf_state (set_chip8_context (set_PC nnn c) appstate)
                   = true) by (apply wf_state_set_PC; [exact Hwf | lia]).
    destruct (fetch_instruction_word _ Hwf1) as (hi & lo & Hhi & Hlo & Hrun);
      [cbn; unfold RAM_SIZE; lia|].
    exists hi, lo. split; [exact Hhi|]. split; [exact Hlo|]. exact Hrun.
  - intros Heq. unfold fetch_instruction. cbn. rewrite Heq.
    destruct (array_get_in_bounds arr_RAM (RAM c) 0xFFF) as (hi & -> & _);
      [unfold RAM_SIZE in HR; lia|].
    cbn [bind]. unfold array_get.
    destruct (decide (0 <= 4095 + 1)); [|lia].
    rewrite lookup_ge_None_2 by (unfold RAM_SIZE in HR; lia).
    reflexivity.
Qed.

Lemma JP_then_fetch_witness :
  decode_instruction 0x1200 (initial_state [0x12; 0x00] 0)
  = Ok (Jump_to_address 0x200,
        set_chip8_context
          (set_PC 0x200 (chip8_context (initial_state [0x12; 0x00] 0)))
          (initial_state [0x12; 0x00] 0))
  /\ fetch_instruction
       (set_chip8_context
          (set_PC 0x200 (chip8_context (initial_state [0x12; 0x00] 0)))
          (initial_state [0x12; 0x00] 0))
     = Ok (0x1200,
           set_chip8_context
             (set_PC 0x202 (chip8_context (initial_state [0x12; 0x00] 0)))
             (initial_state [0x12; 0x00] 0)).
Proof.
  destruct (JP_then_fetch 0x1200 (initial_state [0x12; 0x00] 0))
    as (Hjp & Hfetch & _); [vm_compute; reflexivity | reflexivity |].
  split; [exact Hjp|].
  destruct Hfetch as (hi & lo & Hhi & Hlo & Hrun); [vm_compute; reflexivity|].
  vm_compute in Hhi. vm_compute in Hlo.
  injection Hhi as <-. injection Hlo as <-. exact Hrun.
Defined.

(** ** Empty sprites, cleared displays, and the order of draws *)

(** X13: a DRW of height 0 is defined whatever the coordinates and the
    index register are; it leaves the display as it was, but still zeroes
    VF and sets [need_redraw]. *)
Theorem DRW_of_height_zero instruction appstate :
  wf_state appstate = true ->
  GET_FIRST_NIBBLE instruction = 0xD ->
  GET_FOURTH_NIBBLE instruction = 0 ->
  exists appstate',
    decode_instruction instruction appstate
    = Ok (Display_sprite 0 (GET_SECOND_NIBBLE instruction)
            (GET_THIRD_NIBBLE instruction), appstate')
    /\ display_cells (chip8_context appstate')
       = display_cells (chip8_context appstate)
    /\ register appstate' 0xF = Some 0
    /\ (forall k, 0 <= k -> k <> 0xF ->
                  register appstate' k = register appstate k)
    /\ need_redraw appstate' = true.
Proof.
  intros Hwf Hop Hn.
  destruct (wf_state_registers appstate (GET_SECOND_NIBBLE instruction)
              Hwf (second_nibble_range instruction)) as (x0 & Hx0 & _).
  destruct (wf_state_registers appstate (GET_THIRD_NIBBLE instruction)
              Hwf (third_nibble_range instruction)) as (y0 & Hy0 & _).
  exists (drawn (display_cells (chip8_context appstate)) appstate).
  rewrite (decode_DRW_start _ _ _ _ Hwf Hop Hx0 Hy0). cbv zeta.
  rewrite Hn. cbn [Z.to_nat for_loop bind].
  split; [reflexivity|]. split; [reflexivity|].
  split; [now apply drawn_VF|]. split; [|reflexivity].
  intros k Hk Hne. unfold register, drawn. cbn.
  apply list_lookup_insert_ne. lia.
Qed.

Lemma DRW_of_height_zero_witness :
  exists appstate',
    decode_instruction 0xD010 (lit_sprite_state 200 100 0xFFF [])
    = Ok (Display_sprite 0 0 1, appstate')
    /\ display_cells (chip8_context appstate') = lit_display
    /\ register appstate' 0xF = Some 0
    /\ need_redraw appstate' = true.
Proof.
  destruct (DRW_of_height_zero 0xD010 (lit_sprite_state 200 100 0xFFF []))
    as (appstate' & Hrun & Hd & HVF & _ & Hr);
    [vm_compute; reflexivity | reflexivity | reflexivity |].
  exists appstate'. split; [exact Hrun|]. split; [exact Hd|].
  split; [exact HVF | exact Hr].
Defined.

(** X14: CLS followed by a DRW inside the display and inside memory shows
    exactly the sprite: the cell at column [x0 + x] of row [y0 + y] is bit
    [7 - x] of sprite byte [y], and every cell outside the sprite's 8 by n
    rectangle is 0. *)
Theorem CLS_then_DRW_shows_the_sprite cls drw appstate x0 y0 :
  wf_state appstate = true ->
  GET_FIRST_NIBBLE cls = 0x0 -> GET_THIRD_NIBBLE cls = 0xE ->
  GET_FIRST_NIBBLE drw = 0xD ->
  register appstate (GET_SECOND_NIBBLE drw) = Some x0 ->
  register appstate (GET_THIRD_NIBBLE drw) = Some y0 ->
  let c := chip8_context appstate in
  let n := GET_FOURTH_NIBBLE drw in
  x0 + 7 <= 63 -> y0 + n - 1 <= 31 -> I c + n <= RAM_SIZE ->
  exists msg1 appstate1 msg2 appstate2,
    decode_instruction cls appstate = Ok (msg1, appstate1)
    /\ decode_instruction drw appstate1 = Ok (msg2, appstate2)
    /\ forall row col,
        0 <= row < 32 -> 0 <= col < 64 ->
        get_display_cell appstate2 row col
        = Ok (if decide (y0 <= row < y0 + n /\ x0 <= col < x0 + 8)
              then sprite_bit (RAM c) (I c) (row - y0) (col - x0)
              else 0).
Proof.
  intros Hwf Hc1 Hc3 Hop Hx0 Hy0 c n Hx Hy Hi. subst c n.
  pose proof (wf_state_cleared _ Hwf) as Hwf1.
  destruct (decode_DRW_in_bounds drw (cleared appstate) x0 y0 Hwf1 Hop
              Hx0 Hy0 Hx Hy Hi) as (cells' & Hrun & _ & Hlook).
  eexists _, _, _, _. split; [now apply decode_CLS|].
  split; [exact Hrun|].
  intros row col Hrow Hcol.
  destruct (drawn_cell drw (cleared appstate) x0 y0 Hwf1 Hx0 Hy0 Hx cells'
              row col Hlook Hrow Hcol) as (old & Hold & Hnew).
  rewrite cleared_cell in Hold by assumption. injection Hold as <-.
  rewrite Hnew. cbn [cleared chip8_context set_need_redraw set_chip8_context
                     set_display_cells RAM I].
  destruct (decide _); reflexivity.
Qed.

Lemma CLS_then_DRW_shows_the_sprite_witness :
  exists msg1 appstate1 msg2 appstate2,
    decode_instruction 0x00E0 (lit_sprite_state 8 2 0x300 [0x80]) 
    = Ok (msg1, appstate1)
    /\ decode_instruction 0xD011 appstate1 = Ok (msg2, appstate2)
    /\ get_display_cell appstate2 2 8 = Ok 1
    /\ get_display_cell appstate2 2 9 = Ok 0
    /\ get_display_cell appstate2 0 0 = Ok 0.
Proof.
  destruct (CLS_then_DRW_shows_the_sprite 0x00E0 0xD011
              (lit_sprite_state 8 2 0x300 [0x80]) 8 2)
    as (msg1 & appstate1 & msg2 & appstate2 & Hrun1 & Hrun2 & Hcells);
    [vm_compute; reflexivity | reflexivity | reflexivity | reflexivity
     | reflexivity | reflexivity | vm_compute; discriminate
     | vm_compute; discriminate | vm_compute; discriminate |].
  exists msg1, appstate1, msg2, appstate2.
  split; [exact Hrun1|]. split; [exact Hrun2|].
  repeat split; rewrite Hcells by lia; vm_compute; reflexivity.
Defined.

(** X15: two DRWs inside the display and inside memory can be executed in
    either order: both orders are defined and end in the same state,
    display included (provided, as for a repeated draw, that a coordinate
    register that is VF holds 0). *)
Theorem DRW_order_is_irrelevant drw1 drw2 appstate x1 y1 x2 y2 :
  wf_state appstate = true ->
  GET_FIRST_NIBBLE drw1 = 0xD -> GET_FIRST_NIBBLE drw2 = 0xD ->
  register appstate (GET_SECOND_NIBBLE drw1) = Some x1 ->
  register appstate (GET_THIRD_NIBBLE drw1) = Some y1 ->
  register appstate (GET_SECOND_NIBBLE drw2) = Some x2 ->
  register appstate (GET_THIRD_NIBBLE drw2) = Some y2 ->
  let c := chip8_context appstate in
  x1 + 7 <= 63 -> y1 + GET_FOURTH_NIBBLE drw1 - 1 <= 31 ->
  I c + GET_FOURTH_NIBBLE drw1 <= RAM_SIZE ->
  x2 + 7 <= 63 -> y2 + GET_FOURTH_NIBBLE drw2 - 1 <= 31 ->
  I c + GET_FOURTH_NIBBLE drw2 <= RAM_SIZE ->
  (GET_SECOND_NIBBLE drw1 = 0xF -> x1 = 0) ->
  (GET_THIRD_NIBBLE drw1 = 0xF -> y1 = 0) ->
  (GET_SECOND_NIBBLE drw2 = 0xF -> x2 = 0) ->
  (GET_THIRD_NIBBLE drw2 = 0xF -> y2 = 0) ->
  exists msg1 msg2 after1 after2 final,
    decode_instruction drw1 appstate = Ok (msg1, after1)
    /\ decode_instruction drw2 after1 = Ok (msg2, final)
    /\ decode_instruction drw2 appstate = Ok (msg2, after2)
    /\ decode_instruction drw1 after2 = Ok (msg1, final).
Proof.
  intros Hwf Hop1 Hop2 Hx1 Hy1 Hx2 Hy2 c Hbx1 Hby1 Hbi1 Hbx2 Hby2 Hbi2
    HF1 HF2 HF3 HF4. subst c.
  pose proof (second_nibble_range drw1). pose proof (third_nibble_range drw1).
  pose proof (second_nibble_range drw2). pose proof (third_nibble_range drw2).
  destruct (decode_DRW_in_bounds _ _ _ _ Hwf Hop1 Hx1 Hy1 Hbx1 Hby1 Hbi1)
    as (cells1 & Hrun1 & Hlen1 & Hlook1).
  destruct (decode_DRW_in_bounds _ _ _ _ Hwf Hop2 Hx2 Hy2 Hbx2 Hby2 Hbi2)
    as (cells2 & Hrun2 & Hlen2 & Hlook2).
  pose proof (drawn_wf _ _ _ _ Hwf Hx1 Hy1 Hbx1 cells1 Hlen1 Hlook1) as Hwf1.
  pose proof (drawn_wf _ _ _ _ Hwf Hx2 Hy2 Hbx2 cells2 Hlen2 Hlook2) as Hwf2.
  assert (Hreg : forall cells' k v,
             0 <= k -> register appstate k = Some v -> (k = 0xF -> v = 0) ->
             register (drawn cells' appstate) k = Some v).
  { intros cells' k v Hk Hv HF.
    rewrite drawn_register; [exact Hv | exact Hwf | exact Hk |].
    intros Heq. rewrite Hv. f_equal. auto. }
  destruct (decode_DRW_in_bounds drw2 (drawn cells1 appstate) x2 y2 Hwf1 Hop2
              (Hreg cells1 (GET_SECOND_NIBBLE drw2) x2 ltac:(lia) Hx2 HF3)
              (Hreg cells1 (GET_THIRD_NIBBLE drw2) y2 ltac:(lia) Hy2 HF4)
              Hbx2 Hby2 Hbi2) as (cells12 & Hrun12 & _ & Hlook12).
  destruct (decode_DRW_in_bounds drw1 (drawn cells2 appstate) x1 y1 Hwf2 Hop1
              (Hreg cells2 (GET_SECOND_NIBBLE drw1) x1 ltac:(lia) Hx1 HF1)
              (Hreg cells2 (GET_THIRD_NIBBLE drw1) y1 ltac:(lia) Hy1 HF2)
              Hbx1 Hby1 Hbi1) as (cells21 & Hrun21 & _ & Hlook21).
  assert (Hcells : cells12 = cells21).
  { apply list_eq. intros r. rewrite Hlook12, Hlook21. cbn.
    rewrite Hlook1, Hlook2.
    destruct (decide (y2 <= _ < _)); destruct (decide (y1 <= _ < _));
      try reflexivity.
    destruct (display_cells (chip8_context appstate) !! r) as [w|];
      [|reflexivity].
    cbn. f_equal. rewrite !Z.lxor_assoc. f_equal. apply Z.lxor_comm. }
  eexists _, _, _, _, _. split; [exact Hrun1|]. split; [exact Hrun12|].
  split; [exact Hrun2|]. rewrite Hrun21, <- Hcells. reflexivity.
Qed.

Lemma DRW_order_is_irrelevant_witness :
  exists msg1 msg2 after1 after2 final,
    decode_instruction 0xD012 (lit_sprite_state 56 30 0x300 [0xA5; 0x3C])
    = Ok (msg1, after1)
    /\ decode_instruction 0xD111 after1 = Ok (msg2, final)
    /\ decode_instruction 0xD111 (lit_sprite_state 56 30 0x300 [0xA5; 0x3C])
       = Ok (msg2, after2)
    /\ decode_instruction 0xD012 after2 = Ok (msg1, final).
Proof.
  apply (DRW_order_is_irrelevant 0xD012 0xD111
           (lit_sprite_state 56 30 0x300 [0xA5; 0x3C]) 56 30 30 30);
    first [ reflexivity | discriminate
          | vm_compute; reflexivity | vm_compute; discriminate ].
Defined.

(** ** Loading bytes into memory *)

Lemma load_length addr bytes ram :
  0 <= addr ->
  addr + Z.of_nat (length bytes) <= Z.of_nat (length ram) ->
  length (load addr bytes ram) = length ram.
Proof.
  intros H0 Hfit. unfold load.
  rewrite !length_app, length_take, length_drop. lia.
Qed.

Lemma load_lookup_inside addr bytes ram k :
  0 <= addr ->
  addr + Z.of_nat (length bytes) <= Z.of_nat (length ram) ->
  (k < length bytes)%nat ->
  load addr bytes ram !! (Z.to_nat addr + k)%nat = bytes !! k.
Proof.
  intros H0 Hfit Hk. unfold load.
  rewrite lookup_app_r by (rewrite length_take; lia).
  rewrite length_take, lookup_app_l by (rewrite ?length_take; lia).
  f_equal. lia.
Qed.

Lemma load_lookup_outside addr bytes ram k :
  0 <= addr ->
  addr + Z.of_nat (length bytes) <= Z.of_nat (length ram) ->
  (k < Z.to_nat addr \/ Z.to_nat addr + length bytes <= k)%nat ->
  load addr bytes ram !! k = ram !! k.
Proof.
  intros H0 Hfit [Hk|Hk]; unfold load.
  - rewrite lookup_app_l by (rewrite length_take; lia).
    apply lookup_take_lt. exact Hk.
  - rewrite lookup_app_r by (rewrite length_take; lia).
    rewrite length_take.
    rewrite lookup_app_r by lia.
    rewrite lookup_drop. f_equal. lia.
Qed.

Lemma load_bytes addr bytes ram :
  0 <= addr ->
  addr + Z.of_nat (length bytes) <= Z.of_nat (length ram) ->
  forallb is_uint8 ram = true -> forallb is_uint8 bytes = true ->
  forallb is_uint8 (load addr bytes ram) = true.
Proof.
  intros H0 Hfit Hram Hbytes. apply forallb_of_lookup. intros k x Hk.
  destruct (decide (Z.to_nat addr <= k < Z.to_nat addr + length bytes)%nat)
    as [Hin|Hout].
  - replace k with (Z.to_nat addr + (k - Z.to_nat addr))%nat in Hk by lia.
    rewrite load_lookup_inside in Hk by lia.
    exact (forallb_lookup _ _ _ _ Hbytes Hk).
  - rewrite load_lookup_outside in Hk by lia.
    exact (forallb_lookup _ _ _ _ Hram Hk).
Qed.

Lemma int32_small z : 0 <= z < 2 ^ 31 -> int32 z = z.
Proof.
  intros Hz. unfold int32.
  assert (H31 : 2 ^ 31 + 2 ^ 31 = 2 ^ 32) by reflexivity.
  rewrite Z.mod_small by lia. lia.
Qed.

Lemma size_t_small z : 0 <= z < 2 ^ 31 -> size_t z = z.
Proof.
  intros Hz. unfold size_t. apply Z.mod_small.
  assert (H31 : 2 ^ 31 < 2 ^ 64) by reflexivity. lia.
Qed.

(** ** Scanning the arguments *)

Lemma scan_arguments_no_option args address :
  Forall (fun arg => is_rom_option arg = false) args ->
  scan_arguments args address
  = (address, replicate (length args) wrong_arguments).
Proof.
  induction 1 as [|arg rest Harg Hrest IH]; [reflexivity|].
  cbn [scan_arguments]. rewrite Harg, IH.
  destruct rest; reflexivity.
Qed.

Lemma scan_arguments_option flag name rest address :
  is_rom_option flag = true ->
  scan_arguments (flag :: name :: rest) address
  = scan_arguments rest (Some name).
Proof. intros Hflag. cbn [scan_arguments]. now rewrite Hflag. Qed.

(** ** [read_rom_file] *)

Lemma read_rom_file_selected files argv appstate argv2 name output :
  argv_2 argv = inr argv2 ->
  scan_arguments (drop 1 argv) argv2 = (Some name, output) ->
  read_rom_file files argv appstate
  = match files name with
    | None => (output ++ [cannot_open name], inl (null_stream name))
    | Some contents =>
        let rom_file_size := int32 (Z.of_nat (length contents)) in
        if decide (ROM_MAX_SIZE < rom_file_size) then
          (output ++ [rom_too_big], inl (closed_stream name))
        else
          let bytes := take (Z.to_nat (size_t rom_file_size)) contents in
          let ram := RAM (chip8_context appstate) in
          if decide (0x200 + Z.of_nat (length bytes)
                     <= Z.of_nat (length ram)) then
            (output, inr (with_RAM (load 0x200 bytes ram) appstate))
          else (output, inl (RAM_overrun (Z.of_nat (length bytes))))
    end.
Proof. intros H2 Hscan. unfold read_rom_file. now rewrite H2, Hscan. Qed.

Lemma read_rom_file_fits files argv appstate argv2 name output contents :
  argv_2 argv = inr argv2 ->
  scan_arguments (drop 1 argv) argv2 = (Some name, output) ->
  files name = Some contents ->
  Z.of_nat (length contents) <= ROM_MAX_SIZE ->
  Z.of_nat (length (RAM (chip8_context appstate))) = RAM_SIZE ->
  read_rom_file files argv appstate
  = (output,
     inr (with_RAM (load 0x200 contents (RAM (chip8_context appstate)))
            appstate)).
Proof.
  intros H2 Hscan Hfile Hsize Hram.
  rewrite (read_rom_file_selected _ _ _ _ _ _ H2 Hscan), Hfile. cbv zeta.
  unfold ROM_MAX_SIZE, RAM_SIZE in *.
  assert (H31 : 3584 < 2 ^ 31) by reflexivity.
  rewrite int32_small, size_t_small by lia.
  destruct (decide _); [lia|].
  rewrite Nat2Z.id, firstn_all.
  destruct (decide _); [reflexivity | lia].
Qed.

(** X16: called as [prog -r name ...] or [prog --rom name ...], with no
    further option among the other arguments, and [name] a file of at
    most 3584 bytes, [read_rom_file] copies the file to memory from
    address 0x200 on: byte [k] of the file is at address [0x200 + k], every
    other byte of memory and the rest of the state are unchanged, and one
    line is printed for each of the other arguments. *)
Theorem read_rom_file_loads_the_rom files prog flag name rest contents
  appstate :
  is_rom_option flag = true ->
  Forall (fun arg => is_rom_option arg = false) rest ->
  files name = Some contents ->
  Z.of_nat (length contents) <= ROM_MAX_SIZE ->
  Z.of_nat (length (RAM (chip8_context appstate))) = RAM_SIZE ->
  exists appstate',
    read_rom_file files (prog :: flag :: name :: rest) appstate
    = (replicate (length rest) wrong_arguments, inr appstate')
    /\ appstate' = with_RAM (RAM (chip8_context appstate')) appstate
    /\ length (RAM (chip8_context appstate'))
       = length (RAM (chip8_context appstate))
    /\ (forall k, (k < length contents)%nat ->
                  RAM (chip8_context appstate') !! (512 + k)%nat
                  = contents !! k)
    /\ (forall k, (k < 512 \/ 512 + length contents <= k)%nat ->
                  RAM (chip8_context appstate') !! k
                  = RAM (chip8_context appstate) !! k).
Proof.
  intros Hflag Hrest Hfile Hsize Hram.
  assert (Hscan : scan_arguments (drop 1 (prog :: flag :: name :: rest))
                    (Some name)
                  = (Some name, replicate (length rest) wrong_arguments)).
  { cbn [drop]. rewrite scan_arguments_option by exact Hflag.
    now apply scan_arguments_no_option. }
  eexists. split.
  - exact (read_rom_file_fits files (prog :: flag :: name :: rest) appstate
             (Some name) name _ contents eq_refl Hscan Hfile Hsize Hram).
  - unfold ROM_MAX_SIZE, RAM_SIZE in *. cbn.
    split; [reflexivity|]. split; [apply load_length; lia|]. split.
    + intros k Hk. apply (load_lookup_inside 0x200); lia.
    + intros k Hk. apply (load_lookup_outside 0x200); lia.
Qed.

Lemma read_rom_file_loads_the_rom_witness :
  exists appstate',
    read_rom_file
      (fun name => if String.eqb name "pong.ch8" then Some [0x00; 0xE0; 0x12]
                   else None)
      ["chips"; "--rom"; "pong.ch8"; "-v"]%string zeroed_state
    = ([wrong_arguments], inr appstate')
    /\ RAM (chip8_context appstate') !! 513%nat = Some 0xE0
    /\ RAM (chip8_context appstate') !! 515%nat = Some 0.
Proof.
  destruct (read_rom_file_loads_the_rom
              (fun name => if String.eqb name "pong.ch8"
                           then Some [0x00; 0xE0; 0x12] else None)
              "chips" "--rom" "pong.ch8" ["-v"%string] [0x00; 0xE0; 0x12]
              zeroed_state)
    as (appstate' & Hrun & _ & _ & Hin & Hout);
    [reflexivity | repeat constructor | reflexivity
     | vm_compute; discriminate | reflexivity |].
  exists appstate'. split; [exact Hrun|]. split.
  - apply (Hin 1%nat). cbn. lia.
  - rewrite (Hout 515%nat) by (cbn; lia). reflexivity.
Defined.

(** X17: a file that cannot be opened is reported and its null stream is
    then used; a file of more than 3584 bytes is reported and closed, and
    the closed stream is then read from.  Either way the behaviour is
    undefined from there on and no state with a ROM in it is produced. *)
Theorem read_rom_file_bad_file files prog flag name rest appstate :
  is_rom_option flag = true ->
  Forall (fun arg => is_rom_option arg = false) rest ->
  (files name = None ->
   read_rom_file files (prog :: flag :: name :: rest) appstate
   = (replicate (length rest) wrong_arguments ++ [cannot_open name],
      inl (null_stream name)))
  /\ (forall contents,
        files name = Some contents ->
        ROM_MAX_SIZE < Z.of_nat (length contents) < 2 ^ 31 ->
        read_rom_file files (prog :: flag :: name :: rest) appstate
        = (replicate (length rest) wrong_arguments ++ [rom_too_big],
           inl (closed_stream name))).
Proof.
  intros Hflag Hrest.
  assert (Hscan : scan_arguments (drop 1 (prog :: flag :: name :: rest))
                    (Some name)
                  = (Some name, replicate (length rest) wrong_arguments)).
  { cbn [drop]. rewrite scan_arguments_option by exact Hflag.
    now apply scan_arguments_no_option. }
  pose proof (read_rom_file_selected files (prog :: flag :: name :: rest)
                appstate (Some name) name _ eq_refl Hscan) as Hrun.
  split.
  - intros Hfile. now rewrite Hrun, Hfile.
  - intros contents Hfile Hsize. rewrite Hrun, Hfile. cbv zeta.
    unfold ROM_MAX_SIZE in *. rewrite int32_small by lia.
    destruct (decide _); [reflexivity | lia].
Qed.

Lemma read_rom_file_bad_file_witness :
  read_rom_file (fun _ => None) ["chips"; "-r"; "pong.ch8"]%string
    zeroed_state
  = ([cannot_open "pong.ch8"], inl (null_stream "pong.ch8"))
  /\ read_rom_file (fun _ => Some (replicate 3585 0))
       ["chips"; "-r"; "pong.ch8"]%string zeroed_state
     = ([rom_too_big], inl (closed_stream "pong.ch8")).
Proof.
  destruct (read_rom_file_bad_file (fun _ => None) "chips" "-r" "pong.ch8" []
              zeroed_state eq_refl ltac:(constructor)) as [Hmissing _].
  destruct (read_rom_file_bad_file (fun _ => Some (replicate 3585 0))
              "chips" "-r" "pong.ch8" [] zeroed_state eq_refl
              ltac:(constructor)) as [_ Hbig].
  split; [exact (Hmissing eq_refl)|].
  apply (Hbig (replicate 3585 0) eq_refl).
  rewrite length_replicate. vm_compute. split; reflexivity.
Defined.

Lemma scan_arguments_address_aux n : forall args address address' output,
  (length args <= n)%nat ->
  scan_arguments args address = (address', output) ->
  address' = address \/ exists name, address' = Some name /\ name ∈ args.
Proof.
  induction n as [|n IH]; intros [|arg rest] address address' output Hlen
    Hscan; cbn in Hlen; try lia;
    try (injection Hscan as <- <-; now left).
  cbn [scan_arguments] in Hscan.
  assert (Hskip : forall a o,
             scan_arguments rest address = (a, o) ->
             a = address \/ exists name, a = Some name /\ name ∈ arg :: rest).
  { intros a o Ha. apply IH in Ha as [->|(name & -> & Hin)]; [now left| |lia].
    right. exists name. split; [reflexivity|]. now apply list_elem_of_further. }
  destruct (is_rom_option arg).
  - destruct rest as [|next rest'].
    + injection Hscan as <- <-. now left.
    + apply IH in Hscan as [->|(name & -> & Hin)]; [| |cbn in Hlen; lia].
      * right. exists next. split; [reflexivity|].
        apply list_elem_of_further, list_elem_of_here.
      * right. exists name. split; [reflexivity|].
        now do 2 apply list_elem_of_further.
  - destruct (scan_arguments rest address) as [a o] eqn:Ha.
    injection Hscan as <- <-. now apply (Hskip a o).
Qed.

Lemma argv_2_elem argv arg : argv_2 argv = inr (Some arg) -> arg ∈ argv.
Proof.
  unfold argv_2. destruct (argv !! 2%nat) as [a|] eqn:Ha.
  - intros [= ->]. now apply list_elem_of_lookup_2 in Ha.
  - destruct (decide _); discriminate.
Qed.

Lemma int32_range z : - 2 ^ 31 <= int32 z < 2 ^ 31.
Proof.
  unfold int32.
  pose proof (Z.mod_pos_bound (z + 2 ^ 31) (2 ^ 32) ltac:(reflexivity)).
  assert (H31 : 2 ^ 31 + 2 ^ 31 = 2 ^ 32) by reflexivity. lia.
Qed.

Lemma size_t_negative z : - 2 ^ 31 <= z < 0 -> size_t z = z + 2 ^ 64.
Proof.
  intros Hz. unfold size_t. rewrite <- (Z.mod_add z 1 (2 ^ 64)) by lia.
  assert (H31 : 2 ^ 31 < 2 ^ 64) by reflexivity.
  apply Z.mod_small. lia.
Qed.

Lemma read_rom_file_Ok_inv files argv appstate output
  appstate' :
  Z.of_nat (length (RAM (chip8_context appstate))) = RAM_SIZE ->
  read_rom_file files argv appstate = (output, inr appstate') ->
  exists name contents n,
    name ∈ argv /\ files name = Some contents
    /\ (n <= 3584)%nat
    /\ (Z.of_nat (length contents) < 2 ^ 31 -> n = length contents)
    /\ appstate'
       = with_RAM (load 0x200 (take n contents)
                     (RAM (chip8_context appstate))) appstate
    /\ length (RAM (chip8_context appstate'))
       = length (RAM (chip8_context appstate))
    /\ forall k, (k < 512 \/ 512 + n <= k)%nat ->
                 RAM (chip8_context appstate') !! k
                 = RAM (chip8_context appstate) !! k.
Proof.
  unfold read_rom_file. intros Hram Hrun.
  destruct (argv_2 argv) as [fault|argv2] eqn:H2; [discriminate|].
  destruct (scan_arguments (drop 1 argv) argv2) as [address out] eqn:Hscan.
  destruct address as [name|]; [|discriminate].
  destruct (files name) as [contents|] eqn:Hfile; [|discriminate].
  cbv zeta in Hrun.
  destruct (decide (ROM_MAX_SIZE < _)) as [|Hsize]; [discriminate|].
  destruct (decide (0x200 + _ <= _)) as [Hfit|]; [|discriminate].
  injection Hrun as <- <-.
  unfold ROM_MAX_SIZE, RAM_SIZE in *.
  assert (Hname : name ∈ argv).
  { apply (scan_arguments_address_aux _ _ _ _ _ (le_n _)) in Hscan
      as [Heq|(name' & [= ->] & Hin)].
    - apply argv_2_elem. now rewrite H2, Heq.
    - apply (subseteq_drop 1 argv). exact Hin. }
  pose proof (int32_range (Z.of_nat (length contents))) as Hrange.
  assert (H31 : 3584 < 2 ^ 31) by reflexivity.
  assert (H64 : 2 ^ 31 < 2 ^ 64) by reflexivity.
  set (size := int32 (Z.of_nat (length contents))) in *.
  assert (Hpos : 0 <= size).
  { destruct (Z.lt_ge_cases size 0) as [Hneg|]; [exfalso | assumption].
    assert (Hlen : 2 ^ 31 <= Z.of_nat (length contents)).
    { destruct (Z.lt_ge_cases (Z.of_nat (length contents)) (2 ^ 31));
        [|assumption].
      unfold size in Hneg. rewrite int32_small in Hneg by lia. lia. }
    rewrite length_take, size_t_negative in Hfit by lia. lia. }
  rewrite size_t_small in * by lia.
  exists name, contents, (Z.to_nat size).
  split; [exact Hname|]. split; [exact Hfile|]. split; [lia|].
  split; [|split; [reflexivity|]].
  - intros Hsmall. unfold size. rewrite int32_small by lia. lia.
  - rewrite length_take in Hfit. cbn. split.
    + apply load_length; [lia|]. rewrite length_take. lia.
    + intros k Hk. apply (load_lookup_outside 0x200);
        [lia | rewrite length_take; lia |].
      rewrite length_take.
      destruct (Z.lt_ge_cases (Z.of_nat (length contents)) size)
        as [Hshort|Hlong]; [|lia].
      exfalso. unfold size in Hshort.
      destruct (Z.lt_ge_cases (Z.of_nat (length contents)) (2 ^ 31));
        [rewrite int32_small in Hshort by lia; lia | lia].
Qed.

(** X18: whatever the arguments and the files are, when [read_rom_file]
    returns a state, that state is the old one with the first [n] bytes, at
    most 3584 of them, of a file named on the command line copied to
    addresses [0x200 .. 0x200 + n - 1]; memory keeps its size and nothing
    below 0x200 or from [0x200 + n] on is written.  For a file of less than
    2^31 bytes [n] is the size of the file. *)
Theorem read_rom_file_writes_the_ROM_area_only files argv appstate output
  appstate' :
  Z.of_nat (length (RAM (chip8_context appstate))) = RAM_SIZE ->
  read_rom_file files argv appstate = (output, inr appstate') ->
  exists name contents n,
    name ∈ argv /\ files name = Some contents
    /\ (n <= 3584)%nat
    /\ (Z.of_nat (length contents) < 2 ^ 31 -> n = length contents)
    /\ appstate'
       = with_RAM (load 0x200 (take n contents)
                     (RAM (chip8_context appstate))) appstate
    /\ length (RAM (chip8_context appstate'))
       = length (RAM (chip8_context appstate))
    /\ forall k, (k < 512 \/ 512 + n <= k)%nat ->
                 RAM (chip8_context appstate') !! k
                 = RAM (chip8_context appstate) !! k.
Proof.
  intros Hram Hrun. exact (read_rom_file_Ok_inv _ _ _ _ _ Hram Hrun).
Qed.

Lemma read_rom_file_writes_the_ROM_area_only_witness :
  exists output appstate',
    read_rom_file
      (fun name => if String.eqb name "pong.ch8" then Some [0x00; 0xE0; 0x12]
                   else None)
      ["chips"; "x"; "pong.ch8"]%string zeroed_state
    = (output, inr appstate')
    /\ length (RAM (chip8_context appstate'))
       = length (RAM (chip8_context zeroed_state))
    /\ RAM (chip8_context appstate') !! 511%nat = Some 0.
Proof.
  assert (Hrun : exists output appstate',
             read_rom_file
               (fun name => if String.eqb name "pong.ch8"
                            then Some [0x00; 0xE0; 0x12] else None)
               ["chips"; "x"; "pong.ch8"]%string zeroed_state
             = (output, inr appstate'))
    by (vm_compute; eexists _, _; reflexivity).
  destruct Hrun as (output & appstate' & Hrun).
  exists output, appstate'. split; [exact Hrun|].
  destruct (read_rom_file_writes_the_ROM_area_only _ _ zeroed_state _ _
              eq_refl Hrun)
    as (name & contents & n & _ & _ & _ & _ & _ & Hlen & Hout).
  split; [exact Hlen|]. rewrite Hout by lia. reflexivity.
Defined.

(** X19: without [-r] or [--rom] among the arguments the file name is
    [argv[2]], the second argument after the program name, and every
    argument is reported: with two or more arguments the second one is
    opened; with a single argument, whatever it is, the name passed to
    [fopen] is the null pointer that ends [argv]; with none, [argv[2]] is
    read past the end of [argv]. *)
Theorem read_rom_file_without_option files prog appstate :
  (forall first second rest contents,
      Forall (fun arg => is_rom_option arg = false)
        (first :: second :: rest) ->
      files second = Some contents ->
      Z.of_nat (length contents) <= ROM_MAX_SIZE ->
      Z.of_nat (length (RAM (chip8_context appstate))) = RAM_SIZE ->
      read_rom_file files (prog :: first :: second :: rest) appstate
      = (replicate (2 + length rest) wrong_arguments,
         inr (with_RAM (load 0x200 contents (RAM (chip8_context appstate)))
                appstate)))
  /\ (forall first,
        read_rom_file files [prog; first] appstate
        = ([wrong_arguments], inl null_file_name))
  /\ read_rom_file files [prog] appstate = ([], inl (argv_out_of_bounds 2)).
Proof.
  split; [|split].
  - intros first second rest contents Hargs Hfile Hsize Hram.
    apply (read_rom_file_fits files _ appstate (Some second) second);
      [reflexivity | | exact Hfile | exact Hsize | exact Hram].
    cbn [drop]. now rewrite scan_arguments_no_option.
  - intros first. unfold read_rom_file. cbn.
    destruct (is_rom_option first); reflexivity.
  - reflexivity.
Qed.

Lemma read_rom_file_without_option_witness :
  (exists appstate',
      read_rom_file (fun _ => Some [0x12; 0x00])
        ["chips"; "x"; "pong.ch8"]%string zeroed_state
      = ([wrong_arguments; wrong_arguments], inr appstate'))
  /\ read_rom_file (fun _ => Some [0x12; 0x00])
       ["chips"; "pong.ch8"]%string zeroed_state
     = ([wrong_arguments], inl null_file_name).
Proof.
  destruct (read_rom_file_without_option (fun _ => Some [0x12; 0x00])
              "chips" zeroed_state) as (Htwo & Hone & _).
  split; [|exact (Hone "pong.ch8"%string)].
  eexists.
  apply (Htwo "x" "pong.ch8" [] [0x12; 0x00])%string;
    [repeat constructor | reflexivity | vm_compute; discriminate
     | reflexivity].
Defined.

(** ** Start-up *)

Lemma wf_initial_state rom now :
  Z.of_nat (length rom) <= ROM_MAX_SIZE ->
  forallb is_uint8 rom = true ->
  wf_state (initial_state rom (uint64 now)) = true.
Proof.
  intros Hsize Hbytes. unfold ROM_MAX_SIZE in Hsize.
  assert (Hlen : length (load 0x200 rom blank_RAM) = length blank_RAM)
    by (apply load_length; [lia|];
        unfold blank_RAM; rewrite length_replicate;
        change (Z.of_nat (Z.to_nat RAM_SIZE)) with 4096; lia).
  assert (Hload : forallb is_uint8 (load 0x200 rom blank_RAM) = true).
  { apply load_bytes; [lia | | | exact Hbytes].
    - unfold blank_RAM. rewrite length_replicate.
      change (Z.of_nat (Z.to_nat RAM_SIZE)) with 4096. lia.
    - now apply forallb_replicate_true. }
  unfold wf_state, wf_context, initial_state.
  cbn [chip8_context RAM PC I delay_timer sound_timer display_cells V
       last_step].
  change ROM_GAME_ADDRESS_START with 0x200.
  rewrite Hlen, Hload.
  assert (Hnow : is_uint64 (uint64 now) = true)
    by (apply is_uint64_spec, Z.mod_pos_bound; reflexivity).
  rewrite Hnow. reflexivity.
Qed.

Lemma SDL_AppInit_continue_inv h argv output result :
  (forall name contents,
      host_files h name = Some contents -> forallb is_uint8 contents = true) ->
  SDL_AppInit h argv = (output, inr (SDL_APP_CONTINUE, result)) ->
  exists name contents n,
    name ∈ argv /\ host_files h name = Some contents
    /\ (n <= 3584)%nat
    /\ (Z.of_nat (length contents) < 2 ^ 31 -> n = length contents)
    /\ result
       = Some (initial_state (take n contents) (uint64 (SDL_GetTicks h)))
    /\ wf_state (initial_state (take n contents) (uint64 (SDL_GetTicks h)))
       = true.
Proof.
  intros Hfiles. unfold SDL_AppInit.
  destruct (SDL_Init_ok h); [|discriminate].
  destruct (SDL_calloc_ok h); [|discriminate].
  destruct (SDL_CreateWindowAndRenderer_ok h); [|discriminate].
  cbn [negb]. cbv zeta.
  destruct (read_rom_file _ _ _) as [out [fault|as3]] eqn:Hread;
    [discriminate|].
  intros [= <- <-].
  apply read_rom_file_Ok_inv in Hread
    as (name & contents & n & Hname & Hfile & Hn & Hsmall & -> & _);
    [|reflexivity].
  exists name, contents, n.
  split; [exact Hname|]. split; [exact Hfile|]. split; [exact Hn|].
  split; [exact Hsmall|]. split; [reflexivity|].
  apply wf_initial_state.
  - rewrite length_take. unfold ROM_MAX_SIZE. lia.
  - apply forallb_of_lookup. intros k x Hk.
    apply lookup_take_Some in Hk as [Hk _].
    exact (forallb_lookup _ _ _ _ (Hfiles _ _ Hfile) Hk).
Qed.

(** X20: [SDL_AppInit] asks to continue only when SDL, the allocation and
    the window all succeeded and a ROM was read; the machine it leaves is
    then the reset state (registers, index register, timers and display
    zero, the program counter at 0x200, [need_redraw] clear) with the
    ROM's bytes, at most 3584, from address 0x200 on and [last_step] at the
    clock reading, and it is well formed. *)
Theorem SDL_AppInit_continue h argv output result :
  (forall name contents,
      host_files h name = Some contents -> forallb is_uint8 contents = true) ->
  SDL_AppInit h argv = (output, inr (SDL_APP_CONTINUE, result)) ->
  SDL_Init_ok h = true /\ SDL_calloc_ok h = true
  /\ SDL_CreateWindowAndRenderer_ok h = true
  /\ exists name contents n,
      name ∈ argv /\ host_files h name = Some contents
      /\ (n <= 3584)%nat
      /\ (Z.of_nat (length contents) < 2 ^ 31 -> n = length contents)
      /\ result
         = Some (initial_state (take n contents) (uint64 (SDL_GetTicks h)))
      /\ wf_state (initial_state (take n contents) (uint64 (SDL_GetTicks h)))
         = true.
Proof.
  intros Hfiles Hrun.
  assert (Hok : SDL_Init_ok h = true /\ SDL_calloc_ok h = true
                /\ SDL_CreateWindowAndRenderer_ok h = true).
  { revert Hrun. unfold SDL_AppInit.
    destruct (SDL_Init_ok h); [|discriminate].
    destruct (SDL_calloc_ok h); [|discriminate].
    destruct (SDL_CreateWindowAndRenderer_ok h); [auto | discriminate]. }
  destruct Hok as (H1 & H2 & H3).
  split; [exact H1|]. split; [exact H2|]. split; [exact H3|].
  exact (SDL_AppInit_continue_inv _ _ _ _ Hfiles Hrun).
Qed.

Lemma pong_files_bytes name contents :
  pong_files name = Some contents -> forallb is_uint8 contents = true.
Proof.
  unfold pong_files. destruct (String.eqb name "pong.ch8");
    [intros [= <-]; reflexivity | discriminate].
Qed.

Lemma SDL_AppInit_continue_witness :
  exists output,
    SDL_AppInit pong_host ["chips"; "-r"; "pong.ch8"]%string
    = (output,
       inr (SDL_APP_CONTINUE, Some (initial_state [0x00; 0xE0; 0x12] 1000))).
Proof.
  assert (Hrun : exists output result,
             SDL_AppInit pong_host ["chips"; "-r"; "pong.ch8"]%string
             = (output, inr (SDL_APP_CONTINUE, result)))
    by (vm_compute; eexists _, _; reflexivity).
  destruct Hrun as (output & result & Hrun). exists output.
  destruct (SDL_AppInit_continue pong_host _ _ _ pong_files_bytes Hrun)
    as (_ & _ & _ & name & contents & n & _ & Hfile & _ & Hsmall & Heq & _).
  rewrite Hrun, Heq. cbn in Hfile. unfold pong_files in Hfile.
  destruct (String.eqb name "pong.ch8"); [|discriminate].
  injection Hfile as <-. rewrite (Hsmall ltac:(vm_compute; reflexivity)).
  reflexivity.
Defined.

(** X21: after a start-up that continues, with a ROM of less than 2^31
    bytes whose first two bytes are [b0] and [b1], the first fetch returns
    the word [256 * b0 + b1] and leaves the program counter at 0x202. *)
Theorem SDL_AppInit_then_fetch h argv output appstate :
  (forall name contents,
      host_files h name = Some contents -> forallb is_uint8 contents = true) ->
  SDL_AppInit h argv = (output, inr (SDL_APP_CONTINUE, Some appstate)) ->
  exists name contents,
    name ∈ argv /\ host_files h name = Some contents
    /\ forall b0 b1 rest,
        contents = b0 :: b1 :: rest ->
        Z.of_nat (length contents) < 2 ^ 31 ->
        fetch_instruction appstate
        = Ok (256 * b0 + b1,
              set_chip8_context (set_PC 0x202 (chip8_context appstate))
                appstate).
Proof.
  intros Hfiles Hrun.
  apply SDL_AppInit_continue_inv in Hrun
    as (name & contents & n & Hname & Hfile & Hn & Hsmall & Heq & Hwf);
    [|exact Hfiles].
  injection Heq as ->.
  exists name, contents. split; [exact Hname|]. split; [exact Hfile|].
  intros b0 b1 rest Hcontents H31.
  rewrite (Hsmall H31), firstn_all in *. clear Hsmall.
  destruct (fetch_instruction_word _ Hwf) as (hi & lo & Hhi & Hlo & Hfetch);
    [reflexivity|].
  assert (Hsize : 0x200 + Z.of_nat (length contents)
                  <= Z.of_nat (length blank_RAM)).
  { unfold blank_RAM. rewrite length_replicate.
    change (Z.of_nat (Z.to_nat RAM_SIZE)) with 4096. lia. }
  change (load 0x200 contents blank_RAM !! (Z.to_nat 0x200 + 0)%nat
          = Some hi) in Hhi.
  change (load 0x200 contents blank_RAM !! (Z.to_nat 0x200 + 1)%nat
          = Some lo) in Hlo.
  rewrite load_lookup_inside in Hhi, Hlo
    by first [exact Hsize | lia | (subst contents; cbn [length]; lia)].
  subst contents. injection Hhi as <-. injection Hlo as <-. exact Hfetch.
Qed.

Lemma SDL_AppInit_then_fetch_witness :
  exists output appstate,
    SDL_AppInit pong_host ["chips"; "-r"; "pong.ch8"]%string
    = (output, inr (SDL_APP_CONTINUE, Some appstate))
    /\ fetch_instruction appstate
       = Ok (0x00E0,
             set_chip8_context (set_PC 0x202 (chip8_context appstate))
               appstate).
Proof.
  assert (Hrun : exists output appstate,
             SDL_AppInit pong_host ["chips"; "-r"; "pong.ch8"]%string
             = (output, inr (SDL_APP_CONTINUE, Some appstate)))
    by (vm_compute; eexists _, _; reflexivity).
  destruct Hrun as (output & appstate & Hrun).
  exists output, appstate. split; [exact Hrun|].
  destruct (SDL_AppInit_then_fetch pong_host _ _ _ pong_files_bytes Hrun)
    as (name & contents & _ & Hfile & Hfetch).
  unfold pong_host, pong_files in Hfile. cbn in Hfile.
  destruct (String.eqb name "pong.ch8"); [|discriminate].
  injection Hfile as <-.
  exact (Hfetch 0x00 0xE0 [0x12] eq_refl ltac:(vm_compute; reflexivity)).
Defined.
